(** * ClipAI: the clip pipeline, its selection stage and its helpers

    A shallow embedding of the Python sources

    - [src/models/state.py], [src/models/config.py]
    - [src/utils/video_utils.py] ([sanitize_filename])
    - [src/nodes/selection_node.py] ([select_clips_node])
    - [src/nodes/clip_generation_node.py] ([convert_to_portrait],
      [generate_clips_node])
    - [src/nodes/transcript_node.py], [analysis_node.py],
      [video_download_node.py], [metadata_generation_node.py]
    - [src/agents/podcast_agent.py] (the LangGraph workflow)

    Conventions.  A Python [float] the code computes with or compares
    (the times of clips and of transcript segments, the rate-limit
    delay, the length of the video, the aspect ratios and scale factors
    of [convert_to_portrait]) is a binary64 value of [F64.t], with its
    rounding, its infinities and its NaN.  A [float] that is only
    compared and never computed with, and that its model class confines
    to a range (the score of a clip, between 1 and 10), or that is only
    stored (clock readings, file sizes), is the rational [Q] it stands
    for.  Python [int]s are [Z], [len] and [enumerate] counters are
    [nat].  A call that may raise returns a [result]; the exception is
    represented by its [str(e)] text.  Calls that leave the process (the
    transcript service, the model, yt-dlp, MoviePy, the environment) are
    answered by a [World] record fixed for one run. *)

From Stdlib Require Import QArith ZArith.
From Stdlib Require Import SpecFloat.
From Stdlib Require Import List String Ascii Bool Lia.
From Stdlib Require Import Sorting.Sorted Sorting.Permutation.
Import ListNotations.

Open Scope string_scope.
Open Scope list_scope.

(* ================================================================= *)
(** ** Python values *)

Module Py.

(** Outcome of a call that may raise. *)
Inductive result (A : Type) : Type :=
| Ok (a : A)
| Raise (e : string).
Arguments Ok {A} a.
Arguments Raise {A} e.

Definition bind {A B} (r : result A) (k : A -> result B) : result B :=
  match r with
  | Ok a => k a
  | Raise e => Raise e
  end.

(** Truthiness of the values the nodes test with [not x]. *)
Definition truthy_str (s : string) : bool :=
  match s with EmptyString => false | _ => true end.

Definition truthy_opt_str (o : option string) : bool :=
  match o with None => false | Some s => truthy_str s end.

Definition truthy_list {A} (l : list A) : bool :=
  match l with [] => false | _ => true end.

(** The slice [l[:k]] for a Python int [k]: a non-negative [k] keeps
    the first [k] items, a negative [k] counts the stop index from the
    end of the list. *)
Definition slice_to {A} (l : list A) (k : Z) : list A :=
  if (0 <=? k)%Z then firstn (Z.to_nat k) l
  else firstn (Z.to_nat (Z.of_nat (List.length l) + k)) l.

(** [x < y] on the rationals that stand for scores. *)
Definition Qltb (x y : Q) : bool := negb (Qle_bool y x).

(** [str(n)] for a counter. *)
Fixpoint digits (fuel n : nat) (acc : string) : string :=
  match fuel with
  | O => acc
  | S fuel' =>
      let d := String (ascii_of_nat (48 + Nat.modulo n 10)) acc in
      match Nat.div n 10 with
      | O => d
      | q => digits fuel' q d
      end
  end.

Definition str_of_nat (n : nat) : string := digits (S n) n EmptyString.

End Py.
Import Py.

(* ================================================================= *)
(** ** Python floats *)

(** binary64, as specified by the Standard Library's [SpecFloat]: a
    value is a signed zero, an infinity, NaN, or [S754_finite s m e],
    which stands for plus or minus [m * 2^e].  The operations round to
    nearest, ties to even. *)
Module F64.

Definition t : Type := spec_float.

Definition prec : Z := 53.
Definition emax : Z := 1024.

Definition nan : t := S754_nan.

(** The float nearest to an int ([float(n)] where that does not
    overflow; below 2^53 it is exact). *)
Definition of_Z (z : Z) : t := binary_normalize prec emax z 0 false.

Definition add : t -> t -> t := SFadd prec emax.
Definition sub : t -> t -> t := SFsub prec emax.
Definition mul : t -> t -> t := SFmul prec emax.
Definition div : t -> t -> t := SFdiv prec emax.
Definition abs : t -> t := SFabs.

(** The float nearest to the decimal [n / d], for small [n] and [d]:
    how a literal such as [0.95] is read. *)
Definition of_ratio (n d : Z) : t := div (of_Z n) (of_Z d).

Definition is_nan (x : t) : bool :=
  match x with S754_nan => true | _ => false end.

Definition is_finite (x : t) : bool :=
  match x with S754_zero _ | S754_finite _ _ _ => true | _ => false end.

(** Comparison of a float with an int.  Python compares the two
    numbers exactly, without converting the int; NaN compares with
    nothing. *)
Definition compare_Z (x : t) (z : Z) : option comparison :=
  match x with
  | S754_nan => None
  | S754_infinity s => Some (if s then Lt else Gt)
  | S754_zero _ => Some (Z.compare 0 z)
  | S754_finite s m e =>
      let sm := cond_Zopp s (Zpos m) in
      Some (match e with
            | Zneg p => Z.compare sm (z * 2 ^ Zpos p)
            | _ => Z.compare (sm * 2 ^ e) z
            end)
  end.

(** [x < z], [x > z], [x <= z], [x >= z] for a float [x] and an
    int [z]: all four are false when [x] is NaN. *)
Definition ltb_Z (x : t) (z : Z) : bool :=
  match compare_Z x z with Some Lt => true | _ => false end.
Definition gtb_Z (x : t) (z : Z) : bool :=
  match compare_Z x z with Some Gt => true | _ => false end.
Definition leb_Z (x : t) (z : Z) : bool :=
  match compare_Z x z with Some (Lt | Eq) => true | _ => false end.
Definition geb_Z (x : t) (z : Z) : bool :=
  match compare_Z x z with Some (Gt | Eq) => true | _ => false end.

(** Comparison of two floats. *)
Definition compare : t -> t -> option comparison := SFcompare.
Definition ltb (x y : t) : bool :=
  match compare x y with Some Lt => true | _ => false end.
Definition gtb (x y : t) : bool :=
  match compare x y with Some Gt => true | _ => false end.
Definition leb (x y : t) : bool :=
  match compare x y with Some (Lt | Eq) => true | _ => false end.
Definition geb (x y : t) : bool :=
  match compare x y with Some (Gt | Eq) => true | _ => false end.

(** [float(n)] for an int: an int too large for a float raises
    [OverflowError]. *)
Definition float_of_int (z : Z) : result t :=
  match of_Z z with
  | S754_infinity _ => Raise "int too large to convert to float"
  | f => Ok f
  end.

(** [a / b] for two ints: the float nearest to the exact quotient
    (ties to even), which depends on the ratio only, so the fraction is
    reduced first.  A zero divisor raises [ZeroDivisionError], a
    quotient beyond the floats [OverflowError]. *)
Definition int_truediv (a b : Z) : result t :=
  if (b =? 0)%Z then Raise "division by zero"
  else
    let negative := xorb (a <? 0)%Z (b <? 0)%Z in
    match Qred (Z.abs a # Z.to_pos (Z.abs b)) with
    | Qmake (Zpos n) d =>
        let '(q, e, l) := SFdiv_core_binary prec emax (Zpos n) 0 (Zpos d) 0 in
        match binary_round_aux prec emax negative q e l with
        | S754_infinity _ =>
            Raise "integer division result too large for a float"
        | r => Ok r
        end
    | _ => Ok (S754_zero negative)
    end.

(** [x / y] for two floats: only a zero divisor raises. *)
Definition float_truediv (x y : t) : result t :=
  match y with
  | S754_zero _ => Raise "float division by zero"
  | _ => Ok (div x y)
  end.

(** [int(x)] truncates toward zero; NaN and the infinities have no
    int. *)
Definition int_of_float (x : t) : result Z :=
  match x with
  | S754_nan => Raise "cannot convert float NaN to integer"
  | S754_infinity _ => Raise "cannot convert float infinity to integer"
  | S754_zero _ => Ok 0%Z
  | S754_finite s m e =>
      Ok (cond_Zopp s
            (match e with
             | Zneg p => Zpos m / 2 ^ Zpos p
             | _ => Zpos m * 2 ^ e
             end)%Z)
  end.

End F64.

Infix "+s+" := String.append (at level 60, right associativity).

(* ================================================================= *)
(** ** [models/state.py] *)

Record VideoSegment : Type := {
  start_time : F64.t;
  end_time : F64.t;
  content : string;
  score : Q;
  reasoning : string;
  segment_type : string
}.

Record TranscriptSegment : Type := {
  ts_start_time : F64.t;
  ts_end_time : F64.t;
  ts_text : string;
  ts_confidence : option F64.t
}.

Record ClipMetadata : Type := {
  cm_title : string;
  cm_description : string;
  cm_hashtags : list string;
  cm_thumbnail_time : Q;
  cm_duration : Q
}.

(** One entry of [processed_clips]: [ProcessingResult.dict()] extended by
    the keys [generate_clips_node] adds. *)
Record ProcessedClip : Type := {
  success : bool;
  output_path : option string;
  pr_errors : list string;
  pr_metadata : option ClipMetadata;
  processing_time : option Q;
  clip_index : nat;
  segment_data : VideoSegment;
  file_size_mb : option Q;
  thumbnail_path : option string;
  filename : string
}.

(** The [video_metadata] entry written by [download_video_node]. *)
Record VideoMetadata : Type := {
  vm_uploader : string;
  vm_file_size_mb : Q;
  vm_resolution : string
}.

(** The [config] entry: the overrides the caller may pass. *)
Record CustomConfig : Type := {
  cc_max_clips_per_video : option Z;
  cc_target_clip_duration : option Z;
  cc_min_clip_duration : option Z;
  cc_max_clip_duration : option Z
}.

(** [PodcastState]: the dictionary threaded through the nodes, with the
    keys of the [TypedDict] and the extra key [video_metadata]. *)
Record PodcastState : Type := {
  url : string;
  video_path : option string;
  audio_path : option string;
  transcript : option string;
  transcript_segments : list TranscriptSegment;
  transcript_source : option string;
  identified_clips : list VideoSegment;
  selected_clips : list VideoSegment;
  processed_clips : list ProcessedClip;
  metadata : list ClipMetadata;
  video_title : option string;
  video_duration : option F64.t;
  video_id : option string;
  errors : list string;
  warnings : list string;
  config : CustomConfig;
  status : string;
  created_at : option string;
  completed_at : option string;
  video_metadata : option VideoMetadata
}.

(** [state[key] = v], one definition per key that some node assigns. *)
Definition set_video_path (v : option string) (s : PodcastState) : PodcastState :=
  {| url := url s; video_path := v; audio_path := audio_path s;
     transcript := transcript s;
     transcript_segments := transcript_segments s;
     transcript_source := transcript_source s;
     identified_clips := identified_clips s;
     selected_clips := selected_clips s;
     processed_clips := processed_clips s; metadata := metadata s;
     video_title := video_title s; video_duration := video_duration s;
     video_id := video_id s; errors := errors s; warnings := warnings s;
     config := config s; status := status s; created_at := created_at s;
     completed_at := completed_at s; video_metadata := video_metadata s |}.

Definition set_transcript (v : option string) (s : PodcastState) : PodcastState :=
  {| url := url s; video_path := video_path s; audio_path := audio_path s;
     transcript := v; transcript_segments := transcript_segments s;
     transcript_source := transcript_source s;
     identified_clips := identified_clips s;
     selected_clips := selected_clips s;
     processed_clips := processed_clips s; metadata := metadata s;
     video_title := video_title s; video_duration := video_duration s;
     video_id := video_id s; errors := errors s; warnings := warnings s;
     config := config s; status := status s; created_at := created_at s;
     completed_at := completed_at s; video_metadata := video_metadata s |}.

Definition set_transcript_segments (v : list TranscriptSegment) (s : PodcastState) : PodcastState :=
  {| url := url s; video_path := video_path s; audio_path := audio_path s;
     transcript := transcript s; transcript_segments := v;
     transcript_source := transcript_source s;
     identified_clips := identified_clips s;
     selected_clips := selected_clips s;
     processed_clips := processed_clips s; metadata := metadata s;
     video_title := video_title s; video_duration := video_duration s;
     video_id := video_id s; errors := errors s; warnings := warnings s;
     config := config s; status := status s; created_at := created_at s;
     completed_at := completed_at s; video_metadata := video_metadata s |}.

Definition set_transcript_source (v : option string) (s : PodcastState) : PodcastState :=
  {| url := url s; video_path := video_path s; audio_path := audio_path s;
     transcript := transcript s;
     transcript_segments := transcript_segments s; transcript_source := v;
     identified_clips := identified_clips s;
     selected_clips := selected_clips s;
     processed_clips := processed_clips s; metadata := metadata s;
     video_title := video_title s; video_duration := video_duration s;
     video_id := video_id s; errors := errors s; warnings := warnings s;
     config := config s; status := status s; created_at := created_at s;
     completed_at := completed_at s; video_metadata := video_metadata s |}.

Definition set_identified_clips (v : list VideoSegment) (s : PodcastState) : PodcastState :=
  {| url := url s; video_path := video_path s; audio_path := audio_path s;
     transcript := transcript s;
     transcript_segments := transcript_segments s;
     transcript_source := transcript_source s; identified_clips := v;
     selected_clips := selected_clips s;
     processed_clips := processed_clips s; metadata := metadata s;
     video_title := video_title s; video_duration := video_duration s;
     video_id := video_id s; errors := errors s; warnings := warnings s;
     config := config s; status := status s; created_at := created_at s;
     completed_at := completed_at s; video_metadata := video_metadata s |}.

Definition set_selected_clips (v : list VideoSegment) (s : PodcastState) : PodcastState :=
  {| url := url s; video_path := video_path s; audio_path := audio_path s;
     transcript := transcript s;
     transcript_segments := transcript_segments s;
     transcript_source := transcript_source s;
     identified_clips := identified_clips s; selected_clips := v;
     processed_clips := processed_clips s; metadata := metadata s;
     video_title := video_title s; video_duration := video_duration s;
     video_id := video_id s; errors := errors s; warnings := warnings s;
     config := config s; status := status s; created_at := created_at s;
     completed_at := completed_at s; video_metadata := video_metadata s |}.

Definition set_processed_clips (v : list ProcessedClip) (s : PodcastState) : PodcastState :=
  {| url := url s; video_path := video_path s; audio_path := audio_path s;
     transcript := transcript s;
     transcript_segments := transcript_segments s;
     transcript_source := transcript_source s;
     identified_clips := identified_clips s;
     selected_clips := selected_clips s; processed_clips := v;
     metadata := metadata s; video_title := video_title s;
     video_duration := video_duration s; video_id := video_id s;
     errors := errors s; warnings := warnings s; config := config s;
     status := status s; created_at := created_at s;
     completed_at := completed_at s; video_metadata := video_metadata s |}.

Definition set_metadata (v : list ClipMetadata) (s : PodcastState) : PodcastState :=
  {| url := url s; video_path := video_path s; audio_path := audio_path s;
     transcript := transcript s;
     transcript_segments := transcript_segments s;
     transcript_source := transcript_source s;
     identified_clips := identified_clips s;
     selected_clips := selected_clips s;
     processed_clips := processed_clips s; metadata := v;
     video_title := video_title s; video_duration := video_duration s;
     video_id := video_id s; errors := errors s; warnings := warnings s;
     config := config s; status := status s; created_at := created_at s;
     completed_at := completed_at s; video_metadata := video_metadata s |}.

Definition set_video_title (v : option string) (s : PodcastState) : PodcastState :=
  {| url := url s; video_path := video_path s; audio_path := audio_path s;
     transcript := transcript s;
     transcript_segments := transcript_segments s;
     transcript_source := transcript_source s;
     identified_clips := identified_clips s;
     selected_clips := selected_clips s;
     processed_clips := processed_clips s; metadata := metadata s;
     video_title := v; video_duration := video_duration s;
     video_id := video_id s; errors := errors s; warnings := warnings s;
     config := config s; status := status s; created_at := created_at s;
     completed_at := completed_at s; video_metadata := video_metadata s |}.

Definition set_video_duration (v : option F64.t) (s : PodcastState) : PodcastState :=
  {| url := url s; video_path := video_path s; audio_path := audio_path s;
     transcript := transcript s;
     transcript_segments := transcript_segments s;
     transcript_source := transcript_source s;
     identified_clips := identified_clips s;
     selected_clips := selected_clips s;
     processed_clips := processed_clips s; metadata := metadata s;
     video_title := video_title s; video_duration := v;
     video_id := video_id s; errors := errors s; warnings := warnings s;
     config := config s; status := status s; created_at := created_at s;
     completed_at := completed_at s; video_metadata := video_metadata s |}.

Definition set_video_id (v : option string) (s : PodcastState) : PodcastState :=
  {| url := url s; video_path := video_path s; audio_path := audio_path s;
     transcript := transcript s;
     transcript_segments := transcript_segments s;
     transcript_source := transcript_source s;
     identified_clips := identified_clips s;
     selected_clips := selected_clips s;
     processed_clips := processed_clips s; metadata := metadata s;
     video_title := video_title s; video_duration := video_duration s;
     video_id := v; errors := errors s; warnings := warnings s;
     config := config s; status := status s; created_at := created_at s;
     completed_at := completed_at s; video_metadata := video_metadata s |}.

Definition set_errors (v : list string) (s : PodcastState) : PodcastState :=
  {| url := url s; video_path := video_path s; audio_path := audio_path s;
     transcript := transcript s;
     transcript_segments := transcript_segments s;
     transcript_source := transcript_source s;
     identified_clips := identified_clips s;
     selected_clips := selected_clips s;
     processed_clips := processed_clips s; metadata := metadata s;
     video_title := video_title s; video_duration := video_duration s;
     video_id := video_id s; errors := v; warnings := warnings s;
     config := config s; status := status s; created_at := created_at s;
     completed_at := completed_at s; video_metadata := video_metadata s |}.

Definition set_warnings (v : list string) (s : PodcastState) : PodcastState :=
  {| url := url s; video_path := video_path s; audio_path := audio_path s;
     transcript := transcript s;
     transcript_segments := transcript_segments s;
     transcript_source := transcript_source s;
     identified_clips := identified_clips s;
     selected_clips := selected_clips s;
     processed_clips := processed_clips s; metadata := metadata s;
     video_title := video_title s; video_duration := video_duration s;
     video_id := video_id s; errors := errors s; warnings := v;
     config := config s; status := status s; created_at := created_at s;
     completed_at := completed_at s; video_metadata := video_metadata s |}.

Definition set_status (v : string) (s : PodcastState) : PodcastState :=
  {| url := url s; video_path := video_path s; audio_path := audio_path s;
     transcript := transcript s;
     transcript_segments := transcript_segments s;
     transcript_source := transcript_source s;
     identified_clips := identified_clips s;
     selected_clips := selected_clips s;
     processed_clips := processed_clips s; metadata := metadata s;
     video_title := video_title s; video_duration := video_duration s;
     video_id := video_id s; errors := errors s; warnings := warnings s;
     config := config s; status := v; created_at := created_at s;
     completed_at := completed_at s; video_metadata := video_metadata s |}.

Definition set_created_at (v : option string) (s : PodcastState) : PodcastState :=
  {| url := url s; video_path := video_path s; audio_path := audio_path s;
     transcript := transcript s;
     transcript_segments := transcript_segments s;
     transcript_source := transcript_source s;
     identified_clips := identified_clips s;
     selected_clips := selected_clips s;
     processed_clips := processed_clips s; metadata := metadata s;
     video_title := video_title s; video_duration := video_duration s;
     video_id := video_id s; errors := errors s; warnings := warnings s;
     config := config s; status := status s; created_at := v;
     completed_at := completed_at s; video_metadata := video_metadata s |}.

Definition set_completed_at (v : option string) (s : PodcastState) : PodcastState :=
  {| url := url s; video_path := video_path s; audio_path := audio_path s;
     transcript := transcript s;
     transcript_segments := transcript_segments s;
     transcript_source := transcript_source s;
     identified_clips := identified_clips s;
     selected_clips := selected_clips s;
     processed_clips := processed_clips s; metadata := metadata s;
     video_title := video_title s; video_duration := video_duration s;
     video_id := video_id s; errors := errors s; warnings := warnings s;
     config := config s; status := status s; created_at := created_at s;
     completed_at := v; video_metadata := video_metadata s |}.

Definition set_video_metadata (v : option VideoMetadata) (s : PodcastState) : PodcastState :=
  {| url := url s; video_path := video_path s; audio_path := audio_path s;
     transcript := transcript s;
     transcript_segments := transcript_segments s;
     transcript_source := transcript_source s;
     identified_clips := identified_clips s;
     selected_clips := selected_clips s;
     processed_clips := processed_clips s; metadata := metadata s;
     video_title := video_title s; video_duration := video_duration s;
     video_id := video_id s; errors := errors s; warnings := warnings s;
     config := config s; status := status s; created_at := created_at s;
     completed_at := completed_at s; video_metadata := v |}.

(** The pydantic constraint on [VideoSegment.score]: [ge=1, le=10].
    Building a [VideoSegment] from a stored dictionary raises when it is
    violated. *)
Definition score_in_range (c : VideoSegment) : bool :=
  Qle_bool 1 (score c) && Qle_bool (score c) 10.

Definition VideoSegment_init (c : VideoSegment) : result VideoSegment :=
  if score_in_range c then Ok c
  else Raise "1 validation error for VideoSegment".

Fixpoint VideoSegment_init_all (l : list VideoSegment)
  : result (list VideoSegment) :=
  match l with
  | [] => Ok []
  | c :: rest =>
      bind (VideoSegment_init c) (fun c' =>
      bind (VideoSegment_init_all rest) (fun rest' => Ok (c' :: rest')))
  end.

(* ================================================================= *)
(** ** [models/config.py] *)

Record ProcessingConfig : Type := {
  max_clips_per_video : Z;
  min_clip_duration : Z;
  max_clip_duration : Z;
  target_clip_duration : Z;
  min_engagement_score : Q;
  max_video_duration : Z;
  api_rate_limit_delay : F64.t
}.

(** What [AppConfig.from_env] reads.  [int_getenv name] is the outcome of
    [int(os.getenv(name))], which raises when the variable is unset or is
    not an integer literal; [float_getenv name default] is the outcome of
    [float(os.getenv(name, default))], which raises when the text is not
    a float literal and accepts negative numbers, [inf] and [nan];
    [env_rest] stands for the remaining steps of the constructor that
    may raise (the aspect-ratio validator, [os.makedirs]). *)
Record Env : Type := {
  int_getenv : string -> result Z;
  float_getenv : string -> string -> result F64.t;
  env_rest : result unit
}.

(** [AppConfig.from_env().processing].  The fields not passed by
    [from_env] take their declared defaults; in particular
    [min_engagement_score] is always 7.5.  The validator on
    [min_clip_duration] only sees the fields declared before it, so the
    test ['max_clip_duration' in values] is false and nothing is
    rejected; [api_rate_limit_delay] carries no constraint. *)
Definition from_env (env : Env) : result ProcessingConfig :=
  bind (int_getenv env "MAX_CLIPS_PER_VIDEO") (fun mx =>
  bind (int_getenv env "MIN_CLIP_DURATION") (fun mn =>
  bind (int_getenv env "MAX_CLIP_DURATION") (fun mxd =>
  bind (float_getenv env "API_RATE_LIMIT_DELAY" "5.0") (fun delay =>
  bind (env_rest env) (fun _ =>
  Ok {| max_clips_per_video := mx;
        min_clip_duration := mn;
        max_clip_duration := mxd;
        target_clip_duration := 30;
        min_engagement_score := 75 # 10;
        max_video_duration := 10800;
        api_rate_limit_delay := delay |}))))).

(* ================================================================= *)
(** ** [nodes/selection_node.py] *)

(** The lines [select_clips_node] writes with [print]; each constructor
    carries the values its f-string formats. *)
Inductive Printed : Type :=
| PrintValidating (n : nat)
| PrintTooShort (clip_start clip_end duration : F64.t)
| PrintTooLong (clip_start clip_end duration : F64.t)
| PrintLowScore (clip_start clip_end : F64.t) (clip_score : Q)
| PrintPassed (n : nat)
| PrintSelected (n : nat)
| PrintClip (i : nat) (clip : VideoSegment) (duration : F64.t)
| PrintReasoning (text : string)
| PrintComplete (n : nat)
| PrintError (msg : string).

(** The [for clip in clips] loop of lines 43-59, with its accumulator
    [validated_clips] and the console output so far.  The duration is
    the float difference of the two times; it is compared with the two
    int bounds, and the score with the float 7.5. *)
Fixpoint validation_loop (p : ProcessingConfig) (clips : list VideoSegment)
    (validated_clips : list VideoSegment) (out : list Printed)
  : list VideoSegment * list Printed :=
  match clips with
  | [] => (validated_clips, out)
  | clip :: rest =>
      let duration := F64.sub (end_time clip) (start_time clip) in
      if F64.ltb_Z duration (min_clip_duration p) then
        validation_loop p rest validated_clips
          (out ++ [PrintTooShort (start_time clip) (end_time clip) duration])
      else if F64.gtb_Z duration (max_clip_duration p) then
        validation_loop p rest validated_clips
          (out ++ [PrintTooLong (start_time clip) (end_time clip) duration])
      else if Qltb (score clip) (min_engagement_score p) then
        validation_loop p rest validated_clips
          (out ++ [PrintLowScore (start_time clip) (end_time clip)
                     (score clip)])
      else
        validation_loop p rest (validated_clips ++ [clip]) out
  end.

(** [validated_clips.sort(key=lambda x: x.score, reverse=True)].
    Python's sort is stable, also under [reverse=True]: items with equal
    keys keep their relative order.  A stable sort is determined by the
    key order (lemma [sort_by_score_desc_unique] below), so the list is
    the one straight insertion builds. *)
Fixpoint insert_by_score (x : VideoSegment) (l : list VideoSegment)
  : list VideoSegment :=
  match l with
  | [] => [x]
  | y :: l' =>
      if Qltb (score x) (score y) then y :: insert_by_score x l'
      else x :: y :: l'
  end.

Definition sort_by_score_desc (l : list VideoSegment) : list VideoSegment :=
  fold_right insert_by_score [] l.

(** The summary loop [for i, clip in enumerate(selected_clips, 1)]. *)
Fixpoint selection_summary (i : nat) (selected : list VideoSegment)
  : list Printed :=
  match selected with
  | [] => []
  | clip :: rest =>
      PrintClip i clip (F64.sub (end_time clip) (start_time clip))
      :: PrintReasoning (substring 0 100 (reasoning clip))
      :: selection_summary (S i) rest
  end.

(** Lines 33-77: the part of the [try] block that can raise.  Returns the
    list [selected_clips], or the exception, with the console output. *)
Definition select_try (env : Env) (identified : list VideoSegment)
  : result (list VideoSegment) * list Printed :=
  match from_env env with
  | Raise e => (Raise e, [])
  | Ok processing =>
      let out := [PrintValidating (List.length identified)] in
      match VideoSegment_init_all identified with
      | Raise e => (Raise e, out)
      | Ok clips =>
          let (validated_clips, out) := validation_loop processing clips [] out in
          let out := out ++ [PrintPassed (List.length validated_clips)] in
          let validated_clips := sort_by_score_desc validated_clips in
          let max_clips := max_clips_per_video processing in
          let selected := slice_to validated_clips max_clips in
          let out := out ++ [PrintSelected (List.length selected)] in
          (Ok selected, out ++ selection_summary 1 selected)
      end
  end.

(** [select_clips_node]: the new state and what was printed.  [errors]
    and [warnings] are the list objects stored in the state, so an
    [append] is an append to the state's list. *)
Definition select_clips_node (env : Env) (state : PodcastState)
  : PodcastState * list Printed :=
  let identified := identified_clips state in
  let errs := errors state in
  let warns := warnings state in
  if negb (truthy_list identified) then
    let warns := warns ++ ["No clips identified by analysis"] in
    (set_status "no_clips_identified"
       (set_selected_clips [] (set_warnings warns state)), [])
  else
    match select_try env identified with
    | (Ok selected, out) =>
        if negb (truthy_list selected) then
          let warns := warns ++ ["No clips passed validation criteria"] in
          (set_status "no_clips_passed_validation"
             (set_selected_clips [] (set_warnings warns state)), out)
        else
          (set_warnings warns
             (set_status "clips_selected"
                (set_selected_clips selected state)),
           out ++ [PrintComplete (List.length selected)])
    | (Raise e, out) =>
        let error_msg := "Clip selection failed: " +s+ e in
        (set_status "selection_failed"
           (set_errors (errs ++ [error_msg]) state),
         out ++ [PrintError error_msg])
    end.

(** The three constraints of the validation loop as one test. *)
Definition passes (p : ProcessingConfig) (clip : VideoSegment) : bool :=
  negb (F64.ltb_Z (F64.sub (end_time clip) (start_time clip))
          (min_clip_duration p))
  && negb (F64.gtb_Z (F64.sub (end_time clip) (start_time clip))
             (max_clip_duration p))
  && negb (Qltb (score clip) (min_engagement_score p)).

(* ================================================================= *)
(** ** [utils/video_utils.py]: [sanitize_filename] *)

(** The characters of a Python [str] are code points.  The function
    handles them one by one and tells apart only eleven of them, so it
    is written once for every alphabet that gives each character its
    code point and has the underscore.  Two alphabets are used: [ascii],
    the characters of the strings of this development, and [N], all
    code points. *)
Class Alphabet (char : Type) : Type := {
  ord : char -> N;
  underscore : char;
  ord_underscore : ord underscore = 95%N
}.

#[export] Instance ascii_alphabet : Alphabet ascii :=
  {| ord := N_of_ascii; underscore := "_"%char; ord_underscore := eq_refl |}.

#[export] Instance code_point_alphabet : Alphabet N :=
  {| ord := fun n => n; underscore := 95%N; ord_underscore := eq_refl |}.

(** The character class of the pattern: less-than, greater-than, colon,
    double quote, slash, backslash, bar, question mark, star. *)
Definition invalid_chars : list ascii :=
  ["<"; ">"; ":"; ascii_of_nat 34; "/"; "\"; "|"; "?"; "*"]%char.

Definition invalid_codes : list N := map N_of_ascii invalid_chars.

Definition is_invalid_char {char} `{Alphabet char} (c : char) : bool :=
  existsb (N.eqb (ord c)) invalid_codes.

(** [re.sub(pattern, '_', filename)]: every match is one character. *)
Definition re_sub_invalid {char} `{Alphabet char} (filename : list char)
  : list char :=
  map (fun c => if is_invalid_char c then underscore else c) filename.

(** The characters of [' .']: the space and the dot. *)
Definition is_strip_char {char} `{Alphabet char} (c : char) : bool :=
  N.eqb (ord c) 32 || N.eqb (ord c) 46.

Fixpoint lstrip {char} `{Alphabet char} (l : list char) : list char :=
  match l with
  | [] => []
  | c :: rest => if is_strip_char c then lstrip rest else l
  end.

Definition rstrip {char} `{Alphabet char} (l : list char) : list char :=
  rev (lstrip (rev l)).

(** [filename.strip(' .')] *)
Definition strip {char} `{Alphabet char} (l : list char) : list char :=
  rstrip (lstrip l).

(** [sanitize_filename] on the characters of the name. *)
Definition sanitize_chars {char} `{Alphabet char} (filename : list char)
  : list char :=
  let filename := re_sub_invalid filename in
  let filename := strip filename in
  if (200 <? List.length filename)%nat then firstn 200 filename
  else filename.

(** [sanitize_filename] on the strings of this development. *)
Definition sanitize_filename (filename : string) : string :=
  string_of_list_ascii (sanitize_chars (list_ascii_of_string filename)).

(* ================================================================= *)
(** ** [nodes/clip_generation_node.py]: [convert_to_portrait] *)

(** A Python number: [max] and [min] return one of their arguments as
    it is, an int or a float. *)
Inductive Number : Type :=
| Int (z : Z)
| Float (x : F64.t).

(** The MoviePy expression the function returns.  [Composite] is
    [CompositeVideoClip([bg, positioned_clip])]: a background of size
    [bg_w x bg_h] under the source resized to [new_w x new_h] and placed
    with its top-left corner at [(pos_x, pos_y)]. *)
Inductive Clip : Type :=
| Resized (w h : Z)
| CroppedYResized (y1 y2 : Number) (w h : Z)
| CroppedXResized (x1 x2 : Number) (w h : Z)
| Composite (bg_w bg_h new_w new_h pos_x pos_y : Z).

(** [max(0, x)] for a float [x]: [x] when [x > 0], else the int 0. *)
Definition max_0 (x : F64.t) : Number :=
  if F64.gtb_Z x 0 then Float x else Int 0.

(** [min(n, x)] for an int [n] and a float [x]: [x] when [x < n], else
    [n]. *)
Definition min_int (n : Z) (x : F64.t) : Number :=
  if F64.ltb_Z x n then Float x else Int n.

(** [n + x] for a number [n] and a float [x]; the int is converted
    first. *)
Definition number_add (n : Number) (x : F64.t) : result F64.t :=
  match n with
  | Int z => bind (F64.float_of_int z) (fun z => Ok (F64.add z x))
  | Float y => Ok (F64.add y x)
  end.

(** The sizes are ints; every quotient and product is a binary64
    float, rounded as Python rounds it, and each can raise as it does
    in Python. *)
Definition convert_to_portrait (clip_size target_resolution : Z * Z)
  : result Clip :=
  let (target_width, target_height) := target_resolution in
  let (current_width, current_height) := clip_size in
  bind (F64.int_truediv target_width target_height)
    (fun target_aspect =>
  bind (F64.int_truediv current_width current_height)
    (fun current_aspect =>
  if F64.ltb (F64.abs (F64.sub current_aspect target_aspect))
       (F64.of_ratio 1 100) then
    Ok (Resized target_width target_height)
  else if F64.gtb current_aspect target_aspect then
    bind (F64.float_of_int current_width) (fun width =>
    bind (F64.float_truediv width target_aspect)
      (fun optimal_height =>
    if F64.leb_Z optimal_height current_height then
      let crop_height := optimal_height in
      bind (F64.int_truediv current_height 2) (fun y_center =>
      let y1 :=
        max_0 (F64.sub y_center (F64.div crop_height (F64.of_Z 2))) in
      bind (number_add y1 crop_height) (fun bottom =>
      let y2 := min_int current_height bottom in
      Ok (CroppedYResized y1 y2 target_width target_height)))
    else
      bind (F64.int_truediv target_height current_height)
        (fun scale_factor =>
      bind (F64.float_of_int current_width) (fun width =>
      bind (F64.int_of_float (F64.mul width scale_factor))
        (fun new_width =>
      let x_offset := ((target_width - new_width) / 2)%Z in
      Ok (Composite target_width target_height new_width target_height
            x_offset 0))))))
  else
    bind (F64.float_of_int current_height) (fun height =>
    let optimal_width := F64.mul height target_aspect in
    if F64.leb_Z optimal_width current_width then
      let crop_width := optimal_width in
      bind (F64.int_truediv current_width 2) (fun x_center =>
      let x1 :=
        max_0 (F64.sub x_center (F64.div crop_width (F64.of_Z 2))) in
      bind (number_add x1 crop_width) (fun right =>
      let x2 := min_int current_width right in
      Ok (CroppedXResized x1 x2 target_width target_height)))
    else
      bind (F64.int_truediv target_width current_width)
        (fun scale_factor =>
      bind (F64.float_of_int current_height) (fun height =>
      bind (F64.int_of_float (F64.mul height scale_factor))
        (fun new_height =>
      let y_offset := ((target_height - new_height) / 2)%Z in
      Ok (Composite target_width target_height target_width new_height
            0 y_offset))))))).

(* ================================================================= *)
(** ** The collaborators of one run *)

Record Downloaded : Type := {
  dl_video_path : string;
  dl_title : string;
  dl_duration : F64.t;
  dl_metadata : VideoMetadata
}.

Record Rendered : Type := {
  r_clip_path : string;
  r_generation_time : Q;
  r_file_size_mb : Q;
  r_thumbnail_path : string
}.

(** The dictionary [get_video_metadata] returns, read at the two keys
    the transcript node looks up; [None] is an absent key.  The function
    of [utils/transcript.py] catches every exception of the loader and
    returns the empty dictionary instead, so it never raises. *)
Record VideoInfo : Type := {
  vi_title : option string;
  vi_length : option Z
}.

Definition empty_info : VideoInfo :=
  {| vi_title := None; vi_length := None |}.

(** Every answer the nodes obtain from outside the process.

    - [get_video_metadata]: the dictionary of the loader, or the empty
      one when the loader failed;
    - [fetch_youtube_transcript]: text, segments and source tag;
    - [analyze]: the [try] block of [analyze_content_node] (configuration,
      the model call, the parse of its reply), which reads the state;
    - [download]: the [try] block of [download_video_node] up to the
      state updates: the long-video warning it may append first, then the
      file and its metadata, or the exception;
    - [path_exists]: [os.path.exists];
    - [open_video]: configuration, directories and [VideoFileClip(...)];
    - [render_clip]: the body of the per-clip [try] (cut, convert, write,
      thumbnail) for clip [i] under the given file name;
    - [failure_time]: the clock difference [time.time() - start_time]
      read in the [except] branch of clip [i];
    - [sleep_too_long]: whether [time.sleep] refuses a finite delay as
      too large in magnitude for the platform's clock;
    - [metadata_setup]: the test of the API key and the model handle;
    - [clip_metadata]: the per-clip model call and parse ([None] when the
      reply cannot be parsed);
    - [now]: [datetime.now().isoformat()]; one reading stands for all. *)
Record World : Type := {
  env : Env;
  extract_video_id_from_url : string -> string;
  get_video_metadata : string -> VideoInfo;
  fetch_youtube_transcript :
    string -> result (string * list TranscriptSegment * string);
  analyze : PodcastState -> result (list VideoSegment);
  download : string -> string -> option string * result Downloaded;
  path_exists : string -> bool;
  open_video : PodcastState -> result unit;
  render_clip : nat -> VideoSegment -> string -> result Rendered;
  failure_time : nat -> Q;
  sleep_too_long : F64.t -> bool;
  metadata_setup : result unit;
  clip_metadata : nat -> ProcessedClip -> result (option ClipMetadata);
  now : string
}.

Definition append_opt (l : list string) (o : option string) : list string :=
  match o with
  | Some x => l ++ [x]
  | None => l
  end.

(* ================================================================= *)
(** ** [nodes/transcript_node.py] *)

(** [float(video_duration) if video_duration else 0.0] *)
Definition duration_of_length (video_duration : Z) : result F64.t :=
  if (video_duration =? 0)%Z then Ok (F64.of_Z 0)
  else F64.float_of_int video_duration.

Definition fetch_transcript_node (w : World) (state : PodcastState)
  : PodcastState :=
  let url := url state in
  let errs := errors state in
  let warns := warnings state in
  let video_id := extract_video_id_from_url w url in
  (* inner try: the metadata.  The title is stored before the length is
     converted; a conversion that raises is a warning, appended to the
     list object the state holds *)
  let state :=
    let metadata := get_video_metadata w url in
    let video_title :=
      match vi_title metadata with
      | Some title => title
      | None => "Unknown Title"
      end in
    let video_duration :=
      match vi_length metadata with
      | Some length => length
      | None => 0%Z
      end in
    match duration_of_length video_duration with
    | Ok d =>
        set_video_id (Some video_id)
          (set_video_duration (Some d)
             (set_video_title (Some video_title) state))
    | Raise e =>
        set_video_id (Some video_id)
          (set_video_duration (Some (F64.of_Z 0))
             (set_video_title (Some "Unknown Title")
                (set_warnings
                   (warns ++ ["Could not fetch video metadata: " +s+ e])
                   state)))
    end in
  match fetch_youtube_transcript w url with
  | Ok (full_transcript, segments, source) =>
      let state :=
        set_status "transcript_fetched"
          (set_transcript_source (Some source)
             (set_transcript_segments segments
                (set_transcript (Some full_transcript) state))) in
      match created_at state with
      | None => set_created_at (Some (now w)) state
      | Some _ => state
      end
  | Raise e =>
      let error_msg := "Failed to fetch transcript: " +s+ e in
      set_status "failed" (set_errors (errs ++ [error_msg]) state)
  end.

(* ================================================================= *)
(** ** [nodes/analysis_node.py] *)

Definition analyze_content_node (w : World) (state : PodcastState)
  : PodcastState :=
  let transcript_text := transcript state in
  let transcript_segments := transcript_segments state in
  let errs := errors state in
  if negb (truthy_opt_str transcript_text)
     || negb (truthy_list transcript_segments) then
    let error_msg := "No transcript available for analysis" in
    set_errors (errs ++ [error_msg]) state
  else
    match analyze w state with
    | Ok clips_dict =>
        set_status "clips_identified" (set_identified_clips clips_dict state)
    | Raise e =>
        let error_msg := "Content analysis failed: " +s+ e in
        set_status "analysis_failed" (set_errors (errs ++ [error_msg]) state)
    end.

(* ================================================================= *)
(** ** [nodes/video_download_node.py] *)

Definition download_video_node (w : World) (state : PodcastState)
  : PodcastState :=
  let url := url state in
  let errs := errors state in
  let warns := warnings state in
  let (video_id, state) :=
    if truthy_opt_str (video_id state) then
      (match video_id state with Some v => v | None => "" end, state)
    else
      let v := extract_video_id_from_url w url in
      (v, set_video_id (Some v) state) in
  let (long_warning, outcome) := download w url video_id in
  let warns := append_opt warns long_warning in
  let state := set_warnings warns state in
  match outcome with
  | Ok d =>
      set_status "video_downloaded"
        (set_warnings warns
           (set_video_metadata (Some (dl_metadata d))
              (set_video_duration (Some (dl_duration d))
                 (set_video_title (Some (dl_title d))
                    (set_video_path (Some (dl_video_path d)) state)))))
  | Raise e =>
      let error_msg := "Video download failed: " +s+ e in
      set_status "failed" (set_errors (errs ++ [error_msg]) state)
  end.

(* ================================================================= *)
(** ** [nodes/clip_generation_node.py]: [generate_clips_node] *)

(** [f"{i:02d}"] *)
Definition two_digits (i : nat) : string :=
  if (i <? 10)%nat then "0" +s+ str_of_nat i else str_of_nat i.

(** The loop [for i, clip in enumerate(clips, 1)] with its accumulators
    [processed_clips] and [warnings]. *)
Fixpoint generation_loop (w : World) (i : nat) (clips : list VideoSegment)
    (processed : list ProcessedClip) (warns : list string)
  : list ProcessedClip * list string :=
  match clips with
  | [] => (processed, warns)
  | clip :: rest =>
      let clip_title :=
        sanitize_filename
          ("clip_" +s+ two_digits i +s+ "_" +s+ segment_type clip) in
      let clip_filename := clip_title +s+ ".mp4" in
      match render_clip w i clip clip_filename with
      | Ok r =>
          generation_loop w (S i) rest
            (processed ++
               [{| success := true;
                   output_path := Some (r_clip_path r);
                   pr_errors := [];
                   pr_metadata := None;
                   processing_time := Some (r_generation_time r);
                   clip_index := i;
                   segment_data := clip;
                   file_size_mb := Some (r_file_size_mb r);
                   thumbnail_path := Some (r_thumbnail_path r);
                   filename := clip_filename |}])
            warns
      | Raise e =>
          let error_msg :=
            "Failed to generate clip " +s+ str_of_nat i +s+ ": " +s+ e in
          generation_loop w (S i) rest
            (processed ++
               [{| success := false;
                   output_path := None;
                   pr_errors := [error_msg];
                   pr_metadata := None;
                   processing_time := Some (failure_time w i);
                   clip_index := i;
                   segment_data := clip;
                   file_size_mb := None;
                   thumbnail_path := None;
                   filename :=
                     "failed_clip_" +s+ str_of_nat i +s+ ".mp4" |}])
            (warns ++ [error_msg])
      end
  end.

(** [main_video.close()] after the loop is taken not to raise. *)
Definition generate_clips_node (w : World) (state : PodcastState)
  : PodcastState :=
  let selected := selected_clips state in
  let errs := errors state in
  let warns := warnings state in
  let no_video :=
    match video_path state with
    | Some p => negb (truthy_str p) || negb (path_exists w p)
    | None => true
    end in
  if no_video then
    let error_msg := "No video file available for clip generation" in
    set_errors (errs ++ [error_msg]) state
  else if negb (truthy_list selected) then
    let warns := warns ++ ["No clips selected for generation"] in
    set_status "no_clips_to_generate"
      (set_processed_clips [] (set_warnings warns state))
  else
    match bind (open_video w state)
            (fun _ => VideoSegment_init_all selected) with
    | Ok clips =>
        let (processed, warns) := generation_loop w 1 clips [] warns in
        let successful_clips := filter success processed in
        let state := set_warnings warns (set_processed_clips processed state) in
        if truthy_list successful_clips then
          set_status "clips_generated" state
        else
          set_status "clip_generation_failed" state
    | Raise e =>
        let error_msg := "Clip generation failed: " +s+ e in
        set_status "failed" (set_errors (errs ++ [error_msg]) state)
    end.

(* ================================================================= *)
(** ** [nodes/metadata_generation_node.py] *)

(** [time.sleep(secs)] raises on NaN, on a number too large in
    magnitude for the clock (the infinities among them) and on a negative
    number, in this order; the messages are those of CPython 3.11.
    [too_long] tells which finite delays are too large on the platform
    at hand. *)
Definition sleep (too_long : F64.t -> bool) (secs : F64.t) : result unit :=
  match secs with
  | S754_nan => Raise "Invalid value NaN (not a number)"
  | S754_infinity _ => Raise "timestamp too large to convert to C _PyTime_t"
  | S754_zero _ => Ok tt
  | S754_finite negative _ _ =>
      if too_long secs
      then Raise "timestamp too large to convert to C _PyTime_t"
      else if negative then Raise "sleep length must be non-negative"
      else Ok tt
  end.

(** The loop [for i, clip_data in enumerate(successful_clips, 1)] with
    its accumulators [generated_metadata] and [warnings]; [n] is
    [len(successful_clips)].  The pause between two calls is inside the
    [try] of the clip, after its entry or its warning was appended. *)
Fixpoint metadata_loop (w : World) (delay : F64.t) (n i : nat)
    (clips : list ProcessedClip)
    (generated : list ClipMetadata) (warns : list string)
  : list ClipMetadata * list string :=
  match clips with
  | [] => (generated, warns)
  | clip_data :: rest =>
      match clip_metadata w i clip_data with
      | Ok parsed =>
          let (generated, warns) :=
            match parsed with
            | Some m => (generated ++ [m], warns)
            | None =>
                (generated,
                 warns ++
                   ["Failed to generate metadata for clip "
                    +s+ str_of_nat i])
            end in
          let paused :=
            if (i <? n)%nat then sleep (sleep_too_long w) delay
            else Ok tt in
          match paused with
          | Ok _ => metadata_loop w delay n (S i) rest generated warns
          | Raise e =>
              metadata_loop w delay n (S i) rest generated
                (warns ++
                   ["Failed to generate metadata for clip "
                    +s+ str_of_nat i +s+ ": " +s+ e])
          end
      | Raise e =>
          metadata_loop w delay n (S i) rest generated
            (warns ++
               ["Failed to generate metadata for clip " +s+ str_of_nat i
                +s+ ": " +s+ e])
      end
  end.

Definition generate_metadata_node (w : World) (state : PodcastState)
  : PodcastState :=
  let processed := processed_clips state in
  let errs := errors state in
  let warns := warnings state in
  if negb (truthy_list processed) then
    let warns :=
      warns ++ ["No processed clips available for metadata generation"] in
    set_metadata [] (set_warnings warns state)
  else
    let successful_clips := filter success processed in
    if negb (truthy_list successful_clips) then
      let warns :=
        warns ++ ["No successful clips to generate metadata for"] in
      set_metadata [] (set_warnings warns state)
    else
      match bind (from_env (env w))
              (fun processing =>
                 bind (metadata_setup w) (fun _ => Ok processing)) with
      | Ok processing =>
          let (generated, warns) :=
            metadata_loop w (api_rate_limit_delay processing)
              (List.length successful_clips) 1 successful_clips [] warns in
          set_status "metadata_generated"
            (set_warnings warns (set_metadata generated state))
      | Raise e =>
          let error_msg := "Metadata generation failed: " +s+ e in
          set_status "failed" (set_errors (errs ++ [error_msg]) state)
      end.

(* ================================================================= *)
(** ** [agents/podcast_agent.py]: the workflow graph *)

Inductive Node : Type :=
| fetch_transcript
| analyze_content
| select_clips
| download_video
| generate_clips
| generate_metadata.

(** [workflow.add_node(name, function)] *)
Definition node_function (w : World) (n : Node) (state : PodcastState)
  : PodcastState :=
  match n with
  | fetch_transcript => fetch_transcript_node w state
  | analyze_content => analyze_content_node w state
  | select_clips => fst (select_clips_node (env w) state)
  | download_video => download_video_node w state
  | generate_clips => generate_clips_node w state
  | generate_metadata => generate_metadata_node w state
  end.

Definition _should_continue_after_transcript (state : PodcastState)
  : string :=
  if String.eqb (status state) "failed" then "end"
  else if negb (truthy_opt_str (transcript state)) then "end"
  else "analyze".

Definition _should_continue_after_analysis (state : PodcastState)
  : string :=
  if String.eqb (status state) "failed" then "end"
  else if negb (truthy_list (identified_clips state)) then "end"
  else "select".

Definition _should_continue_after_selection (state : PodcastState)
  : string :=
  if String.eqb (status state) "failed" then "end"
  else if negb (truthy_list (selected_clips state)) then "end"
  else "download".

Definition _should_continue_after_download (state : PodcastState)
  : string :=
  if String.eqb (status state) "failed" then "end"
  else if negb (truthy_opt_str (video_path state)) then "end"
  else "generate".

Definition _should_continue_after_generation (state : PodcastState)
  : string :=
  if String.eqb (status state) "failed" then "end"
  else
    let successful_clips := filter success (processed_clips state) in
    if negb (truthy_list successful_clips) then "end"
    else "metadata".

(** The edges added in [_build_graph]: for each node its router and the
    mapping from the router's answer to the next node; [None] is [END]. *)
Definition next_node (n : Node) (state : PodcastState) : option Node :=
  match n with
  | fetch_transcript =>
      let r := _should_continue_after_transcript state in
      if String.eqb r "analyze" then Some analyze_content else None
  | analyze_content =>
      let r := _should_continue_after_analysis state in
      if String.eqb r "select" then Some select_clips else None
  | select_clips =>
      let r := _should_continue_after_selection state in
      if String.eqb r "download" then Some download_video else None
  | download_video =>
      let r := _should_continue_after_download state in
      if String.eqb r "generate" then Some generate_clips else None
  | generate_clips =>
      let r := _should_continue_after_generation state in
      if String.eqb r "metadata" then Some generate_metadata else None
  | generate_metadata => None
  end.

(** Running the graph from node [n]: the executed nodes, each with the
    state it returned.  [fuel] bounds the number of nodes executed. *)
Fixpoint invoke_from (w : World) (fuel : nat) (n : Node)
    (state : PodcastState) : list (Node * PodcastState) :=
  match fuel with
  | O => []
  | S fuel' =>
      let state' := node_function w n state in
      (n, state') ::
      match next_node n state' with
      | Some n' => invoke_from w fuel' n' state'
      | None => []
      end
  end.

(** The graph has six nodes and no cycle. *)
Definition graph_trace (w : World) (state : PodcastState)
  : list (Node * PodcastState) :=
  invoke_from w 6 fetch_transcript state.

(** [self.graph.invoke(initial_state)] *)
Definition graph_invoke (w : World) (state : PodcastState) : PodcastState :=
  last (map snd (graph_trace w state)) state.

Definition initial_state (w : World) (url : string) (cfg : CustomConfig)
  : PodcastState :=
  {| url := url; video_path := None; audio_path := None;
     transcript := None; transcript_segments := [];
     transcript_source := None; identified_clips := [];
     selected_clips := []; processed_clips := []; metadata := [];
     video_title := None; video_duration := None; video_id := None;
     errors := []; warnings := []; config := cfg; status := "starting";
     created_at := Some (now w); completed_at := None;
     video_metadata := None |}.

(** [_print_summary]: what it prints is left out, what it may raise is
    kept.  It formats [video_duration] with [:.1f] and takes [len] of
    [transcript]; either fails on [None].  Everything else it reads is
    a list, a string or a float in every state a node returns. *)
Definition _print_summary (state : PodcastState) : result unit :=
  match video_duration state with
  | None => Raise "unsupported format string passed to NoneType.__format__"
  | Some _ =>
      match transcript state with
      | None => Raise "object of type 'NoneType' has no len()"
      | Some _ => Ok tt
      end
  end.

(** [process_video].  When the summary raises, the [except] branch
    returns [initial_state], the dictionary built before the run: the
    nodes wrote their keys into the state of the graph, not into it, but
    its [errors] and [warnings] are the very list objects the nodes
    appended to, so it holds what they appended. *)
Definition process_video (w : World) (url : string) (cfg : CustomConfig)
  : PodcastState :=
  let initial_state := initial_state w url cfg in
  let final_state := graph_invoke w initial_state in
  let final_state := set_completed_at (Some (now w)) final_state in
  match _print_summary final_state with
  | Ok _ => final_state
  | Raise e =>
      set_completed_at (Some (now w))
        (set_status "failed"
           (set_errors
              (errors final_state ++ ["Workflow execution failed: " +s+ e])
              (set_warnings (warnings final_state) initial_state)))
  end.

(** The states of a run of [process_video], in order: the initial state,
    then the state after each executed node. *)
Definition run_states (w : World) (url : string) (cfg : CustomConfig)
  : list PodcastState :=
  initial_state w url cfg
  :: map snd (graph_trace w (initial_state w url cfg)).

Definition executed_nodes (w : World) (url : string) (cfg : CustomConfig)
  : list Node :=
  map fst (graph_trace w (initial_state w url cfg)).

(* ================================================================= *)
(** * Specification vocabulary *)

(** The duration the code measures: the float difference of the two
    times. *)
Definition duration (clip : VideoSegment) : F64.t :=
  F64.sub (end_time clip) (start_time clip).

(** A clip is within bounds when its duration lies in
    [[min_clip_duration, max_clip_duration]] and its score is at least
    [min_engagement_score].  A duration that is NaN lies in no
    interval. *)
Definition within_bounds (p : ProcessingConfig) (clip : VideoSegment) : Prop :=
  F64.geb_Z (duration clip) (min_clip_duration p) = true
  /\ F64.leb_Z (duration clip) (max_clip_duration p) = true
  /\ min_engagement_score p <= score clip.

(** A clip is out of bounds when its duration is a number below the
    minimum or above the maximum, or its score is below the minimum. *)
Definition out_of_bounds (p : ProcessingConfig) (clip : VideoSegment) : Prop :=
  F64.ltb_Z (duration clip) (min_clip_duration p) = true
  \/ F64.gtb_Z (duration clip) (max_clip_duration p) = true
  \/ score clip < min_engagement_score p.

(** The message the loop prints for a clip it skips: the first failing
    test decides which. *)
Definition rejection_message (p : ProcessingConfig) (clip : VideoSegment)
  : Printed :=
  let duration := F64.sub (end_time clip) (start_time clip) in
  if F64.ltb_Z duration (min_clip_duration p) then
    PrintTooShort (start_time clip) (end_time clip) duration
  else if F64.gtb_Z duration (max_clip_duration p) then
    PrintTooLong (start_time clip) (end_time clip) duration
  else PrintLowScore (start_time clip) (end_time clip) (score clip).

(** Descending order of scores. *)
Definition score_ge (a b : VideoSegment) : Prop := score b <= score a.

(** The clips of one score, in list order. *)
Definition with_score (v : Q) (l : list VideoSegment) : list VideoSegment :=
  filter (fun c => Qeq_bool (score c) v) l.

(** The fields [select_clips_node] never assigns. *)
Definition unchanged_outside_selection (s s' : PodcastState) : Prop :=
  url s' = url s
  /\ video_path s' = video_path s
  /\ audio_path s' = audio_path s
  /\ transcript s' = transcript s
  /\ transcript_segments s' = transcript_segments s
  /\ transcript_source s' = transcript_source s
  /\ identified_clips s' = identified_clips s
  /\ processed_clips s' = processed_clips s
  /\ metadata s' = metadata s
  /\ video_title s' = video_title s
  /\ video_duration s' = video_duration s
  /\ video_id s' = video_id s
  /\ config s' = config s
  /\ created_at s' = created_at s
  /\ completed_at s' = completed_at s
  /\ video_metadata s' = video_metadata s.

(** The three collections of clips held by a state. *)
Definition same_clips (s s' : PodcastState) : Prop :=
  identified_clips s' = identified_clips s
  /\ selected_clips s' = selected_clips s
  /\ processed_clips s' = processed_clips s.

(** A composite made by resizing the source to width [width] and placing
    it at a vertical offset between [y_lo] and [y_hi]. *)
Definition resized_to_width_padded_vertically
    (width : Z) (y_lo y_hi : Q) (c : Clip) : Prop :=
  match c with
  | Composite _ _ new_w _ _ pos_y =>
      new_w = width /\ y_lo <= inject_Z pos_y /\ inject_Z pos_y <= y_hi
  | _ => False
  end.

(** The status a node sets when it produced what the next node needs. *)
Definition stage_status (n : Node) : string :=
  match n with
  | fetch_transcript => "transcript_fetched"
  | analyze_content => "clips_identified"
  | select_clips => "clips_selected"
  | download_video => "video_downloaded"
  | generate_clips => "clips_generated"
  | generate_metadata => "metadata_generated"
  end.

(** What holds of the state when node [n] starts in a run of
    [process_video]: the lists written by [n] and by the nodes after it
    are still empty. *)
Definition entry_invariant (n : Node) (s : PodcastState) : Prop :=
  match n with
  | fetch_transcript | analyze_content =>
      identified_clips s = [] /\ selected_clips s = []
      /\ processed_clips s = []
  | select_clips => selected_clips s = [] /\ processed_clips s = []
  | download_video | generate_clips => processed_clips s = []
  | generate_metadata => True
  end.

(* ================================================================= *)
(** * Sample data *)

Module Sample.

(** An environment in which the three integer variables are set. *)
Definition env_of (max_clips min_d max_d : Z) : Env :=
  {| int_getenv := fun name =>
       if String.eqb name "MAX_CLIPS_PER_VIDEO" then Ok max_clips
       else if String.eqb name "MIN_CLIP_DURATION" then Ok min_d
       else if String.eqb name "MAX_CLIP_DURATION" then Ok max_d
       else Raise "int() argument must be a string or a number";
     float_getenv := fun _ _ => Ok (F64.of_Z 5);
     env_rest := Ok tt |}.

(** A clip from second [s] to second [e] with score [sc]. *)
Definition clip (s e : Z) (sc : Q) (label : string) : VideoSegment :=
  {| start_time := F64.of_Z s; end_time := F64.of_Z e; content := label;
     score := sc; reasoning := "picked by the model";
     segment_type := "insight" |}.

(** A clip whose end time is NaN, as [json.loads] reads the literal
    [NaN] and the [float] field accepts it. *)
Definition nan_end : VideoSegment :=
  {| start_time := F64.of_Z 0; end_time := F64.nan; content := "no end";
     score := 9; reasoning := "picked by the model";
     segment_type := "insight" |}.

Definition too_long : VideoSegment := clip 0 40 8 "too long".
Definition too_short : VideoSegment := clip 50 60 9 "too short".
Definition low_score : VideoSegment := clip 100 130 7 "low score".
Definition valid : VideoSegment := clip 10 35 9 "valid".

Definition first : VideoSegment := clip 200 230 (79 # 10) "index 0".
Definition second : VideoSegment := clip 300 330 9 "index 1".
Definition third : VideoSegment := clip 400 430 9 "index 2".

Definition no_overrides : CustomConfig :=
  {| cc_max_clips_per_video := None; cc_target_clip_duration := None;
     cc_min_clip_duration := None; cc_max_clip_duration := None |}.

(** A state as it is after the analysis stage found [clips]. *)
Definition analysed (clips : list VideoSegment) : PodcastState :=
  {| url := "https://youtu.be/abc"; video_path := None;
     audio_path := None; transcript := Some "some words";
     transcript_segments :=
       [{| ts_start_time := F64.of_Z 0; ts_end_time := F64.of_Z 5;
           ts_text := "some words";
           ts_confidence := Some (F64.of_ratio 95 100) |}];
     transcript_source := Some "youtube_manual";
     identified_clips := clips; selected_clips := [];
     processed_clips := []; metadata := [];
     video_title := Some "A talk"; video_duration := Some (F64.of_Z 600);
     video_id := Some "abc"; errors := []; warnings := [];
     config := no_overrides; status := "clips_identified";
     created_at := Some "2025-01-01T00:00:00"; completed_at := None;
     video_metadata := None |}.

Definition config_25_35 : ProcessingConfig :=
  {| max_clips_per_video := 3; min_clip_duration := 25;
     max_clip_duration := 35; target_clip_duration := 30;
     min_engagement_score := 75 # 10; max_video_duration := 10800;
     api_rate_limit_delay := F64.of_Z 5 |}.

(** A world in which the transcript service fails. *)
Definition no_transcript : World :=
  {| env := env_of 3 25 35;
     extract_video_id_from_url := fun u => u;
     get_video_metadata := fun _ =>
       {| vi_title := Some "A talk"; vi_length := Some 600%Z |};
     fetch_youtube_transcript := fun _ =>
       Raise "No transcript found for video abc";
     analyze := fun _ => Ok [valid];
     download := fun _ _ => (None, Raise "unreachable host");
     path_exists := fun _ => true;
     open_video := fun _ => Ok tt;
     render_clip := fun _ _ _ => Raise "no encoder";
     failure_time := fun _ => 1;
     sleep_too_long := fun _ => false;
     metadata_setup := Ok tt;
     clip_metadata := fun _ _ => Ok None;
     now := "2025-01-01T00:00:00" |}.

(** A world in which everything up to the download works and the
    download fails. *)
Definition no_download : World :=
  {| env := env_of 3 25 35;
     extract_video_id_from_url := fun u => u;
     get_video_metadata := fun _ =>
       {| vi_title := Some "A talk"; vi_length := Some 600%Z |};
     fetch_youtube_transcript := fun _ =>
       Ok ("some words",
           [{| ts_start_time := F64.of_Z 0; ts_end_time := F64.of_Z 5;
               ts_text := "some words";
               ts_confidence := Some (F64.of_ratio 95 100) |}],
           "youtube_manual");
     analyze := fun _ => Ok [valid];
     download := fun _ _ => (None, Raise "unreachable host");
     path_exists := fun _ => true;
     open_video := fun _ => Ok tt;
     render_clip := fun _ _ _ => Raise "no encoder";
     failure_time := fun _ => 1;
     sleep_too_long := fun _ => false;
     metadata_setup := Ok tt;
     clip_metadata := fun _ _ => Ok None;
     now := "2025-01-01T00:00:00" |}.

End Sample.

(** The number of nodes from [n] to the end of the chain, [n] included. *)
Definition remaining (n : Node) : nat :=
  match n with
  | fetch_transcript => 6
  | analyze_content => 5
  | select_clips => 4
  | download_video => 3
  | generate_clips => 2
  | generate_metadata => 1
  end.

(* ================================================================= *)
(** * Vocabulary for the run as a whole *)

(** The nodes in the order the edges of [_build_graph] connect them. *)
Definition chain : list Node :=
  [fetch_transcript; analyze_content; select_clips; download_video;
   generate_clips; generate_metadata].

(** The node an edge can lead to. *)
Definition successor (n : Node) : option Node :=
  match n with
  | fetch_transcript => Some analyze_content
  | analyze_content => Some select_clips
  | select_clips => Some download_video
  | download_video => Some generate_clips
  | generate_clips => Some generate_metadata
  | generate_metadata => None
  end.

(** The nodes from [n] to the end of the chain. *)
Definition chain_from (n : Node) : list Node :=
  skipn (6 - remaining n) chain.

(** The values [status] can have when node [n] returns in a run of the
    graph. *)
Definition statuses_after (n : Node) : list string :=
  match n with
  | fetch_transcript => ["transcript_fetched"; "failed"]
  | analyze_content =>
      ["clips_identified"; "analysis_failed"; "transcript_fetched"]
  | select_clips =>
      ["clips_selected"; "no_clips_passed_validation"; "selection_failed"]
  | download_video => ["video_downloaded"; "failed"]
  | generate_clips =>
      ["clips_generated"; "clip_generation_failed"; "failed";
       "video_downloaded"]
  | generate_metadata => ["metadata_generated"; "failed"]
  end.

(** What the routers have established when node [n] starts. *)
Definition entry_guarantee (n : Node) (s : PodcastState) : Prop :=
  match n with
  | fetch_transcript => True
  | analyze_content =>
      status s = "transcript_fetched"
      /\ truthy_opt_str (transcript s) = true
  | select_clips =>
      truthy_opt_str (transcript s) = true
      /\ identified_clips s <> []
  | download_video =>
      truthy_opt_str (transcript s) = true
      /\ identified_clips s <> []
      /\ selected_clips s <> []
  | generate_clips =>
      truthy_opt_str (transcript s) = true
      /\ identified_clips s <> []
      /\ selected_clips s <> []
      /\ status s = "video_downloaded"
      /\ truthy_opt_str (video_path s) = true
  | generate_metadata =>
      truthy_opt_str (transcript s) = true
      /\ identified_clips s <> []
      /\ selected_clips s <> []
      /\ truthy_opt_str (video_path s) = true
      /\ filter success (processed_clips s) <> []
  end.

(** What a state holds once the whole chain has run. *)
Definition complete_result (s : PodcastState) : Prop :=
  truthy_opt_str (transcript s) = true
  /\ identified_clips s <> []
  /\ selected_clips s <> []
  /\ truthy_opt_str (video_path s) = true
  /\ filter success (processed_clips s) <> [].

(** [s'] continues [s]: the two logs only grew, and the input entries
    and the creation stamp are the same. *)
Definition continues (s s' : PodcastState) : Prop :=
  (exists added, errors s' = errors s ++ added)
  /\ (exists added, warnings s' = warnings s ++ added)
  /\ url s' = url s
  /\ config s' = config s
  /\ audio_path s' = audio_path s
  /\ (created_at s <> None -> created_at s' = created_at s).

(** Consecutive elements of [s :: l] are related by [R]. *)
Fixpoint linked {A} (R : A -> A -> Prop) (s : A) (l : list A) : Prop :=
  match l with
  | [] => True
  | x :: rest => R s x /\ linked R x rest
  end.

(* ================================================================= *)
(** * More sample data *)

Module Demo.

(** A world in which every collaborator answers. *)
Definition all_ok : World :=
  {| env := Sample.env_of 3 25 35;
     extract_video_id_from_url := fun u => u;
     get_video_metadata := fun _ =>
       {| vi_title := Some "A talk"; vi_length := Some 600%Z |};
     fetch_youtube_transcript := fun _ =>
       Ok ("some words",
           [{| ts_start_time := F64.of_Z 0; ts_end_time := F64.of_Z 5;
               ts_text := "some words";
               ts_confidence := Some (F64.of_ratio 95 100) |}],
           "youtube_manual");
     analyze := fun _ => Ok [Sample.too_long; Sample.valid];
     download := fun _ v =>
       (Some "Video is 4.0 hours long",
        Ok {| dl_video_path := "temp/" +s+ v +s+ ".mp4";
              dl_title := "A talk"; dl_duration := F64.of_Z 14400;
              dl_metadata :=
                {| vm_uploader := "someone"; vm_file_size_mb := 12;
                   vm_resolution := "1920x1080" |} |});
     path_exists := fun _ => true;
     open_video := fun _ => Ok tt;
     render_clip := fun _ _ name =>
       Ok {| r_clip_path := "outputs/clips/" +s+ name;
             r_generation_time := 3; r_file_size_mb := 2;
             r_thumbnail_path := "outputs/thumbnails/t.jpg" |};
     failure_time := fun _ => 1;
     sleep_too_long := fun _ => false;
     metadata_setup := Ok tt;
     clip_metadata := fun _ _ => Ok None;
     now := "2025-01-01T00:00:00" |}.

(** The same world with an encoder that fails on every second clip. *)
Definition flaky_encoder : World :=
  {| env := Sample.env_of 3 25 35;
     extract_video_id_from_url := fun u => u;
     get_video_metadata := fun _ => empty_info;
     fetch_youtube_transcript := fetch_youtube_transcript all_ok;
     analyze := fun _ => Ok [Sample.first; Sample.second; Sample.third];
     download := download all_ok;
     path_exists := fun _ => true;
     open_video := fun _ => Ok tt;
     render_clip := fun i c name =>
       if Nat.even i then Raise "encoder crashed"
       else render_clip all_ok i c name;
     failure_time := fun _ => 1;
     sleep_too_long := fun _ => false;
     metadata_setup := Ok tt;
     clip_metadata := fun i _ =>
       Ok (Some {| cm_title := "Title"; cm_description := "Text";
                   cm_hashtags := ["podcast"]; cm_thumbnail_time := 15;
                   cm_duration := 30 |});
     now := "2025-01-01T00:00:00" |}.


(** A clip whose segment type, as returned by the model, is not a plain
    word. *)
Definition odd_type : VideoSegment :=
  {| start_time := F64.of_Z 10; end_time := F64.of_Z 40; content := "words";
     score := 9;
     reasoning := "picked by the model";
     segment_type := "insight/story: part 1?" |}.


(** [all_ok] with another answer of the analysis. *)
Definition with_analysis (a : PodcastState -> result (list VideoSegment))
  : World :=
  {| env := env all_ok;
     extract_video_id_from_url := extract_video_id_from_url all_ok;
     get_video_metadata := get_video_metadata all_ok;
     fetch_youtube_transcript := fetch_youtube_transcript all_ok;
     analyze := a;
     download := download all_ok;
     path_exists := path_exists all_ok;
     open_video := open_video all_ok;
     render_clip := render_clip all_ok;
     failure_time := failure_time all_ok;
     sleep_too_long := sleep_too_long all_ok;
     metadata_setup := metadata_setup all_ok;
     clip_metadata := clip_metadata all_ok;
     now := now all_ok |}.

Definition no_api_key : World :=
  with_analysis (fun _ => Raise "Google API key not configured").

Definition only_bad_clips : World :=
  with_analysis (fun _ => Ok [Sample.too_long; Sample.too_short]).

Definition one_segment : list TranscriptSegment :=
  [{| ts_start_time := F64.of_Z 0; ts_end_time := F64.of_Z 5;
      ts_text := "some words";
      ts_confidence := Some (F64.of_ratio 95 100) |}].

End Demo.

(* ================================================================= *)
(** * More of the sources *)

(** ** [utils/video_utils.py]: [format_duration] *)

(** [f"{n:02d}"] for any int: a sign, then the digits, padded with
    zeros to width 2. *)
Definition format_02d (n : Z) : string :=
  if (0 <=? n)%Z then two_digits (Z.to_nat n)
  else "-" +s+ str_of_nat (Z.to_nat (- n)).

(** [//] and [%] of Python round toward minus infinity for a positive
    divisor, as [Z.div] and [Z.modulo] do. *)
Definition format_duration (seconds : Z) : string :=
  let hours := (seconds / 3600)%Z in
  let minutes := ((seconds mod 3600) / 60)%Z in
  let seconds := (seconds mod 60)%Z in
  if (0 <? hours)%Z then
    format_02d hours +s+ ":" +s+ format_02d minutes +s+ ":"
    +s+ format_02d seconds
  else
    format_02d minutes +s+ ":" +s+ format_02d seconds.

(* ================================================================= *)
(** ** Python strings and dictionaries *)

(** [str.isspace] on the characters below 256. *)
Definition py_isspace (c : ascii) : bool :=
  let n := nat_of_ascii c in
  ((9 <=? n) && (n <=? 13) || (28 <=? n) && (n <=? 32)
   || (n =? 133) || (n =? 160))%nat.

Fixpoint lstrip_space (l : list ascii) : list ascii :=
  match l with
  | [] => []
  | c :: rest => if py_isspace c then lstrip_space rest else l
  end.

(** [s.strip()] *)
Definition py_strip (s : string) : string :=
  string_of_list_ascii
    (rev (lstrip_space (rev (lstrip_space (list_ascii_of_string s))))).

(** [sep.join(parts)] *)
Fixpoint py_join (sep : string) (parts : list string) : string :=
  match parts with
  | [] => ""
  | [p] => p
  | p :: rest => p +s+ sep +s+ py_join sep rest
  end.

(** The values found in the dictionaries of transcript segments. *)
Inductive PyVal : Type :=
| PyNone
| PyInt (z : Z)
| PyFloat (f : F64.t)
| PyStr (s : string).

Definition PyDict : Type := list (string * PyVal).

(** [d.get(key, default)] *)
Fixpoint dict_get (d : PyDict) (key : string) (default : PyVal) : PyVal :=
  match d with
  | [] => default
  | (k, v) :: rest => if String.eqb k key then v else dict_get rest key default
  end.

(** [a + b]: ints add exactly, floats with rounding, an int meeting a
    float is converted first, strings concatenate; anything else is a
    [TypeError]. *)
Definition py_add (a b : PyVal) : result PyVal :=
  match a, b with
  | PyInt x, PyInt y => Ok (PyInt (x + y))
  | PyFloat x, PyFloat y => Ok (PyFloat (F64.add x y))
  | PyInt x, PyFloat y =>
      bind (F64.float_of_int x) (fun x' => Ok (PyFloat (F64.add x' y)))
  | PyFloat x, PyInt y =>
      bind (F64.float_of_int y) (fun y' => Ok (PyFloat (F64.add x y')))
  | PyStr x, PyStr y => Ok (PyStr (x +s+ y))
  | _, _ => Raise "TypeError"
  end.

(** [v >= x] and [v <= x] for a float [x]: a number compares, anything
    else is a [TypeError]. *)
Definition py_ge_float (v : PyVal) (x : F64.t) : result bool :=
  match v with
  | PyInt z => Ok (F64.leb_Z x z)
  | PyFloat f => Ok (F64.geb f x)
  | _ => Raise "TypeError"
  end.

Definition py_le_float (v : PyVal) (x : F64.t) : result bool :=
  match v with
  | PyInt z => Ok (F64.geb_Z x z)
  | PyFloat f => Ok (F64.leb f x)
  | _ => Raise "TypeError"
  end.

(** [TranscriptSegment.dict()]: the shape in which
    [fetch_transcript_node] stores the segments. *)
Definition TranscriptSegment_dict (t : TranscriptSegment) : PyDict :=
  [("start_time", PyFloat (ts_start_time t));
   ("end_time", PyFloat (ts_end_time t));
   ("text", PyStr (ts_text t));
   ("confidence",
    match ts_confidence t with Some c => PyFloat c | None => PyNone end)].

(* ================================================================= *)
(** ** [nodes/analysis_node.py]: the transcript of a time range *)

(** The test of both loops: [seg_start = segment.get("start", 0)],
    [seg_end = seg_start + segment.get("duration", 0)], then
    [seg_end >= start_time and seg_start <= end_time]; the second
    comparison is only made when the first holds. *)
Definition segment_overlaps (segment : PyDict) (start_time end_time : F64.t)
  : result bool :=
  let seg_start := dict_get segment "start" (PyInt 0) in
  bind (py_add seg_start (dict_get segment "duration" (PyInt 0)))
    (fun seg_end =>
  bind (py_ge_float seg_end start_time) (fun reaches =>
  if reaches then py_le_float seg_start end_time else Ok false)).

Fixpoint get_segment_range (transcript_segments : list PyDict)
    (start_time end_time : F64.t) : result (list PyDict) :=
  match transcript_segments with
  | [] => Ok []
  | segment :: rest =>
      bind (segment_overlaps segment start_time end_time) (fun hit =>
      bind (get_segment_range rest start_time end_time) (fun more =>
      Ok (if hit then segment :: more else more)))
  end.

(** The loop of [extract_segment_text]: the values appended to
    [relevant_text]. *)
Fixpoint relevant_text (transcript_segments : list PyDict)
    (start_time end_time : F64.t) : result (list PyVal) :=
  match transcript_segments with
  | [] => Ok []
  | segment :: rest =>
      bind (segment_overlaps segment start_time end_time) (fun hit =>
      bind (relevant_text rest start_time end_time) (fun more =>
      Ok (if hit then dict_get segment "text" (PyStr "") :: more
          else more)))
  end.

(** [" ".join] raises on an item that is not a string. *)
Fixpoint all_strings (l : list PyVal) : result (list string) :=
  match l with
  | [] => Ok []
  | PyStr s :: rest => bind (all_strings rest) (fun r => Ok (s :: r))
  | _ :: _ => Raise "TypeError"
  end.

Definition extract_segment_text (transcript_segments : list PyDict)
    (start_time end_time : F64.t) : result string :=
  bind (relevant_text transcript_segments start_time end_time) (fun texts =>
  bind (all_strings texts) (fun parts =>
  Ok (py_strip (py_join " " parts)))).

(* ================================================================= *)
(** ** [backend/main.py]: the request and the environment it sets *)

Record VideoRequest : Type := {
  youtube_url : string;
  num_clips : Z;
  clip_duration : Z
}.

Definition validate_num_clips (v : Z) : result Z :=
  if ((v <? 1) || (10 <? v))%Z
  then Raise "num_clips must be between 1 and 10"
  else Ok v.

Definition validate_clip_duration (v : Z) : result Z :=
  if ((v <? 15) || (120 <? v))%Z
  then Raise "clip_duration must be between 15 and 120 seconds"
  else Ok v.

(** [VideoRequest(youtube_url=..., num_clips=..., clip_duration=...)] *)
Definition VideoRequest_init (u : string) (n d : Z) : result VideoRequest :=
  bind (validate_num_clips n) (fun n' =>
  bind (validate_clip_duration d) (fun d' =>
  Ok {| youtube_url := u; num_clips := n'; clip_duration := d' |})).

(** [os.environ[name] = str(v)] as seen by a later
    [int(os.getenv(name))]. *)
Definition setenv_int (name : string) (v : Z) (e : Env) : Env :=
  {| int_getenv := fun n =>
       if String.eqb n name then Ok v else int_getenv e n;
     float_getenv := float_getenv e;
     env_rest := env_rest e |}.

(** [os.environ[name] = text] for the text of a float [v], as seen by a
    later [float(os.getenv(name, default))]. *)
Definition setenv_float (name : string) (v : F64.t) (e : Env) : Env :=
  {| int_getenv := int_getenv e;
     float_getenv := fun n default =>
       if String.eqb n name then Ok v else float_getenv e n default;
     env_rest := env_rest e |}.

(** The assignments at the start of [process_video_background]. *)
Definition background_environment (num_clips clip_duration : Z) (e : Env)
  : Env :=
  setenv_float "API_RATE_LIMIT_DELAY" (F64.of_Z 5)
    (setenv_int "MAX_CLIP_DURATION" (clip_duration + 15)
       (setenv_int "MIN_CLIP_DURATION" (Z.max 25 (clip_duration - 15))
          (setenv_int "TARGET_CLIP_DURATION" clip_duration
             (setenv_int "MAX_CLIPS_PER_VIDEO" num_clips e)))).

(* ================================================================= *)
(** ** [cli.py]: how the command reads the result *)

Inductive CliReport : Type :=
| ReportSuccess (n : nat)
| ReportNoClips
| ReportFailed (status_shown : string) (errors_shown : list string).

(** The [if]/[elif]/[else] on [result["status"]] after
    [agent.process_video]. *)
Definition cli_report (result : PodcastState) : CliReport :=
  if String.eqb (status result) "clips_selected" then
    ReportSuccess (List.length (selected_clips result))
  else if String.eqb (status result) "no_clips_found"
          || String.eqb (status result) "no_clips_selected" then
    ReportNoClips
  else
    ReportFailed (status result) (errors result).

(* ================================================================= *)
(** * Vocabulary for the helpers *)

(** A name that does not begin (end) with a space or a dot. *)
Definition starts_clean {char} `{Alphabet char} (l : list char) : Prop :=
  match l with
  | c :: _ => is_strip_char c = false
  | [] => True
  end.

Definition ends_clean {char} `{Alphabet char} (l : list char) : Prop :=
  starts_clean (rev l).

(** The code points of the nine characters a file name must not
    contain: double quote, star, slash, colon, less-than, greater-than,
    question mark, backslash, bar. *)
Definition forbidden_codes : list N :=
  [34; 42; 47; 58; 60; 62; 63; 92; 124]%N.

(** A character with each forbidden one replaced by an underscore. *)
Definition underscored {char} `{Alphabet char} (c : char) : char :=
  if existsb (N.eqb (ord c)) forbidden_codes then underscore else c.

(** A string in three parts: spaces and dots, a middle that neither
    begins nor ends with one of them, spaces and dots. *)
Definition trimmed_to {char} `{Alphabet char}
    (filename middle : list char) : Prop :=
  exists before after,
    filename = before ++ middle ++ after
    /\ Forall (fun c => is_strip_char c = true) before
    /\ Forall (fun c => is_strip_char c = true) after
    /\ starts_clean middle
    /\ ends_clean middle.

(** The two decimal digits of a number below 100. *)
Definition two_chars (n : nat) : string :=
  String (ascii_of_nat (48 + n / 10))
    (String (ascii_of_nat (48 + n mod 10)) "").

Definition read_two (a b : ascii) : Z :=
  Z.of_nat ((nat_of_ascii a - 48) * 10 + (nat_of_ascii b - 48)).

(** Reading back [MM:SS] and [HH:MM:SS]. *)
Definition parse_duration (s : string) : option Z :=
  match list_ascii_of_string s with
  | [a; b; c1; c; d] =>
      if Ascii.eqb c1 ":"%char
      then Some (60 * read_two a b + read_two c d)%Z
      else None
  | [a; b; c1; c; d; c2; e; f] =>
      if Ascii.eqb c1 ":"%char && Ascii.eqb c2 ":"%char
      then Some (3600 * read_two a b + 60 * read_two c d + read_two e f)%Z
      else None
  | _ => None
  end.

(** A dictionary as the transcript service itself would give it. *)
Definition raw_segment (start duration : F64.t) (text : string) : PyDict :=
  [("text", PyStr text); ("start", PyFloat start);
   ("duration", PyFloat duration)].

(** Closed-interval overlap of a raw segment with a time range, the end
    of the segment being the float sum of its start and duration. *)
Definition overlaps_range (start_time end_time : F64.t)
    (seg : F64.t * F64.t * string) : bool :=
  let '(start, duration, _) := seg in
  F64.geb (F64.add start duration) start_time && F64.leb start end_time.

Definition raw_of (seg : F64.t * F64.t * string) : PyDict :=
  let '(start, duration, text) := seg in raw_segment start duration text.

Definition text_of (seg : F64.t * F64.t * string) : string :=
  let '(_, _, text) := seg in text.

(** A value that adds and compares as a number. *)
Definition is_number (v : PyVal) : bool :=
  match v with PyInt _ | PyFloat _ => true | _ => false end.

(* ================================================================= *)
(** ** [utils/transcript.py] and the id of a video *)

Module Url.

(** The class [[^&\n?#]] of both patterns. *)
Definition id_char (c : ascii) : bool :=
  negb (Ascii.eqb c "&"%char || Ascii.eqb c (ascii_of_nat 10)
        || Ascii.eqb c "?"%char || Ascii.eqb c "#"%char).

Fixpoint take_id (l : list ascii) : list ascii :=
  match l with
  | c :: rest => if id_char c then c :: take_id rest else []
  | [] => []
  end.

(** [l] starts with [p]: what follows [p]. *)
Fixpoint strip_prefix (p l : list ascii) : option (list ascii) :=
  match p, l with
  | [], _ => Some l
  | a :: p', b :: l' => if Ascii.eqb a b then strip_prefix p' l' else None
  | _ :: _, [] => None
  end.

(** The three alternatives of the first pattern, in order. *)
Definition literals : list (list ascii) :=
  [list_ascii_of_string "youtube.com/watch?v=";
   list_ascii_of_string "youtu.be/";
   list_ascii_of_string "youtube.com/embed/"].

(** The group [([^&\n?#]+)] after a literal: greedy, at least one
    character. *)
Definition group_after (rest : list ascii) : option (list ascii) :=
  match take_id rest with
  | [] => None
  | g => Some g
  end.

(** A match of the first pattern starting exactly here. *)
Fixpoint match_here (alts : list (list ascii)) (l : list ascii)
  : option (list ascii) :=
  match alts with
  | [] => None
  | p :: more =>
      match strip_prefix p l with
      | Some rest =>
          match group_after rest with
          | Some g => Some g
          | None => match_here more l
          end
      | None => match_here more l
      end
  end.

(** [re.search]: the leftmost start position that matches. *)
Fixpoint search (here : list ascii -> option (list ascii)) (l : list ascii)
  : option (list ascii) :=
  match here l with
  | Some g => Some g
  | None =>
      match l with
      | [] => None
      | _ :: rest => search here rest
      end
  end.

(** After [youtube\.com/watch\?]: the greedy [.*] runs to the end of the
    line and gives back characters until [v=] and the group match, so
    the last such place on the line wins. *)
Fixpoint last_v (l : list ascii) : option (list ascii) :=
  match l with
  | [] => None
  | c :: rest =>
      if Ascii.eqb c (ascii_of_nat 10) then None
      else
        match last_v rest with
        | Some g => Some g
        | None =>
            match strip_prefix (list_ascii_of_string "v=") l with
            | Some after => group_after after
            | None => None
            end
        end
  end.

Definition match_here2 (l : list ascii) : option (list ascii) :=
  match strip_prefix (list_ascii_of_string "youtube.com/watch?") l with
  | Some rest => last_v rest
  | None => None
  end.

(** [extract_video_id_from_url] of [video_utils.py]; [extract_video_id]
    of [transcript.py] is the same function. *)
Definition extract_video_id_from_url (url : string) : string :=
  let l := list_ascii_of_string url in
  match search (match_here literals) l with
  | Some g => string_of_list_ascii g
  | None =>
      match search match_here2 l with
      | Some g => string_of_list_ascii g
      | None => url
      end
  end.

End Url.

Module Transcript.

Record Item : Type := {
  item_start : F64.t;
  item_duration : F64.t;
  item_text : string
}.

(** The transcript the service offers for the video, if any: its source
    tag ("youtube_manual" or "youtube_auto") and the outcome of
    [transcript.fetch()].  [listing] is the outcome of [api.list] and of
    the search for an English transcript. *)
Definition Offer : Type := option (string * result (list Item)).

(** The body of the [try] block of [fetch_youtube_transcript], from the
    test [transcript is None] on. *)
Definition fetch_body (listing : result Offer)
  : result (string * list TranscriptSegment * string) :=
  bind listing (fun offer =>
  match offer with
  | None => Raise "No English transcript available for this video"
  | Some (source, fetched) =>
      bind fetched (fun transcript_data =>
      if negb (truthy_list transcript_data) then
        Raise "Transcript data is empty"
      else
        let segments :=
          map (fun item =>
                 {| ts_start_time := item_start item;
                    ts_end_time :=
                      F64.add (item_start item) (item_duration item);
                    ts_text := py_strip (item_text item);
                    ts_confidence := Some (F64.of_ratio 95 100) |})
              transcript_data in
        let full_text_parts :=
          map (fun item => py_strip (item_text item)) transcript_data in
        let full_transcript := py_join " " full_text_parts in
        if (String.length (py_strip full_transcript) <? 50)%nat then
          Raise "Transcript is too short or empty"
        else Ok (full_transcript, segments, source))
  end).

(** [fetch_youtube_transcript]: any exception is raised again with the
    video id in front. *)
Definition fetch_youtube_transcript (url : string) (listing : result Offer)
  : result (string * list TranscriptSegment * string) :=
  let video_id := Url.extract_video_id_from_url url in
  match fetch_body listing with
  | Ok r => Ok r
  | Raise e =>
      Raise ("No transcript found for video " +s+ video_id +s+ ": " +s+ e)
  end.

End Transcript.

(** A transcript of two items as the service returns it, and the state
    holding what [fetch_youtube_transcript] makes of it. *)
Module Fetched.

Definition items : list Transcript.Item :=
  [{| Transcript.item_start := F64.of_Z 0;
      Transcript.item_duration := F64.of_Z 4;
      Transcript.item_text := "  welcome to the show, today we talk about " |};
   {| Transcript.item_start := F64.of_Z 4;
      Transcript.item_duration := F64.of_Z 6;
      Transcript.item_text := "how to verify a program against its text" |}].

Definition listing : result Transcript.Offer :=
  Ok (Some ("youtube_manual", Ok items)).

Definition url : string := "https://youtu.be/abc123?t=4".

Definition full : string :=
  "welcome to the show, today we talk about how to verify a program against its text".

Definition segments : list TranscriptSegment :=
  [{| ts_start_time := F64.of_Z 0; ts_end_time := F64.of_Z 4;
      ts_text := "welcome to the show, today we talk about";
      ts_confidence := Some (F64.of_ratio 95 100) |};
   {| ts_start_time := F64.of_Z 4; ts_end_time := F64.of_Z 10;
      ts_text := "how to verify a program against its text";
      ts_confidence := Some (F64.of_ratio 95 100) |}].

Definition state : PodcastState :=
  set_transcript_segments segments
    (set_transcript (Some full)
       (initial_state Demo.all_ok url Sample.no_overrides)).

End Fetched.

(* ================================================================= *)
(** * Properties *)

(** Reading an entry of a state after assignments. *)
Ltac state_simpl :=
  cbn [url video_path audio_path transcript transcript_segments
       transcript_source identified_clips selected_clips processed_clips
       metadata video_title video_duration video_id errors warnings config
       status created_at completed_at video_metadata set_video_path
       set_transcript set_transcript_segments set_transcript_source
       set_identified_clips set_selected_clips set_processed_clips
       set_metadata set_video_title set_video_duration set_video_id
       set_errors set_warnings set_status set_created_at set_completed_at
       set_video_metadata fst snd].

(** ** Comparisons and slices *)

Lemma Qltb_true (x y : Q) : Qltb x y = true <-> x < y.
Proof.
  unfold Qltb. rewrite negb_true_iff. split; intro H.
  - apply Qnot_le_lt. intro Hle. apply Qle_bool_iff in Hle. congruence.
  - destruct (Qle_bool y x) eqn:E; [|reflexivity].
    apply Qle_bool_iff in E. exfalso. exact (Qlt_not_le _ _ H E).
Qed.

Lemma Qltb_false (x y : Q) : Qltb x y = false <-> y <= x.
Proof.
  unfold Qltb. rewrite negb_false_iff. apply Qle_bool_iff.
Qed.

Lemma slice_to_nonneg {A} (l : list A) (k : Z) :
  (0 <= k)%Z -> slice_to l k = firstn (Nat.min (Z.to_nat k) (List.length l)) l.
Proof.
  intro Hk. unfold slice_to.
  destruct (0 <=? k)%Z eqn:E; [|apply Z.leb_gt in E; lia].
  destruct (Nat.le_ge_cases (Z.to_nat k) (List.length l)) as [H|H].
  - now rewrite Nat.min_l.
  - rewrite Nat.min_r by exact H.
    rewrite firstn_all2 by exact H. now rewrite firstn_all.
Qed.

Lemma slice_to_prefix {A} (l : list A) (k : Z) :
  exists rest, l = slice_to l k ++ rest.
Proof.
  unfold slice_to. destruct (0 <=? k)%Z.
  - exists (skipn (Z.to_nat k) l). symmetry. apply firstn_skipn.
  - exists (skipn (Z.to_nat (Z.of_nat (List.length l) + k)) l).
    symmetry. apply firstn_skipn.
Qed.

Lemma slice_to_incl {A} (l : list A) (k : Z) (x : A) :
  In x (slice_to l k) -> In x l.
Proof.
  destruct (slice_to_prefix l k) as [rest E]. intro H.
  rewrite E. apply in_or_app. now left.
Qed.

(* ----------------------------------------------------------------- *)
(** ** The validation loop *)

(** NaN is the one float that compares with no int. *)
Lemma compare_Z_nan (x : F64.t) (z : Z) :
  F64.compare_Z x z = None <-> F64.is_nan x = true.
Proof.
  destruct x as [s|s| |s m e]; cbn; split; intro H;
    try discriminate H; try reflexivity.
Qed.

Lemma ltb_Z_false (x : F64.t) (z : Z) :
  F64.ltb_Z x z = false <-> F64.geb_Z x z = true \/ F64.is_nan x = true.
Proof.
  unfold F64.ltb_Z, F64.geb_Z.
  destruct (F64.compare_Z x z) as [[]|] eqn:E; split; intro H;
    try discriminate H; try reflexivity; try (now left).
  - destruct H as [H|H]; [discriminate H|].
    apply (compare_Z_nan x z) in H. congruence.
  - right. now apply (compare_Z_nan x z).
Qed.

Lemma gtb_Z_false (x : F64.t) (z : Z) :
  F64.gtb_Z x z = false <-> F64.leb_Z x z = true \/ F64.is_nan x = true.
Proof.
  unfold F64.gtb_Z, F64.leb_Z.
  destruct (F64.compare_Z x z) as [[]|] eqn:E; split; intro H;
    try discriminate H; try reflexivity; try (now left).
  - destruct H as [H|H]; [discriminate H|].
    apply (compare_Z_nan x z) in H. congruence.
  - right. now apply (compare_Z_nan x z).
Qed.

Lemma geb_Z_not_nan (x : F64.t) (z : Z) :
  F64.geb_Z x z = true -> F64.is_nan x = false.
Proof. destruct x; [reflexivity|reflexivity|discriminate|reflexivity]. Qed.

(** The loop keeps a clip exactly when none of its three tests
    succeeds. *)
Lemma passes_not_out_of_bounds (p : ProcessingConfig) (clip : VideoSegment) :
  passes p clip = true <-> ~ out_of_bounds p clip.
Proof.
  unfold passes, out_of_bounds, duration.
  rewrite !andb_true_iff, !negb_true_iff, Qltb_false.
  destruct (F64.ltb_Z _ _); destruct (F64.gtb_Z _ _); split;
    try (intros [[H1 H2] H3]; discriminate);
    try (intro H; exfalso; apply H; tauto).
  - intros [_ H3] [H|[H|H]]; try discriminate H.
    exact (Qlt_not_le _ _ H H3).
  - intro H. split; [split; reflexivity|].
    apply Qnot_lt_le. intro Hlt. apply H. tauto.
Qed.

(** A clip within bounds is kept; a kept clip is within bounds unless
    its duration is NaN. *)
Lemma passes_within_bounds (p : ProcessingConfig) (clip : VideoSegment) :
  within_bounds p clip
  <-> passes p clip = true /\ F64.is_nan (duration clip) = false.
Proof.
  unfold passes, within_bounds, duration.
  rewrite !andb_true_iff, !negb_true_iff, Qltb_false.
  rewrite ltb_Z_false, gtb_Z_false. split.
  - intros [H1 [H2 H3]]. split; [tauto|]. exact (geb_Z_not_nan _ _ H1).
  - intros [[[H1 H2] H3] Hn].
    destruct H1 as [H1|H1]; [|congruence].
    destruct H2 as [H2|H2]; [|congruence]. tauto.
Qed.

(** A clip whose duration is NaN fails neither duration test: it is
    kept whenever its score is high enough. *)
Lemma nan_duration_passes (p : ProcessingConfig) (clip : VideoSegment) :
  F64.is_nan (duration clip) = true ->
  min_engagement_score p <= score clip ->
  passes p clip = true.
Proof.
  unfold passes, duration. intros Hn Hs.
  destruct (F64.sub (end_time clip) (start_time clip)); try discriminate Hn.
  cbn [F64.ltb_Z F64.gtb_Z F64.compare_Z negb andb].
  apply negb_true_iff. now apply Qltb_false.
Qed.

(** One turn of the loop: keep the clip, or print why it is skipped. *)
Lemma validation_loop_step (p : ProcessingConfig) (clip : VideoSegment)
    (rest validated : list VideoSegment) (out : list Printed) :
  validation_loop p (clip :: rest) validated out
  = if passes p clip
    then validation_loop p rest (validated ++ [clip]) out
    else validation_loop p rest validated (out ++ [rejection_message p clip]).
Proof.
  cbn [validation_loop]. unfold passes, rejection_message. cbv zeta.
  destruct (F64.ltb_Z (F64.sub (end_time clip) (start_time clip))
              (min_clip_duration p)); [reflexivity|].
  destruct (F64.gtb_Z (F64.sub (end_time clip) (start_time clip))
              (max_clip_duration p)); [reflexivity|].
  destruct (Qltb (score clip) (min_engagement_score p)); reflexivity.
Qed.

Lemma validation_loop_survivors (p : ProcessingConfig) :
  forall clips validated out,
    fst (validation_loop p clips validated out)
    = validated ++ filter (passes p) clips.
Proof.
  induction clips as [|clip rest IH]; intros validated out.
  - simpl. now rewrite app_nil_r.
  - rewrite validation_loop_step. cbn [filter].
    destruct (passes p clip); rewrite IH; [|reflexivity].
    now rewrite <- app_assoc.
Qed.

Lemma validation_loop_printed (p : ProcessingConfig) :
  forall clips validated out,
    snd (validation_loop p clips validated out)
    = out ++ map (rejection_message p)
               (filter (fun c => negb (passes p c)) clips).
Proof.
  induction clips as [|clip rest IH]; intros validated out.
  - simpl. now rewrite app_nil_r.
  - rewrite validation_loop_step. cbn [filter].
    destruct (passes p clip); cbn [negb]; rewrite IH; [reflexivity|].
    cbn [map]. now rewrite <- app_assoc.
Qed.

(** What the validation loop does guarantee: a clip it keeps failed
    none of the three tests, so it is within bounds unless its duration
    is NaN; and a clip that is out of bounds is not kept. *)
Lemma validated_clips_within_bounds :
  forall (p : ProcessingConfig) (clips : list VideoSegment)
         (out : list Printed),
    let validated_clips := fst (validation_loop p clips [] out) in
    (forall clip, In clip validated_clips ->
                  ~ out_of_bounds p clip
                  /\ (F64.is_nan (duration clip) = false ->
                      within_bounds p clip))
    /\ (forall clip, out_of_bounds p clip -> ~ In clip validated_clips).
Proof.
  intros p clips out validated_clips.
  assert (H : forall clip, In clip validated_clips -> passes p clip = true).
  { intros clip Hin. subst validated_clips.
    rewrite validation_loop_survivors in Hin. simpl in Hin.
    now apply filter_In in Hin. }
  split.
  - intros clip Hin. split.
    + now apply passes_not_out_of_bounds, H.
    + intro Hn. apply passes_within_bounds. split; [now apply H|exact Hn].
  - intros clip Ho Hin.
    exact (proj1 (passes_not_out_of_bounds p clip) (H clip Hin) Ho).
Qed.

(** A clip with a NaN duration and a sufficient score survives the
    validation loop under every configuration. *)
Lemma validation_loop_keeps_nan_duration :
  forall (p : ProcessingConfig) (clips : list VideoSegment)
         (out : list Printed) (clip : VideoSegment),
    In clip clips ->
    F64.is_nan (duration clip) = true ->
    min_engagement_score p <= score clip ->
    In clip (fst (validation_loop p clips [] out))
    /\ ~ within_bounds p clip.
Proof.
  intros p clips out clip Hin Hn Hs. split.
  - rewrite validation_loop_survivors. simpl. apply filter_In.
    split; [exact Hin|now apply nan_duration_passes].
  - intro Hw. apply passes_within_bounds in Hw. destruct Hw as [_ Hw].
    congruence.
Qed.

(** C1 (code_bug). The validation loop rejects a clip only when one of
    its comparisons succeeds, and every comparison with NaN fails.  For
    the candidates [too_long] (0 s to 40 s) and [nan_end] (start 0, end
    NaN, score 9) under the bounds 25 and 35, the loop drops the first
    and keeps the second, whose duration NaN lies in no interval;
    [select_clips_node] stores it in [selected_clips] with status
    "clips_selected". *)
Theorem nan_duration_clip_is_selected :
  let clips := [Sample.too_long; Sample.nan_end] in
  let state' :=
    fst (select_clips_node (Sample.env_of 3 25 35) (Sample.analysed clips)) in
  duration Sample.nan_end = F64.nan
  /\ fst (validation_loop Sample.config_25_35 clips [] []) = [Sample.nan_end]
  /\ ~ within_bounds Sample.config_25_35 Sample.nan_end
  /\ status state' = "clips_selected"
  /\ selected_clips state' = [Sample.nan_end].
Proof.
  cbv zeta. split; [reflexivity|]. split; [vm_compute; reflexivity|].
  split.
  - intros [H _]. vm_compute in H. discriminate H.
  - split; vm_compute; reflexivity.
Qed.

(* ----------------------------------------------------------------- *)
(** ** The sort *)

Lemma insert_by_score_perm (x : VideoSegment) :
  forall l, Permutation (x :: l) (insert_by_score x l).
Proof.
  induction l as [|y l IH]; simpl; [reflexivity|].
  destruct (Qltb (score x) (score y)); [|reflexivity].
  rewrite perm_swap. now apply perm_skip.
Qed.

Lemma sort_by_score_desc_perm :
  forall l, Permutation l (sort_by_score_desc l).
Proof.
  induction l as [|x l IH]; simpl; [constructor|].
  rewrite <- insert_by_score_perm. now apply perm_skip.
Qed.

Lemma insert_by_score_sorted (x : VideoSegment) :
  forall l, StronglySorted score_ge l ->
            StronglySorted score_ge (insert_by_score x l).
Proof.
  induction l as [|y l IH]; intro Hs; simpl.
  - constructor; constructor.
  - inversion Hs as [|? ? Hl Hy]; subst.
    destruct (Qltb (score x) (score y)) eqn:E.
    + constructor; [now apply IH|].
      apply Qltb_true in E.
      rewrite Forall_forall in *. intros z Hz.
      apply (Permutation_in _ (Permutation_sym (insert_by_score_perm x l)))
        in Hz.
      destruct Hz as [<-|Hz]; [now apply Qlt_le_weak|now apply Hy].
    + apply Qltb_false in E. constructor; [exact Hs|].
      constructor; [exact E|].
      rewrite Forall_forall in *. intros z Hz. unfold score_ge.
      apply Qle_trans with (score y); [now apply Hy|exact E].
Qed.

Lemma sort_by_score_desc_sorted :
  forall l, StronglySorted score_ge (sort_by_score_desc l).
Proof.
  induction l as [|x l IH]; simpl; [constructor|].
  now apply insert_by_score_sorted.
Qed.

Lemma insert_by_score_stable (v : Q) (x : VideoSegment) :
  forall l, with_score v (insert_by_score x l) = with_score v (x :: l).
Proof.
  unfold with_score.
  induction l as [|y l IH]; simpl; [reflexivity|].
  destruct (Qltb (score x) (score y)) eqn:E; [|reflexivity].
  simpl. rewrite IH. simpl.
  destruct (Qeq_bool (score x) v) eqn:Ex;
    destruct (Qeq_bool (score y) v) eqn:Ey; try reflexivity.
  apply Qltb_true in E. apply Qeq_bool_iff in Ex, Ey.
  rewrite Ex, Ey in E. exfalso. exact (Qlt_irrefl _ E).
Qed.

Lemma sort_by_score_desc_stable (v : Q) :
  forall l, with_score v (sort_by_score_desc l) = with_score v l.
Proof.
  induction l as [|x l IH]; simpl; [reflexivity|].
  rewrite insert_by_score_stable. unfold with_score in *. simpl.
  now rewrite IH.
Qed.

(** A stable sort is determined by the order of the keys: any list that
    is in descending score order and keeps, for every score, the clips of
    that score in their input order, is the list [sort_by_score_desc]
    returns. *)
Lemma with_score_head (a : VideoSegment) (l : list VideoSegment) :
  with_score (score a) (a :: l) = a :: with_score (score a) l.
Proof.
  unfold with_score. cbn [filter].
  assert (E : Qeq_bool (score a) (score a) = true)
    by (apply Qeq_bool_iff; reflexivity).
  now rewrite E.
Qed.

Lemma with_score_In (v : Q) (x : VideoSegment) (l : list VideoSegment) :
  In x (with_score v l) -> In x l /\ score x == v.
Proof.
  unfold with_score. intro H. apply filter_In in H.
  destruct H as [H1 H2]. split; [exact H1|now apply Qeq_bool_iff].
Qed.

Lemma stable_descending_unique :
  forall l1 l2 : list VideoSegment,
    StronglySorted score_ge l1 ->
    StronglySorted score_ge l2 ->
    (forall v, with_score v l1 = with_score v l2) ->
    l1 = l2.
Proof.
  induction l1 as [|a l1 IH]; intros l2 S1 S2 H.
  - destruct l2 as [|b l2]; [reflexivity|].
    specialize (H (score b)). rewrite with_score_head in H.
    discriminate H.
  - destruct l2 as [|b l2].
    + specialize (H (score a)). rewrite with_score_head in H.
      discriminate H.
    + inversion S1 as [|? ? S1' F1]; subst.
      inversion S2 as [|? ? S2' F2]; subst.
      assert (Eab : a = b).
      { pose proof (H (score a)) as Ha. rewrite with_score_head in Ha.
        unfold with_score in Ha. cbn [filter] in Ha.
        destruct (Qeq_bool (score b) (score a)) eqn:Eb.
        - now inversion Ha.
        - (* [a] occurs later in [l2], so [score a <= score b] *)
          assert (Hin : In a l2).
          { apply (with_score_In (score a)). unfold with_score.
            rewrite <- Ha. now left. }
          rewrite Forall_forall in F2. pose proof (F2 a Hin) as Hle.
          (* [b] occurs in [l1], so [score b <= score a] *)
          pose proof (H (score b)) as Hb.
          rewrite with_score_head in Hb.
          unfold with_score in Hb. cbn [filter] in Hb.
          assert (Ea : Qeq_bool (score a) (score b) = false).
          { destruct (Qeq_bool (score a) (score b)) eqn:E; [|reflexivity].
            apply Qeq_bool_iff in E. symmetry in E.
            apply Qeq_bool_iff in E. congruence. }
          rewrite Ea in Hb.
          assert (Hin' : In b l1).
          { apply (with_score_In (score b)). unfold with_score.
            rewrite Hb. now left. }
          rewrite Forall_forall in F1. pose proof (F1 b Hin') as Hge.
          unfold score_ge in Hle, Hge.
          assert (Heq : score b == score a) by (now apply Qle_antisym).
          apply Qeq_bool_iff in Heq. congruence. }
      subst b. f_equal. apply IH; [exact S1'|exact S2'|].
      intro v. pose proof (H v) as Hv.
      unfold with_score in Hv |- *. cbn [filter] in Hv.
      destruct (Qeq_bool (score a) v); [now inversion Hv|exact Hv].
Qed.

Lemma sort_by_score_desc_unique (l sorted : list VideoSegment) :
  StronglySorted score_ge sorted ->
  (forall v, with_score v sorted = with_score v l) ->
  sorted = sort_by_score_desc l.
Proof.
  intros Hs Hst. apply stable_descending_unique.
  - exact Hs.
  - apply sort_by_score_desc_sorted.
  - intro v. now rewrite sort_by_score_desc_stable.
Qed.

(** C4. For every list of candidate clips, the survivors of the
    validation loop come out of the sort of [select_clips_node] ordered by
    score, highest first; the sort only reorders them; and the survivors
    that share a score appear in the order they had in the input. *)
Theorem validated_clips_sorted_by_score_stable :
  forall (p : ProcessingConfig) (clips : list VideoSegment)
         (out : list Printed),
    let survivors := fst (validation_loop p clips [] out) in
    let ranked := sort_by_score_desc survivors in
    StronglySorted score_ge ranked
    /\ Permutation survivors ranked
    /\ (forall v, with_score v ranked = with_score v survivors)
    /\ (forall v, with_score v ranked
                  = with_score v (filter (passes p) clips)).
Proof.
  intros p clips out survivors ranked. subst ranked.
  repeat split.
  - apply sort_by_score_desc_sorted.
  - apply sort_by_score_desc_perm.
  - intro v. apply sort_by_score_desc_stable.
  - intro v. rewrite sort_by_score_desc_stable. subst survivors.
    now rewrite validation_loop_survivors.
Qed.

(** The example of the specification: scores 7.9, 9.0, 9.0 at indices
    0, 1, 2 come out in the order 1, 2, 0. *)
Example sort_by_score_desc_example :
  sort_by_score_desc [Sample.first; Sample.second; Sample.third]
  = [Sample.second; Sample.third; Sample.first].
Proof. reflexivity. Qed.

(** The example of the specification: of a 40-second clip and a
    25-second clip, with bounds 25..35 and 7.5, only the second is kept. *)
Example validation_loop_example :
  fst (validation_loop Sample.config_25_35
         [Sample.too_long; Sample.valid] [] [])
  = [Sample.valid].
Proof. reflexivity. Qed.

(* ----------------------------------------------------------------- *)
(** ** The prefix taken by the selection *)

(** For a count that is not negative the slice is the prefix of that
    many clips, or the whole list when it is shorter. *)
Lemma slice_to_nonneg_length {A} (l : list A) (k : Z) :
  (0 <= k)%Z ->
  List.length (slice_to l k) = Nat.min (Z.to_nat k) (List.length l).
Proof.
  intro Hk. rewrite slice_to_nonneg by exact Hk.
  rewrite length_firstn. lia.
Qed.

Lemma slice_to_zero {A} (l : list A) : slice_to l 0 = [].
Proof. reflexivity. Qed.

Lemma slice_to_nil {A} (k : Z) : slice_to (@nil A) k = [].
Proof. unfold slice_to. destruct (0 <=? k)%Z; apply firstn_nil. Qed.

(** A negative count keeps all but the last [-k] clips. *)
Lemma slice_to_negative_length {A} (l : list A) (k : Z) :
  (k < 0)%Z -> (- k <= Z.of_nat (List.length l))%Z ->
  Z.of_nat (List.length (slice_to l k)) = (Z.of_nat (List.length l) + k)%Z.
Proof.
  intros Hk Hl. unfold slice_to.
  destruct (0 <=? k)%Z eqn:E; [apply Z.leb_le in E; lia|].
  rewrite length_firstn. lia.
Qed.

(** C5. With [MAX_CLIPS_PER_VIDEO=-1] and three clips that pass the
    validation, [select_clips_node] selects two clips: the slice
    [validated_clips[:max_clips]] with a negative bound drops the last
    clip instead of returning the empty list. *)
Theorem select_negative_max_clips_keeps_clips :
  slice_to [Sample.second; Sample.third; Sample.first] (-1)
  = [Sample.second; Sample.third]
  /\ selected_clips
       (fst (select_clips_node (Sample.env_of (-1) 25 35)
               (Sample.analysed
                  [Sample.first; Sample.second; Sample.third])))
     = [Sample.second; Sample.third]
  /\ status
       (fst (select_clips_node (Sample.env_of (-1) 25 35)
               (Sample.analysed
                  [Sample.first; Sample.second; Sample.third])))
     = "clips_selected".
Proof. repeat split; reflexivity. Qed.

(* ----------------------------------------------------------------- *)
(** ** The selection node as a whole *)

Lemma VideoSegment_init_all_ok :
  forall l l', VideoSegment_init_all l = Ok l' -> l' = l.
Proof.
  induction l as [|c l IH]; intros l' H; simpl in H.
  - now inversion H.
  - unfold VideoSegment_init in H.
    destruct (score_in_range c); simpl in H; [|discriminate].
    destruct (VideoSegment_init_all l) as [l0|e]; simpl in H;
      [|discriminate].
    inversion H. f_equal. now apply IH.
Qed.

(** What the [try] block computes when nothing raises. *)
Lemma select_try_ok (env : Env) (p : ProcessingConfig)
    (identified : list VideoSegment) :
  from_env env = Ok p ->
  VideoSegment_init_all identified = Ok identified ->
  let selected :=
    slice_to (sort_by_score_desc (filter (passes p) identified))
      (max_clips_per_video p) in
  select_try env identified
  = (Ok selected,
     [PrintValidating (List.length identified)]
     ++ map (rejection_message p)
          (filter (fun c => negb (passes p c)) identified)
     ++ [PrintPassed (List.length (filter (passes p) identified));
         PrintSelected (List.length selected)]
     ++ selection_summary 1 selected).
Proof.
  intros Hp Hv selected. unfold select_try. rewrite Hp, Hv.
  rewrite (surjective_pairing (validation_loop p identified [] _)).
  rewrite validation_loop_survivors, validation_loop_printed.
  cbn [app]. subst selected. f_equal.
  rewrite <- !app_assoc. reflexivity.
Qed.

Lemma select_clips_node_warnings (env : Env) (state : PodcastState) :
  let state' := fst (select_clips_node env state) in
  warnings state' = warnings state
  \/ warnings state' = warnings state ++ ["No clips identified by analysis"]
  \/ warnings state'
     = warnings state ++ ["No clips passed validation criteria"].
Proof.
  unfold select_clips_node.
  destruct (identified_clips state) as [|c l]; cbn [truthy_list negb].
  - right; left; reflexivity.
  - destruct (select_try env (c :: l)) as [[selected|e] out].
    + destruct selected; cbn [truthy_list negb].
      * right; right; reflexivity.
      * left; reflexivity.
    + left; reflexivity.
Qed.

Lemma StronglySorted_app_l {A} (R : A -> A -> Prop) :
  forall l1 l2, StronglySorted R (l1 ++ l2) -> StronglySorted R l1.
Proof.
  induction l1 as [|a l1 IH]; intros l2 H; [constructor|].
  cbn [app] in H. inversion H as [|? ? Hs Hf]; subst.
  constructor; [now apply (IH l2)|].
  apply Forall_app in Hf. tauto.
Qed.

(** What the node stores when it ends with status "clips_selected": a
    prefix of the ranked survivors; each of them failed none of the
    three tests, so it is within bounds unless its duration is NaN. *)
Lemma select_clips_node_selected (env : Env) (state : PodcastState) :
  let state' := fst (select_clips_node env state) in
  status state' = "clips_selected" ->
  exists p,
    from_env env = Ok p
    /\ selected_clips state'
       = slice_to
           (sort_by_score_desc (filter (passes p) (identified_clips state)))
           (max_clips_per_video p)
    /\ selected_clips state' <> []
    /\ StronglySorted score_ge (selected_clips state')
    /\ (forall clip, In clip (selected_clips state') ->
                     In clip (identified_clips state)
                     /\ ~ out_of_bounds p clip
                     /\ (F64.is_nan (duration clip) = false ->
                         within_bounds p clip)).
Proof.
  intros state'. subst state'. unfold select_clips_node.
  destruct (identified_clips state) as [|c l] eqn:El;
    cbn [truthy_list negb]; [state_simpl; discriminate|].
  unfold select_try.
  destruct (from_env env) as [p|e] eqn:Ep; [|state_simpl; discriminate].
  destruct (VideoSegment_init_all (c :: l)) as [clips|e] eqn:Ev;
    [|state_simpl; discriminate].
  apply VideoSegment_init_all_ok in Ev. subst clips.
  rewrite (surjective_pairing (validation_loop p (c :: l) [] _)).
  rewrite validation_loop_survivors. cbn [app].
  destruct (slice_to _ _) as [|s sel] eqn:Es; cbn [truthy_list negb];
    [state_simpl; discriminate|].
  state_simpl. intros _. exists p. rewrite <- Es.
  split; [reflexivity|]. split; [reflexivity|].
  split; [rewrite Es; discriminate|]. split.
  - destruct (slice_to_prefix
                (sort_by_score_desc (filter (passes p) (c :: l)))
                (max_clips_per_video p)) as [rest Er].
    apply StronglySorted_app_l with rest. rewrite <- Er.
    apply sort_by_score_desc_sorted.
  - intros clip Hin. apply slice_to_incl in Hin.
    apply (Permutation_in _
             (Permutation_sym (sort_by_score_desc_perm _))) in Hin.
    apply filter_In in Hin. destruct Hin as [Hin Hp].
    split; [exact Hin|]. split; [now apply passes_not_out_of_bounds|].
    intro Hn. now apply passes_within_bounds.
Qed.

(** C6 (as the code has it). Every clip the validation loop rejects is
    reported by exactly one printed line carrying its start and end time
    and its measured duration (or its score): the console output of the
    loop grows by the messages of the rejected clips, in order.  The
    rejections are not appended to [warnings]: the node adds at most one
    warning, a fixed sentence, when no clip was identified or none was
    selected. *)
Theorem rejections_are_printed_once :
  forall (env : Env) (p : ProcessingConfig) (state : PodcastState),
    from_env env = Ok p ->
    VideoSegment_init_all (identified_clips state)
    = Ok (identified_clips state) ->
    identified_clips state <> [] ->
    let rejected :=
      filter (fun c => negb (passes p c)) (identified_clips state) in
    let state' := fst (select_clips_node env state) in
    let printed := snd (select_clips_node env state) in
    (forall validated out,
        snd (validation_loop p (identified_clips state) validated out)
        = out ++ map (rejection_message p) rejected)
    /\ (exists tail,
           printed
           = [PrintValidating (List.length (identified_clips state))]
             ++ map (rejection_message p) rejected ++ tail)
    /\ (warnings state' = warnings state
        \/ warnings state'
           = warnings state ++ ["No clips passed validation criteria"]).
Proof.
  intros env p state Hp Hv Hne rejected state' printed.
  split; [|split].
  - intros validated out. apply validation_loop_printed.
  - subst printed. unfold select_clips_node.
    destruct (identified_clips state) as [|c l] eqn:El; [congruence|].
    cbn [truthy_list negb].
    rewrite (select_try_ok env p (c :: l) Hp Hv).
    cbv zeta.
    destruct (slice_to _ _) as [|s sel]; cbn [truthy_list negb snd].
    + eexists. reflexivity.
    + eexists. rewrite <- !app_assoc. reflexivity.
  - subst state'. unfold select_clips_node.
    destruct (identified_clips state) as [|c l] eqn:El; [congruence|].
    cbn [truthy_list negb].
    destruct (select_try env (c :: l)) as [[selected|e] out].
    + destruct selected; cbn [truthy_list negb]; [right|left]; reflexivity.
    + left; reflexivity.
Qed.

Lemma rejections_are_printed_once_witness :
  snd (select_clips_node (Sample.env_of 3 25 35)
         (Sample.analysed [Sample.too_long; Sample.valid]))
  = [PrintValidating 2;
     PrintTooLong (F64.of_Z 0) (F64.of_Z 40) (F64.of_Z 40); PrintPassed 1;
     PrintSelected 1; PrintClip 1 Sample.valid (F64.of_Z 25);
     PrintReasoning "picked by the model"; PrintComplete 1]
  /\ exists tail,
      snd (select_clips_node (Sample.env_of 3 25 35)
             (Sample.analysed [Sample.too_long; Sample.valid]))
      = [PrintValidating 2]
        ++ map (rejection_message Sample.config_25_35) [Sample.too_long]
        ++ tail.
Proof.
  split; [vm_compute; reflexivity|].
  exact (proj1 (proj2
    (rejections_are_printed_once
       (Sample.env_of 3 25 35) Sample.config_25_35
       (Sample.analysed [Sample.too_long; Sample.valid])
       eq_refl eq_refl
       (fun H => @nil_cons _ Sample.too_long [Sample.valid] (eq_sym H))))).
Defined.

(** C6 (as stated) fails: a rejected clip leaves [warnings] as it was. *)
Lemma rejection_appends_no_warning :
  In Sample.too_long
     (identified_clips (Sample.analysed [Sample.too_long; Sample.valid]))
  /\ from_env (Sample.env_of 3 25 35) = Ok Sample.config_25_35
  /\ passes Sample.config_25_35 Sample.too_long = false
  /\ warnings
       (fst (select_clips_node (Sample.env_of 3 25 35)
               (Sample.analysed [Sample.too_long; Sample.valid])))
     = warnings (Sample.analysed [Sample.too_long; Sample.valid]).
Proof. repeat split; try reflexivity. left; reflexivity. Qed.

(** C8 (as the code has it). [select_clips_node] leaves [video_path],
    [processed_clips], [identified_clips] and every other entry of the
    state as it was, except [selected_clips] (set to the selected
    survivors, or to the empty list), [warnings] (appended to), [status],
    and, only when the stage raises, [errors] (one message appended while
    [selected_clips] stays). *)
Theorem select_clips_node_frame :
  forall (env : Env) (state : PodcastState),
    let state' := fst (select_clips_node env state) in
    unchanged_outside_selection state state'
    /\ (exists added, warnings state' = warnings state ++ added)
    /\ ((errors state' = errors state
         /\ ((identified_clips state = [] /\ selected_clips state' = [])
             \/ exists p,
                 from_env env = Ok p
                 /\ selected_clips state'
                    = slice_to
                        (sort_by_score_desc
                           (filter (passes p) (identified_clips state)))
                        (max_clips_per_video p)))
        \/ (status state' = "selection_failed"
            /\ selected_clips state' = selected_clips state
            /\ warnings state' = warnings state
            /\ exists msg, errors state' = errors state ++ [msg])).
Proof.
  intros env state state'. subst state'.
  unfold select_clips_node, unchanged_outside_selection.
  destruct (identified_clips state) as [|c l] eqn:El;
    cbn [truthy_list negb].
  - state_simpl. rewrite ?El. repeat split.
    + eexists; reflexivity.
    + left. split; [reflexivity|]. left. now split.
  - unfold select_try.
    destruct (from_env env) as [p|e] eqn:Ep.
    + destruct (VideoSegment_init_all (c :: l)) as [clips|e] eqn:Ev.
      * apply VideoSegment_init_all_ok in Ev. subst clips.
        rewrite (surjective_pairing (validation_loop p (c :: l) [] _)).
        rewrite validation_loop_survivors. cbn [app].
        destruct (slice_to _ _) as [|s sel] eqn:Es; cbn [truthy_list negb].
        -- state_simpl. rewrite ?El. repeat split.
           ++ eexists; reflexivity.
           ++ left. split; [reflexivity|]. right. exists p.
              split; [reflexivity|]. now rewrite Es.
        -- state_simpl. rewrite ?El. repeat split.
           ++ exists []. now rewrite app_nil_r.
           ++ left. split; [reflexivity|]. right. exists p.
              split; [reflexivity|]. now rewrite Es.
      * state_simpl. rewrite ?El. repeat split.
        -- exists []. now rewrite app_nil_r.
        -- right. repeat split. eexists; reflexivity.
    + state_simpl. rewrite ?El. repeat split.
      * exists []. now rewrite app_nil_r.
      * right. repeat split. eexists; reflexivity.
Qed.

(** C8 (as stated) fails: the stage leaves [identified_clips] with the
    rejected clip still in it and writes the survivors to
    [selected_clips]. *)
Lemma selection_writes_selected_clips :
  let state := Sample.analysed [Sample.too_long; Sample.valid] in
  let state' := fst (select_clips_node (Sample.env_of 3 25 35) state) in
  identified_clips state' = [Sample.too_long; Sample.valid]
  /\ identified_clips state' <> [Sample.valid]
  /\ selected_clips state = []
  /\ selected_clips state' = [Sample.valid]
  /\ selected_clips state' <> selected_clips state.
Proof.
  cbv zeta. repeat split; try reflexivity; discriminate.
Qed.

(* ----------------------------------------------------------------- *)
(** ** [sanitize_filename] *)

Lemma length_string_of_list_ascii :
  forall l, String.length (string_of_list_ascii l) = List.length l.
Proof.
  induction l as [|c l IH]; simpl; [reflexivity|now rewrite IH].
Qed.

Lemma firstn_incl {A} (n : nat) :
  forall (l : list A) (x : A), In x (firstn n l) -> In x l.
Proof.
  intros l x H. rewrite <- (firstn_skipn n l). apply in_or_app. now left.
Qed.

(** The pattern's class and the list of forbidden code points hold the
    same nine characters. *)
Lemma invalid_codes_forbidden (n : N) :
  existsb (N.eqb n) invalid_codes = existsb (N.eqb n) forbidden_codes.
Proof.
  cbn [invalid_codes invalid_chars forbidden_codes map existsb].
  change (N_of_ascii "<") with 60%N. change (N_of_ascii ">") with 62%N.
  change (N_of_ascii ":") with 58%N.
  change (N_of_ascii (ascii_of_nat 34)) with 34%N.
  change (N_of_ascii "/") with 47%N. change (N_of_ascii "\") with 92%N.
  change (N_of_ascii "|") with 124%N. change (N_of_ascii "?") with 63%N.
  change (N_of_ascii "*") with 42%N.
  destruct (N.eqb n 60), (N.eqb n 62), (N.eqb n 58), (N.eqb n 34),
    (N.eqb n 47), (N.eqb n 92), (N.eqb n 124), (N.eqb n 63), (N.eqb n 42);
    reflexivity.
Qed.

Lemma forbidden_codes_spec (n : N) :
  existsb (N.eqb n) forbidden_codes = true <-> In n forbidden_codes.
Proof.
  rewrite existsb_exists. split.
  - intros [x [Hx E]]. apply N.eqb_eq in E. now subst x.
  - intro H. exists n. split; [exact H|apply N.eqb_refl].
Qed.

Section Characters.

Context {char : Type} {A : Alphabet char}.

Lemma is_invalid_char_forbidden (c : char) :
  is_invalid_char c = true <-> In (ord c) forbidden_codes.
Proof.
  unfold is_invalid_char. rewrite invalid_codes_forbidden.
  apply forbidden_codes_spec.
Qed.

Lemma underscore_valid : is_invalid_char (underscore : char) = false.
Proof.
  unfold is_invalid_char. rewrite ord_underscore. reflexivity.
Qed.

Lemma underscore_not_stripped : is_strip_char (underscore : char) = false.
Proof.
  unfold is_strip_char. rewrite ord_underscore. reflexivity.
Qed.

(** None of the nine characters is a space or a dot. *)
Lemma invalid_not_stripped (c : char) :
  is_invalid_char c = true -> is_strip_char c = false.
Proof.
  intro H. apply is_invalid_char_forbidden in H. unfold is_strip_char.
  cbn [forbidden_codes In] in H.
  repeat (destruct H as [H|H]; [rewrite <- H; reflexivity|]).
  contradiction.
Qed.

Lemma underscored_spec (c : char) :
  underscored c = if is_invalid_char c then underscore else c.
Proof.
  unfold underscored, is_invalid_char.
  now rewrite invalid_codes_forbidden.
Qed.

Lemma re_sub_invalid_underscored (l : list char) :
  re_sub_invalid l = map underscored l.
Proof.
  unfold re_sub_invalid. apply map_ext. intro c.
  now rewrite underscored_spec.
Qed.

(** The substitution neither makes nor removes a space or a dot. *)
Lemma underscored_stripped (c : char) :
  is_strip_char (underscored c) = is_strip_char c.
Proof.
  rewrite underscored_spec. destruct (is_invalid_char c) eqn:E;
    [|reflexivity].
  rewrite underscore_not_stripped. symmetry.
  now apply invalid_not_stripped.
Qed.

Lemma underscored_valid (c : char) : is_invalid_char (underscored c) = false.
Proof.
  rewrite underscored_spec. destruct (is_invalid_char c) eqn:E;
    [apply underscore_valid|exact E].
Qed.

Lemma lstrip_incl : forall (l : list char) c, In c (lstrip l) -> In c l.
Proof.
  induction l as [|a l IH]; intros c H; simpl in H; [exact H|].
  destruct (is_strip_char a); [right; now apply IH|exact H].
Qed.

Lemma strip_incl : forall (l : list char) c, In c (strip l) -> In c l.
Proof.
  intros l c H. unfold strip, rstrip in H.
  apply in_rev in H. apply lstrip_incl in H. apply in_rev in H.
  now apply lstrip_incl.
Qed.

Lemma re_sub_invalid_clean :
  forall (l : list char) c,
    In c (re_sub_invalid l) -> is_invalid_char c = false.
Proof.
  intros l c H. rewrite re_sub_invalid_underscored in H.
  apply in_map_iff in H. destruct H as [a [<- _]].
  apply underscored_valid.
Qed.

(** What [lstrip] removes is a run of spaces and dots, and what it
    leaves does not begin with one. *)
Lemma lstrip_split (l : list char) :
  exists before,
    l = before ++ lstrip l
    /\ Forall (fun c => is_strip_char c = true) before
    /\ starts_clean (lstrip l).
Proof.
  induction l as [|c l [before [E [Hb Hs]]]]; cbn [lstrip].
  - exists []. repeat split. constructor.
  - destruct (is_strip_char c) eqn:Ec.
    + exists (c :: before). cbn [app]. rewrite <- E.
      split; [reflexivity|]. split; [now constructor|exact Hs].
    + exists []. split; [reflexivity|]. split; [constructor|exact Ec].
Qed.

Lemma Forall_rev {B} (P : B -> Prop) (l : list B) :
  Forall P l -> Forall P (rev l).
Proof.
  intro H. apply Forall_forall. intros x Hx. apply in_rev in Hx.
  rewrite Forall_forall in H. now apply H.
Qed.

(** [strip] cuts a name into the three parts of [trimmed_to]. *)
Lemma strip_trimmed (l : list char) : trimmed_to l (strip l).
Proof.
  unfold trimmed_to, strip, rstrip.
  destruct (lstrip_split l) as [before [E [Hb Hs]]].
  destruct (lstrip_split (rev (lstrip l))) as [tail [Et [Ht Hts]]].
  exists before, (rev tail).
  split.
  - rewrite <- rev_app_distr, <- Et, rev_involutive. exact E.
  - split; [exact Hb|]. split; [now apply Forall_rev|].
    split.
    + (* the start of the middle is the start of [lstrip l] *)
      assert (Em : lstrip l = rev (lstrip (rev (lstrip l))) ++ rev tail).
      { rewrite <- rev_app_distr, <- Et. now rewrite rev_involutive. }
      destruct (rev (lstrip (rev (lstrip l)))) as [|c m]; [exact I|].
      rewrite Em in Hs. exact Hs.
    + unfold ends_clean. rewrite rev_involutive. exact Hts.
Qed.

Lemma lstrip_map_underscored (l : list char) :
  lstrip (map underscored l) = map underscored (lstrip l).
Proof.
  induction l as [|c l IH]; cbn [map lstrip]; [reflexivity|].
  rewrite underscored_stripped.
  destruct (is_strip_char c); [exact IH|reflexivity].
Qed.

Lemma strip_map_underscored (l : list char) :
  strip (map underscored l) = map underscored (strip l).
Proof.
  unfold strip, rstrip.
  now rewrite lstrip_map_underscored, <- map_rev, lstrip_map_underscored,
    map_rev.
Qed.

(** [sanitize_chars] in one formula: the name without the spaces and
    dots at its two ends, with every forbidden character replaced, cut
    to its first 200 characters. *)
Lemma sanitize_chars_formula (filename : list char) :
  sanitize_chars filename = firstn 200 (map underscored (strip filename)).
Proof.
  unfold sanitize_chars.
  rewrite re_sub_invalid_underscored, strip_map_underscored.
  destruct (200 <? _)%nat eqn:H; [reflexivity|].
  apply Nat.ltb_ge in H. symmetry. now apply firstn_all2.
Qed.

End Characters.

Lemma invalid_chars_spec :
  forall c : ascii, In c invalid_chars -> is_invalid_char c = true.
Proof.
  intros c H. cbn [invalid_chars In] in H.
  repeat (destruct H as [H|H]; [rewrite <- H; reflexivity|]).
  contradiction.
Qed.

(** C10. For every input string, over any alphabet of code points,
    [sanitize_filename] returns a string of at most 200 characters in
    which none of the nine characters less-than, greater-than, colon,
    double quote, slash, backslash, bar, question mark and star occurs.
    The result is obtained from the input in this way: the input is a
    run of spaces and dots, a middle part that neither begins nor ends
    with a space or a dot, and a run of spaces and dots; in the middle
    part each of the nine characters is replaced by an underscore and
    every other character is kept, in place; the first 200 characters of
    that are the result. *)
Theorem sanitize_filename_safe :
  forall (char : Type) (A : Alphabet char) (filename : list char),
    let result := sanitize_chars filename in
    (List.length result <= 200)%nat
    /\ (forall c, In c result -> ~ In (ord c) forbidden_codes)
    /\ (exists middle,
           trimmed_to filename middle
           /\ result = firstn 200 (map underscored middle)
           /\ (forall i c,
                  (i < 200)%nat ->
                  nth_error middle i = Some c ->
                  nth_error result i
                  = Some (if existsb (N.eqb (ord c)) forbidden_codes
                          then underscore else c))).
Proof.
  intros char A filename result. subst result.
  rewrite sanitize_chars_formula. split; [|split].
  - rewrite length_firstn. lia.
  - intros c Hin Hc. apply firstn_incl in Hin.
    apply in_map_iff in Hin. destruct Hin as [a [<- _]].
    apply is_invalid_char_forbidden in Hc.
    rewrite underscored_valid in Hc. discriminate Hc.
  - exists (strip filename). split; [apply strip_trimmed|].
    split; [reflexivity|]. intros i c Hi Hc.
    rewrite nth_error_firstn.
    destruct (i <? 200)%nat eqn:E; [|apply Nat.ltb_ge in E; lia].
    rewrite nth_error_map, Hc. reflexivity.
Qed.

Lemma sanitize_filename_safe_witness :
  ~ In ":"%char (list_ascii_of_string (sanitize_filename "a:b"))
  /\ sanitize_filename " .a:b. " = "a_b".
Proof.
  split; [|reflexivity].
  intro H. unfold sanitize_filename in H.
  rewrite list_ascii_of_string_of_list_ascii in H.
  apply (proj1 (proj2 (sanitize_filename_safe ascii ascii_alphabet
                         (list_ascii_of_string "a:b"))) ":"%char H).
  cbn. tauto.
Defined.

Example sanitize_filename_example :
  sanitize_filename " ..a<b>c:d/e\f|g?h*i. " = "a_b_c_d_e_f_g_h_i".
Proof. reflexivity. Qed.

(* ----------------------------------------------------------------- *)
(** ** [convert_to_portrait] *)

(** C2 (code_bug). For a 1920x1080 source and the 1080x1920 target,
    [convert_to_portrait] takes the branch of the too-wide case that
    its comment calls "Add horizontal padding (letterbox effect)": it
    resizes the source to the target height 1920, which gives the width
    int(1920 * (1920 / 1080)) = 3413, and places it on the 1080x1920
    background at the horizontal offset (1080 - 3413) // 2 = -1167 and
    the vertical offset 0.  The resized source is wider than the
    background on both sides, so nothing is padded: the frame is what
    the middle 1080 of its 3413 columns show. *)
Theorem convert_to_portrait_landscape_hd :
  convert_to_portrait (1920, 1080)%Z (1080, 1920)%Z
  = Ok (Composite 1080 1920 3413 1920 (-1167) 0).
Proof. vm_compute. reflexivity. Qed.

(** The result for that source is not the source resized to width 1080
    and placed about 656 rows down, which is what padding the frame
    above and below would give. *)
Lemma convert_to_portrait_not_padded_vertically :
  ~ exists c,
      convert_to_portrait (1920, 1080)%Z (1080, 1920)%Z = Ok c
      /\ resized_to_width_padded_vertically 1080 656 657 c.
Proof.
  intros [c [H Hc]]. vm_compute in H. inversion H; subst c.
  destruct Hc as [Hw _]. discriminate Hw.
Qed.

(** *** Facts on the float operations the function uses *)

Lemma shr_1_nonneg (mrs : shr_record) :
  (0 <= shr_m mrs)%Z -> (0 <= shr_m (shr_1 mrs))%Z.
Proof.
  destruct mrs as [m r s]. destruct m as [|p|p]; cbn; intros H.
  - lia.
  - destruct p; cbn; lia.
  - lia.
Qed.

Lemma iter_pos_shr_1_nonneg (p : positive) :
  forall mrs, (0 <= shr_m mrs)%Z -> (0 <= shr_m (iter_pos shr_1 p mrs))%Z.
Proof.
  induction p as [p IH|p IH|]; intros mrs H; cbn.
  - apply IH, IH, shr_1_nonneg, H.
  - apply IH, IH, H.
  - apply shr_1_nonneg, H.
Qed.

Lemma shr_fexp_nonneg (m e : Z) (l : location) :
  (0 <= m)%Z ->
  (0 <= shr_m (fst (shr_fexp F64.prec F64.emax m e l)))%Z.
Proof.
  intros H. unfold shr_fexp, shr.
  assert (H0 : (0 <= shr_m (shr_record_of_loc m l))%Z)
    by (destruct l as [|[]]; exact H).
  destruct (_ - e)%Z; cbn [fst]; try exact H0.
  apply iter_pos_shr_1_nonneg, H0.
Qed.

Lemma round_nearest_even_nonneg (m : Z) (l : location) :
  (0 <= m)%Z -> (0 <= round_nearest_even m l)%Z.
Proof.
  intros H. destruct l as [|[]]; cbn; try lia.
  destruct (Z.even m); lia.
Qed.

(** Rounding a non-negative significand gives a zero, a finite float or
    an infinity. *)
Lemma binary_round_aux_not_nan (s : bool) (m e : Z) (l : location) :
  (0 <= m)%Z ->
  F64.is_nan (binary_round_aux F64.prec F64.emax s m e l) = false.
Proof.
  intros H. unfold binary_round_aux.
  pose proof (shr_fexp_nonneg m e l H) as H1.
  destruct (shr_fexp F64.prec F64.emax m e l) as [mrs' e'].
  cbn [fst] in H1.
  pose proof (shr_fexp_nonneg _ e' loc_Exact
                (round_nearest_even_nonneg _ (loc_of_shr_record mrs') H1))
    as H2.
  destruct (shr_fexp F64.prec F64.emax _ e' loc_Exact) as [mrs'' e''].
  cbn [fst] in H2.
  destruct (shr_m mrs'') as [|p|p]; [reflexivity| |lia].
  now destruct (e'' <=? _)%Z.
Qed.

Lemma SFdiv_core_binary_nonneg (n d : positive) :
  (0 <= fst (fst (SFdiv_core_binary F64.prec F64.emax
                    (Zpos n) 0 (Zpos d) 0)))%Z.
Proof.
  unfold SFdiv_core_binary.
  set (s := (0 - 0 - _)%Z).
  set (m' := match s with 0%Z => Zpos n | Zpos _ => Z.shiftl (Zpos n) s
                     | Zneg _ => 0%Z end).
  assert (Hm : (0 <= m')%Z).
  { subst m'. destruct s; try lia. apply Z.shiftl_nonneg. lia. }
  pose proof (Z_div_mod m' (Zpos d) eq_refl) as Hd.
  destruct (Z.div_eucl m' (Zpos d)) as [q r]. cbn [fst].
  destruct Hd as [Hd Hr]. nia.
Qed.

(** The quotient of two ints, when there is one, is a finite float. *)
Lemma int_truediv_finite (a b : Z) (r : F64.t) :
  F64.int_truediv a b = Ok r -> F64.is_finite r = true.
Proof.
  unfold F64.int_truediv. destruct (b =? 0)%Z; [discriminate|].
  destruct (Qred _) as [[|n|n] d]; try (intros [= <-]; reflexivity).
  pose proof (SFdiv_core_binary_nonneg n d) as Hq.
  destruct (SFdiv_core_binary _ _ _ _ _ _) as [[q e] l]. cbn [fst] in Hq.
  pose proof (binary_round_aux_not_nan
                (xorb (a <? 0)%Z (b <? 0)%Z) q e l Hq) as Hn.
  destruct (binary_round_aux _ _ _ _ _ _); try discriminate;
    intros [= <-]; reflexivity.
Qed.

(** The quotient depends on the ratio only. *)
Lemma int_truediv_ratio (a b c d : positive) :
  (Zpos a * Zpos d = Zpos c * Zpos b)%Z ->
  F64.int_truediv (Zpos a) (Zpos b) = F64.int_truediv (Zpos c) (Zpos d).
Proof.
  intros H. unfold F64.int_truediv. cbn [Z.eqb Z.ltb Z.compare xorb Z.abs
                                         Z.to_pos].
  assert (E : Qred (Zpos a # b) = Qred (Zpos c # d))
    by (apply Qred_complete; exact H).
  now rewrite E.
Qed.

(** A finite float minus itself is [+0.0]. *)
Lemma sub_diag (r : F64.t) :
  F64.is_finite r = true -> F64.sub r r = S754_zero false.
Proof.
  destruct r as [s| | |s m e]; try discriminate; intros _.
  - now destruct s.
  - unfold F64.sub, SFsub. rewrite Z.sub_diag. reflexivity.
Qed.

(** The only [ZeroDivisionError] of [a / b] comes from [b = 0]. *)
Lemma int_truediv_zero (a : Z) :
  F64.int_truediv a 0 = Raise "division by zero".
Proof. reflexivity. Qed.

(* ----------------------------------------------------------------- *)
(** ** [analyze_content_node] *)

(** C9. For every state whose transcript text is absent or empty, or
    whose list of transcript segments is empty, [analyze_content_node]
    appends the one error "No transcript available for analysis" to
    [errors] and returns the state otherwise as it was: [status] keeps its
    value, [identified_clips] and [warnings] are not written. *)
Theorem analyze_content_node_without_transcript :
  forall (w : World) (state : PodcastState),
    transcript state = None \/ transcript state = Some ""
    \/ transcript_segments state = [] ->
    let state' := analyze_content_node w state in
    state'
    = set_errors (errors state ++ ["No transcript available for analysis"])
        state
    /\ errors state'
       = errors state ++ ["No transcript available for analysis"]
    /\ status state' = status state
    /\ identified_clips state' = identified_clips state
    /\ selected_clips state' = selected_clips state
    /\ processed_clips state' = processed_clips state
    /\ warnings state' = warnings state.
Proof.
  intros w state H state'.
  assert (E : state'
              = set_errors
                  (errors state ++ ["No transcript available for analysis"])
                  state).
  { subst state'. unfold analyze_content_node.
    destruct H as [H|[H|H]]; rewrite H; cbn [truthy_opt_str truthy_str negb];
      [reflexivity|reflexivity|].
    cbn [truthy_list negb]. now rewrite orb_true_r. }
  rewrite E. repeat split.
Qed.

Lemma analyze_content_node_without_transcript_witness :
  let state := initial_state Sample.no_download "u" Sample.no_overrides in
  let state' := analyze_content_node Sample.no_download state in
  errors state' = ["No transcript available for analysis"]
  /\ status state' = "starting".
Proof.
  cbv zeta.
  pose proof (analyze_content_node_without_transcript
                Sample.no_download
                (initial_state Sample.no_download "u" Sample.no_overrides)
                (or_introl eq_refl)) as H.
  cbv zeta in H. destruct H as [_ [He [Hs _]]].
  split; [exact He|exact Hs].
Defined.

(* ----------------------------------------------------------------- *)
(** ** The workflow graph *)

Lemma next_node_remaining (n n' : Node) (state : PodcastState) :
  next_node n state = Some n' -> remaining n = S (remaining n').
Proof.
  destruct n; cbn [next_node]; intro H;
    try (match type of H with
         | (if ?b then _ else _) = _ => destruct b
         end);
    inversion H; reflexivity.
Qed.

(** The fuel of [graph_trace] is enough: more fuel gives the same run. *)
Lemma invoke_from_enough (w : World) :
  forall fuel n state,
    (remaining n <= fuel)%nat ->
    invoke_from w fuel n state = invoke_from w (remaining n) n state.
Proof.
  induction fuel as [|fuel IH]; intros n state Hle.
  - destruct n; cbn in Hle; lia.
  - assert (Hk : exists k, remaining n = S k)
      by (destruct n; eexists; reflexivity).
    destruct Hk as [k Hk]. rewrite Hk. cbn [invoke_from]. f_equal.
    destruct (next_node n (node_function w n state)) as [n'|] eqn:En;
      [|reflexivity].
    apply next_node_remaining in En.
    assert (k = remaining n') by lia. subst k.
    apply IH. lia.
Qed.

Lemma graph_trace_complete (w : World) (state : PodcastState) (fuel : nat) :
  (6 <= fuel)%nat ->
  invoke_from w fuel fetch_transcript state = graph_trace w state.
Proof.
  intro H. unfold graph_trace.
  now rewrite (invoke_from_enough w fuel fetch_transcript state H).
Qed.

(** Every router answers "end" on a failed state. *)
Lemma next_node_failed (n : Node) (state : PodcastState) :
  status state = "failed" -> next_node n state = None.
Proof.
  intro H. destruct n; cbn [next_node]; [| | | | |reflexivity];
    unfold _should_continue_after_transcript,
      _should_continue_after_analysis, _should_continue_after_selection,
      _should_continue_after_download, _should_continue_after_generation;
    rewrite H; reflexivity.
Qed.

(** A failed state ends the run. *)
Lemma failed_is_last (w : World) :
  forall fuel n state pre x post,
    map snd (invoke_from w fuel n state) = pre ++ x :: post ->
    status x = "failed" ->
    post = [].
Proof.
  induction fuel as [|fuel IH]; intros n state pre x post E Hx.
  - destruct pre; discriminate E.
  - cbn [invoke_from map snd] in E.
    destruct pre as [|y pre]; cbn [app] in E; injection E as E1 E2.
    + rewrite E1 in E2. rewrite (next_node_failed n x Hx) in E2.
      symmetry. exact E2.
    + destruct (next_node n (node_function w n state)) as [n'|].
      * exact (IH n' _ pre x post E2 Hx).
      * destruct pre; discriminate E2.
Qed.

(** A run only moves on from a node that set its own success status;
    the lists of the later nodes are then still empty. *)
Lemma continue_implies_stage_status (w : World) (n n' : Node)
    (state : PodcastState) :
  entry_invariant n state ->
  next_node n (node_function w n state) = Some n' ->
  status (node_function w n state) = stage_status n
  /\ entry_invariant n' (node_function w n state).
Proof.
  destruct n; cbn [entry_invariant node_function next_node stage_status].
  - (* fetch_transcript *)
    intros [Hi [Hs Hp]]. unfold fetch_transcript_node.
    unfold _should_continue_after_transcript.
    destruct (fetch_youtube_transcript w (url state)) as [[[t segs] src]|e];
      destruct (duration_of_length _) as [d|e'];
      state_simpl;
      try (destruct (created_at state)); state_simpl;
      cbn [String.eqb Ascii.eqb Bool.eqb];
      try discriminate;
      (destruct (negb (truthy_opt_str (Some t))); [discriminate|]);
      intro H; inversion H; cbn [entry_invariant]; state_simpl; auto.
  - (* analyze_content *)
    intros [Hi [Hs Hp]]. unfold analyze_content_node.
    unfold _should_continue_after_analysis.
    destruct (negb (truthy_opt_str (transcript state))
              || negb (truthy_list (transcript_segments state))).
    + state_simpl. rewrite Hi.
      destruct (String.eqb (status state) "failed"); discriminate.
    + destruct (analyze w state) as [clips|e]; state_simpl;
        cbn [String.eqb Ascii.eqb Bool.eqb].
      * destruct clips; cbn [truthy_list negb]; [discriminate|].
        intro H; inversion H; cbn [entry_invariant]; state_simpl; auto.
      * rewrite Hi. discriminate.
  - (* select_clips *)
    intros [Hs Hp]. unfold select_clips_node.
    unfold _should_continue_after_selection.
    destruct (identified_clips state) as [|c l]; cbn [truthy_list negb].
    + state_simpl. discriminate.
    + destruct (select_try (env w) (c :: l)) as [[selected|e] out].
      * destruct selected; cbn [truthy_list negb]; state_simpl;
          [discriminate|].
        cbn [String.eqb Ascii.eqb Bool.eqb truthy_list negb].
        intro H; inversion H; cbn [entry_invariant]; state_simpl; auto.
      * state_simpl. cbn [String.eqb Ascii.eqb Bool.eqb].
        rewrite Hs. discriminate.
  - (* download_video *)
    intros Hp. unfold download_video_node.
    unfold _should_continue_after_download.
    destruct (truthy_opt_str (video_id state));
      match goal with
      | |- context [download w ?u ?v] =>
          destruct (download w u v) as [lw [d|e]]
      end;
      state_simpl; cbn [String.eqb Ascii.eqb Bool.eqb];
      try discriminate;
      (destruct (negb (truthy_opt_str (Some (dl_video_path d))));
       [discriminate|]);
      intro H; inversion H; cbn [entry_invariant]; state_simpl; auto.
  - (* generate_clips *)
    intros Hp. unfold generate_clips_node.
    unfold _should_continue_after_generation.
    match goal with
    | |- context [if ?b then set_errors _ _ else _] => destruct b
    end.
    + state_simpl. rewrite Hp.
      destruct (String.eqb (status state) "failed"); discriminate.
    + destruct (negb (truthy_list (selected_clips state))).
      * state_simpl. discriminate.
      * destruct (bind (open_video w state)
                    (fun _ => VideoSegment_init_all (selected_clips state)))
          as [clips|e]; [|state_simpl; discriminate].
        rewrite (surjective_pairing
                   (generation_loop w 1 clips [] (warnings state))).
        destruct (truthy_list
                    (filter success
                       (fst (generation_loop w 1 clips []
                               (warnings state))))) eqn:Et;
          state_simpl; cbn [String.eqb Ascii.eqb Bool.eqb];
          rewrite Et; cbn [negb]; [|discriminate].
        intro H; inversion H; cbn [entry_invariant]; auto.
  - discriminate.
Qed.

Lemma unsuccessful_is_last_from (w : World) :
  forall fuel n state pre m x post,
    entry_invariant n state ->
    invoke_from w fuel n state = pre ++ (m, x) :: post ->
    status x <> stage_status m ->
    post = [].
Proof.
  induction fuel as [|fuel IH]; intros n state pre m x post Hinv E Hx.
  - destruct pre; discriminate E.
  - cbn [invoke_from] in E.
    destruct pre as [|y pre]; cbn [app] in E.
    + injection E as En Es E2. subst m x.
      destruct (next_node n (node_function w n state)) as [n'|] eqn:Enext.
      * destruct (continue_implies_stage_status w n n' state Hinv Enext)
          as [Hst _].
        contradiction.
      * symmetry. exact E2.
    + injection E as E1 E2.
      destruct (next_node n (node_function w n state)) as [n'|] eqn:Enext.
      * destruct (continue_implies_stage_status w n n' state Hinv Enext)
          as [_ Hinv'].
        exact (IH n' _ pre m x post Hinv' E2 Hx).
      * destruct pre; discriminate E2.
Qed.

(** In a run of [process_video], a node that leaves any status other
    than its own success status (so "failed", but also "analysis_failed",
    "selection_failed", "clip_generation_failed" and the "no_clips_..."
    statuses) is the last node of the run. *)
Lemma unsuccessful_state_is_last (w : World) (url : string)
    (cfg : CustomConfig) (pre post : list (Node * PodcastState))
    (m : Node) (x : PodcastState) :
  graph_trace w (initial_state w url cfg) = pre ++ (m, x) :: post ->
  status x <> stage_status m ->
  post = [].
Proof.
  intros E Hx.
  apply (unsuccessful_is_last_from w 6 fetch_transcript
           (initial_state w url cfg) pre m x post); [|exact E|exact Hx].
  cbn. auto.
Qed.

Lemma nth_error_last_app {A} (pre : list A) (x y : A) (j : nat) :
  (List.length pre <= j)%nat ->
  nth_error (pre ++ [x]) j = Some y ->
  j = List.length pre /\ y = x.
Proof.
  intros Hle H.
  assert (Hj : (j < List.length (pre ++ [x]))%nat)
    by (apply nth_error_Some; congruence).
  rewrite length_app in Hj. cbn in Hj.
  assert (j = List.length pre) by lia. subst j.
  rewrite nth_error_app2 in H by lia.
  rewrite Nat.sub_diag in H. cbn in H. inversion H. now split.
Qed.

(* ----------------------------------------------------------------- *)
(** ** The summary and the two ways [process_video] returns *)

Lemma next_node_not_first (n n' : Node) (state : PodcastState) :
  next_node n state = Some n' -> n' <> fetch_transcript.
Proof.
  destruct n; cbn [next_node]; intro H;
    try (match type of H with
         | (if ?b then _ else _) = _ => destruct b
         end);
    inversion H; discriminate.
Qed.

(** The nodes after the first leave [transcript] alone and never reset
    [video_duration]. *)
Lemma node_function_summary_fields (w : World) (n : Node)
    (state : PodcastState) :
  n <> fetch_transcript ->
  transcript (node_function w n state) = transcript state
  /\ (video_duration state <> None ->
      video_duration (node_function w n state) <> None).
Proof.
  intro Hn. destruct n; [congruence| | | | |]; cbn [node_function].
  - unfold analyze_content_node.
    destruct (negb (truthy_opt_str (transcript state))
              || negb (truthy_list (transcript_segments state)));
      [|destruct (analyze w state)]; state_simpl; split; auto.
  - unfold select_clips_node.
    destruct (negb (truthy_list (identified_clips state)));
      [state_simpl; split; auto|].
    destruct (select_try (env w) (identified_clips state))
      as [[selected|e] out];
      [destruct (negb (truthy_list selected))|];
      state_simpl; split; auto.
  - unfold download_video_node.
    destruct (truthy_opt_str (video_id state));
      match goal with
      | |- context [download w ?u ?v] =>
          destruct (download w u v) as [lw [d|e]]
      end;
      state_simpl; split; auto; discriminate.
  - unfold generate_clips_node.
    match goal with
    | |- context [if ?b then set_errors _ _ else _] => destruct b
    end; [state_simpl; split; auto|].
    destruct (negb (truthy_list (selected_clips state)));
      [state_simpl; split; auto|].
    destruct (bind (open_video w state)
                (fun _ => VideoSegment_init_all (selected_clips state)))
      as [clips|e]; [|state_simpl; split; auto].
    rewrite (surjective_pairing
               (generation_loop w 1 clips [] (warnings state))).
    destruct (truthy_list _); state_simpl; split; auto.
  - unfold generate_metadata_node.
    destruct (negb (truthy_list (processed_clips state)));
      [state_simpl; split; auto|].
    destruct (negb (truthy_list (filter success (processed_clips state))));
      [state_simpl; split; auto|].
    destruct (bind (from_env (env w)) _) as [processing|e];
      [|state_simpl; split; auto].
    rewrite (surjective_pairing (metadata_loop _ _ _ _ _ _ _)).
    state_simpl; split; auto.
Qed.

Lemma invoke_from_summary_fields (w : World) :
  forall fuel n state,
    n <> fetch_transcript ->
    transcript state <> None ->
    video_duration state <> None ->
    Forall (fun x => transcript x <> None /\ video_duration x <> None)
      (map snd (invoke_from w fuel n state)).
Proof.
  induction fuel as [|fuel IH]; intros n state Hn Ht Hd;
    cbn [invoke_from map snd]; [constructor|].
  destruct (node_function_summary_fields w n state Hn) as [Et Ed].
  assert (Ht' : transcript (node_function w n state) <> None)
    by (now rewrite Et).
  constructor; [split; [exact Ht'|now apply Ed]|].
  destruct (next_node n (node_function w n state)) as [n'|] eqn:En;
    [|constructor].
  apply IH; [exact (next_node_not_first _ _ _ En)|exact Ht'|now apply Ed].
Qed.

Lemma invoke_from_step (w : World) (fuel : nat) (n : Node)
    (state : PodcastState) :
  invoke_from w (S fuel) n state
  = (n, node_function w n state)
    :: match next_node n (node_function w n state) with
       | Some n' => invoke_from w fuel n' (node_function w n state)
       | None => []
       end.
Proof. reflexivity. Qed.

Lemma last_Forall {A} (P : A -> Prop) (a : A) (l : list A) (d : A) :
  Forall P (a :: l) -> P (last (a :: l) d).
Proof.
  revert a. induction l as [|b l IH]; intros a Hl;
    inversion Hl as [|? ? Ha Hl']; subst; [exact Ha|].
  change (P (last (b :: l) d)). now apply IH.
Qed.

(** [process_video] returns in one of two ways.  When the transcript
    fetch raised, the run ended after its first node, the summary raised
    on the missing transcript, and the state returned is the initial one
    with the two errors, the status "failed" and the warnings of the
    run.  Otherwise the summary is printed and the final state of the
    graph is returned with its completion stamp. *)
Lemma process_video_returns (w : World) (url0 : string) (cfg : CustomConfig) :
  let initial := initial_state w url0 cfg in
  (exists e,
      fetch_youtube_transcript w url0 = Raise e
      /\ graph_trace w initial
         = [(fetch_transcript, fetch_transcript_node w initial)]
      /\ process_video w url0 cfg
         = set_completed_at (Some (now w))
             (set_status "failed"
                (set_errors
                   ["Failed to fetch transcript: " +s+ e;
                    "Workflow execution failed: "
                    +s+ "object of type 'NoneType' has no len()"]
                   (set_warnings
                      (warnings (fetch_transcript_node w initial))
                      initial))))
  \/ ((exists r, fetch_youtube_transcript w url0 = Ok r)
      /\ transcript (graph_invoke w initial) <> None
      /\ process_video w url0 cfg
         = set_completed_at (Some (now w)) (graph_invoke w initial)).
Proof.
  intro initial.
  assert (Hd : video_duration (fetch_transcript_node w initial) <> None).
  { unfold fetch_transcript_node.
    destruct (fetch_youtube_transcript w _) as [[[t segs] src]|e];
      destruct (duration_of_length _) as [d|e'];
      state_simpl; try (destruct (created_at _)); state_simpl;
      discriminate. }
  destruct (fetch_youtube_transcript w url0) as [[[t segs] src]|e] eqn:Ef.
  - right.
    assert (Ht : transcript (fetch_transcript_node w initial) <> None).
    { unfold fetch_transcript_node. subst initial.
      change (url (initial_state w url0 cfg)) with url0.
      rewrite Ef.
      destruct (duration_of_length _) as [d|e'];
        state_simpl; discriminate. }
    assert (Hl : transcript (graph_invoke w initial) <> None
                 /\ video_duration (graph_invoke w initial) <> None).
    { unfold graph_invoke, graph_trace. rewrite invoke_from_step.
      cbn [map snd node_function].
      apply (last_Forall
               (fun x => transcript x <> None /\ video_duration x <> None)).
      constructor; [split; assumption|].
      destruct (next_node fetch_transcript
                  (fetch_transcript_node w initial)) as [n'|] eqn:En;
        [|constructor].
      apply invoke_from_summary_fields;
        [exact (next_node_not_first _ _ _ En)|assumption|assumption]. }
    destruct Hl as [Hl1 Hl2]. split; [now eexists|]. split; [exact Hl1|].
    unfold process_video, _print_summary. fold initial. state_simpl.
    destruct (video_duration (graph_invoke w initial)); [|congruence].
    destruct (transcript (graph_invoke w initial)); [|congruence].
    reflexivity.
  - left. exists e. split; [reflexivity|].
    assert (Hn : status (fetch_transcript_node w initial) = "failed"
                 /\ errors (fetch_transcript_node w initial)
                    = ["Failed to fetch transcript: " +s+ e]
                 /\ transcript (fetch_transcript_node w initial) = None).
    { unfold fetch_transcript_node. subst initial.
      change (url (initial_state w url0 cfg)) with url0.
      rewrite Ef.
      destruct (duration_of_length _) as [d|e'];
        state_simpl; repeat split. }
    destruct Hn as [Hs [He Ht]].
    assert (Et : graph_trace w initial
                 = [(fetch_transcript, fetch_transcript_node w initial)]).
    { unfold graph_trace. rewrite invoke_from_step. cbn [node_function].
      now rewrite (next_node_failed fetch_transcript _ Hs). }
    split; [exact Et|].
    unfold process_video, graph_invoke, _print_summary. fold initial.
    rewrite Et. cbn [map fst snd last]. state_simpl.
    destruct (video_duration (fetch_transcript_node w initial));
      [|congruence].
    rewrite Ht, He. reflexivity.
Qed.

(** What [fetch_transcript_node] does when the fetch raises. *)
Lemma fetch_transcript_node_raise (w : World) (state : PodcastState)
    (e : string) :
  fetch_youtube_transcript w (url state) = Raise e ->
  let state' := fetch_transcript_node w state in
  status state' = "failed"
  /\ errors state' = errors state ++ ["Failed to fetch transcript: " +s+ e]
  /\ same_clips state state'.
Proof.
  intros H state'. subst state'. unfold fetch_transcript_node, same_clips.
  rewrite H.
  destruct (duration_of_length _) as [d|e'];
    state_simpl; repeat split.
Qed.

(** C3. In every run of [process_video], once a state of the run has
    [status] "failed", it is the last one: no later state exists, so no
    stage executed afterwards changes [identified_clips],
    [selected_clips] or [processed_clips], and the state the run returns
    holds the three lists as they were when the status became "failed". *)
Theorem failed_state_keeps_clips :
  forall (w : World) (url : string) (cfg : CustomConfig)
         (i j : nat) (si sj : PodcastState),
    (i <= j)%nat ->
    nth_error (run_states w url cfg) i = Some si ->
    status si = "failed" ->
    nth_error (run_states w url cfg) j = Some sj ->
    same_clips si sj
    /\ same_clips si (process_video w url cfg)
    /\ j = i.
Proof.
  intros w url0 cfg i j si sj Hij Hi Hf Hj. unfold run_states in *.
  destruct i as [|i].
  - cbn in Hi. inversion Hi; subst si. discriminate Hf.
  - destruct j as [|j]; [lia|]. cbn [nth_error] in Hi, Hj.
    destruct (nth_error_split _ _ Hi) as [pre [post [E Hlen]]].
    pose proof (failed_is_last w 6 fetch_transcript _ pre si post E Hf)
      as Hpost.
    subst post. rewrite E in Hj.
    destruct (nth_error_last_app pre si sj j) as [Hj' Hs]; [lia|exact Hj|].
    subst sj. split; [|split].
    + repeat split.
    + destruct (process_video_returns w url0 cfg)
        as [[e [Hf' [Et Ep]]]|[_ [_ Ep]]]; cbv zeta in *; rewrite Ep.
      * rewrite Et in E. cbn [map snd] in E.
        destruct pre as [|y pre]; [|destruct pre; discriminate E].
        injection E as <-.
        destruct (fetch_transcript_node_raise w
                    (initial_state w url0 cfg) e Hf') as [_ [_ Hc]].
        destruct Hc as [H1 [H2 H3]]. unfold same_clips. state_simpl.
        repeat split; symmetry; assumption.
      * unfold graph_invoke, same_clips. rewrite E.
        rewrite last_last. state_simpl. repeat split.
    + lia.
Qed.

Lemma failed_state_keeps_clips_witness :
  let final :=
    graph_invoke Sample.no_download
      (initial_state Sample.no_download "u" Sample.no_overrides) in
  status final = "failed"
  /\ same_clips final
       (process_video Sample.no_download "u" Sample.no_overrides).
Proof.
  cbv zeta. split; [vm_compute; reflexivity|].
  refine (proj1 (proj2
    (failed_state_keeps_clips Sample.no_download "u" Sample.no_overrides
       4 4
       (graph_invoke Sample.no_download
          (initial_state Sample.no_download "u" Sample.no_overrides))
       (graph_invoke Sample.no_download
          (initial_state Sample.no_download "u" Sample.no_overrides))
       (le_n 4) _ _ _))); vm_compute; reflexivity.
Defined.

(** C7. For every run of [process_video] in which the transcript fetch
    raises, the returned state has [status] "failed", a non-empty
    [errors] list (the message about the fetch, then the message of the
    summary that failed on the missing transcript), empty
    [selected_clips] and [processed_clips], and [fetch_transcript] is the
    only node that was executed. *)
Theorem transcript_failure_ends_run :
  forall (w : World) (url : string) (cfg : CustomConfig) (e : string),
    fetch_youtube_transcript w url = Raise e ->
    let final := process_video w url cfg in
    status final = "failed"
    /\ errors final
       = ["Failed to fetch transcript: " +s+ e;
          "Workflow execution failed: "
          +s+ "object of type 'NoneType' has no len()"]
    /\ errors final <> []
    /\ selected_clips final = []
    /\ processed_clips final = []
    /\ executed_nodes w url cfg = [fetch_transcript].
Proof.
  intros w url0 cfg e H final. subst final.
  destruct (process_video_returns w url0 cfg)
    as [[e' [Hf [Et Ep]]]|[[r Hr] _]]; cbv zeta in *; [|congruence].
  assert (e' = e) by congruence. subst e'.
  rewrite Ep. unfold executed_nodes. rewrite Et. state_simpl.
  cbn [selected_clips processed_clips initial_state map fst].
  repeat split. discriminate.
Qed.

Lemma transcript_failure_ends_run_witness :
  status (process_video Sample.no_transcript "u" Sample.no_overrides)
  = "failed"
  /\ executed_nodes Sample.no_transcript "u" Sample.no_overrides
     = [fetch_transcript].
Proof.
  assert (H0 : fetch_youtube_transcript Sample.no_transcript "u"
               = Raise "No transcript found for video abc")
    by reflexivity.
  pose proof (transcript_failure_ends_run Sample.no_transcript "u"
                Sample.no_overrides _ H0) as H.
  cbv zeta in H. destruct H as [Hs [_ [_ [_ [_ Hn]]]]].
  split; [exact Hs|exact Hn].
Defined.

(* ================================================================= *)
(** * Further properties of the run *)

Lemma next_node_successor (n n' : Node) (state : PodcastState) :
  next_node n state = Some n' -> successor n = Some n'.
Proof.
  destruct n; cbn [next_node successor]; intro H;
    try (match type of H with
         | (if ?b then _ else _) = _ => destruct b
         end);
    inversion H; reflexivity.
Qed.

Lemma chain_from_successor (n n' : Node) :
  successor n = Some n' -> chain_from n = n :: chain_from n'.
Proof. destruct n; intro H; inversion H; reflexivity. Qed.

Lemma chain_from_head (n : Node) : exists rest, chain_from n = n :: rest.
Proof. destruct n; eexists; reflexivity. Qed.

Lemma invoke_from_nodes (w : World) :
  forall fuel n state,
    exists k, map fst (invoke_from w fuel n state) = firstn k (chain_from n).
Proof.
  induction fuel as [|fuel IH]; intros n state.
  - exists 0%nat. reflexivity.
  - cbn [invoke_from map fst].
    destruct (next_node n (node_function w n state)) as [n'|] eqn:E.
    + apply next_node_successor in E.
      rewrite (chain_from_successor n n' E).
      destruct (IH n' (node_function w n state)) as [k Hk].
      exists (S k). cbn [firstn]. now rewrite Hk.
    + destruct (chain_from_head n) as [rest Hr]. rewrite Hr.
      exists 1%nat. reflexivity.
Qed.

Lemma executed_nodes_chain_prefix (w : World) (url : string)
    (cfg : CustomConfig) :
  exists k, (1 <= k <= 6)%nat /\ executed_nodes w url cfg = firstn k chain.
Proof.
  unfold executed_nodes, graph_trace.
  destruct (invoke_from_nodes w 6 fetch_transcript
              (initial_state w url cfg)) as [k Hk].
  change (chain_from fetch_transcript) with chain in Hk.
  assert (Hlen : List.length
                   (map fst (invoke_from w 6 fetch_transcript
                               (initial_state w url cfg)))
                 = Nat.min k 6).
  { rewrite Hk, length_firstn. reflexivity. }
  assert (Hpos : (1 <= List.length
                         (map fst (invoke_from w 6 fetch_transcript
                                     (initial_state w url cfg))))%nat).
  { cbn [invoke_from map List.length]. lia. }
  exists (Nat.min k 6). split; [lia|].
  rewrite Hk.
  destruct (Nat.le_ge_cases k 6) as [H|H].
  - now rewrite Nat.min_l.
  - rewrite Nat.min_r by exact H.
    rewrite firstn_all2 by (cbn; lia). reflexivity.
Qed.

(** X1. The nodes a run of the graph executes are always an initial
    part of the chain fetch_transcript, analyze_content, select_clips,
    download_video, generate_clips, generate_metadata: the run starts
    with [fetch_transcript], skips no node, repeats none, and executes
    between one and six of them. *)
Theorem executed_nodes_prefix_of_chain :
  forall (w : World) (url : string) (cfg : CustomConfig),
    exists k,
      (1 <= k <= 6)%nat
      /\ executed_nodes w url cfg = firstn k chain
      /\ List.length (executed_nodes w url cfg) = k.
Proof.
  intros w url0 cfg.
  destruct (executed_nodes_chain_prefix w url0 cfg) as [k [Hk Hn]].
  exists k. split; [exact Hk|]. split; [exact Hn|].
  rewrite Hn, length_firstn. cbn [chain List.length]. lia.
Qed.

Lemma truthy_list_nonempty {A} (l : list A) :
  truthy_list l = true <-> l <> [].
Proof. destruct l; cbn; split; intro H; congruence. Qed.

Lemma negb_truthy_false {A} (l : list A) :
  negb (truthy_list l) = false -> l <> [].
Proof.
  intro H. apply truthy_list_nonempty. now apply negb_false_iff.
Qed.

Ltac eqb_failed :=
  cbn [String.eqb Ascii.eqb Bool.eqb].

(** One node of a run: the status it can leave, what the next node may
    rely on, and what a successful last node has produced. *)
Lemma node_step_guarantee (w : World) (n : Node) (state : PodcastState) :
  entry_guarantee n state ->
  In (status (node_function w n state)) (statuses_after n)
  /\ (forall n', next_node n (node_function w n state) = Some n' ->
                 entry_guarantee n' (node_function w n state))
  /\ (n = generate_metadata ->
      status (node_function w n state) = "metadata_generated" ->
      complete_result (node_function w n state)).
Proof.
  destruct n;
    cbn [entry_guarantee node_function next_node statuses_after].
  - (* fetch_transcript *)
    intros _. unfold fetch_transcript_node.
    unfold _should_continue_after_transcript.
    destruct (fetch_youtube_transcript w (url state)) as [[[t segs] src]|e];
      destruct (duration_of_length _) as [d|e'];
      state_simpl;
      try (destruct (created_at state)); state_simpl; eqb_failed;
      (split; [cbn; tauto|]); (split; [|discriminate]);
      intros n'; try discriminate;
      destruct (truthy_opt_str (Some t)) eqn:Et; cbn [negb];
      try discriminate;
      intro H; inversion H; cbn [entry_guarantee]; state_simpl; auto.
  - (* analyze_content *)
    intros [Hst Htr]. unfold analyze_content_node.
    unfold _should_continue_after_analysis.
    destruct (negb (truthy_opt_str (transcript state))
              || negb (truthy_list (transcript_segments state))).
    + state_simpl. rewrite Hst. eqb_failed.
      split; [cbn; tauto|]. split; [|discriminate].
      intros n'.
      destruct (negb (truthy_list (identified_clips state))) eqn:Ei;
        [discriminate|].
      intro H; inversion H; cbn [entry_guarantee]; state_simpl.
      split; [exact Htr|now apply negb_truthy_false].
    + destruct (analyze w state) as [clips|e]; state_simpl; eqb_failed;
        (split; [cbn; tauto|]); (split; [|discriminate]); intros n'.
      * destruct clips; cbn [truthy_list negb]; [discriminate|].
        intro H; inversion H; cbn [entry_guarantee]; state_simpl.
        split; [exact Htr|discriminate].
      * destruct (negb (truthy_list (identified_clips state))) eqn:Ei;
          [discriminate|].
        intro H; inversion H; cbn [entry_guarantee]; state_simpl.
        split; [exact Htr|now apply negb_truthy_false].
  - (* select_clips *)
    intros [Htr Hid]. unfold select_clips_node.
    unfold _should_continue_after_selection.
    destruct (identified_clips state) as [|c l] eqn:El; [congruence|].
    cbn [truthy_list negb].
    destruct (select_try (env w) (c :: l)) as [[selected|e] out].
    + destruct selected; cbn [truthy_list negb]; state_simpl; eqb_failed;
        cbn [truthy_list negb];
        (split; [cbn; tauto|]); (split; [|discriminate]); intros n';
        [discriminate|].
      intro H; inversion H; cbn [entry_guarantee]; state_simpl.
      rewrite El. repeat split; try exact Htr; discriminate.
    + state_simpl. eqb_failed.
      split; [cbn; tauto|]. split; [|discriminate]. intros n'.
      destruct (negb (truthy_list (selected_clips state))) eqn:Es;
        [discriminate|].
      intro H; inversion H; cbn [entry_guarantee]; state_simpl.
      rewrite El. repeat split; try exact Htr; try discriminate.
      now apply negb_truthy_false.
  - (* download_video *)
    intros [Htr [Hid Hsel]]. unfold download_video_node.
    unfold _should_continue_after_download.
    destruct (truthy_opt_str (video_id state));
      match goal with
      | |- context [download w ?u ?v] =>
          destruct (download w u v) as [lw [d|e]]
      end;
      state_simpl; eqb_failed;
      (split; [cbn; tauto|]); (split; [|discriminate]); intros n';
      try discriminate;
      destruct (truthy_opt_str (Some (dl_video_path d))) eqn:Ep;
      cbn [negb]; try discriminate;
      intro H; inversion H; cbn [entry_guarantee]; state_simpl;
      repeat split; auto.
  - (* generate_clips *)
    intros [Htr [Hid [Hsel [Hst Hvp]]]]. unfold generate_clips_node.
    unfold _should_continue_after_generation.
    match goal with
    | |- context [if ?b then set_errors _ _ else _] => destruct b
    end.
    + state_simpl. rewrite Hst. eqb_failed.
      split; [cbn; tauto|]. split; [|discriminate]. intros n'.
      destruct (truthy_list (filter success (processed_clips state)))
        eqn:Ep; cbn [negb]; [|discriminate].
      intro H; inversion H; cbn [entry_guarantee]; state_simpl.
      repeat split; auto. now apply truthy_list_nonempty.
    + destruct (selected_clips state) as [|c l] eqn:El; [congruence|].
      cbn [truthy_list negb].
      destruct (bind (open_video w state)
                  (fun _ => VideoSegment_init_all (c :: l)))
        as [clips|e].
      * rewrite (surjective_pairing
                   (generation_loop w 1 clips [] (warnings state))).
        destruct (truthy_list
                    (filter success
                       (fst (generation_loop w 1 clips []
                               (warnings state))))) eqn:Et;
          state_simpl; eqb_failed; rewrite Et; cbn [negb];
          (split; [cbn; tauto|]); (split; [|discriminate]); intros n';
          [|discriminate].
        intro H; inversion H; cbn [entry_guarantee]; state_simpl.
        rewrite El. repeat split; auto; try discriminate.
        now apply truthy_list_nonempty.
      * state_simpl. eqb_failed.
        split; [cbn; tauto|]. split; [|discriminate]. discriminate.
  - (* generate_metadata *)
    intros [Htr [Hid [Hsel [Hvp Hok]]]]. unfold generate_metadata_node.
    destruct (processed_clips state) as [|pc pcs] eqn:Ep;
      [cbn in Hok; congruence|].
    cbn [truthy_list negb].
    destruct (filter success (pc :: pcs)) as [|sc scs] eqn:Ef;
      [congruence|].
    cbn [truthy_list negb].
    destruct (bind (from_env (env w)) _) as [processing|e].
    + rewrite (surjective_pairing (metadata_loop _ _ _ _ _ _ _)).
      state_simpl. split; [cbn; tauto|]. split; [discriminate|].
      intros _ _. unfold complete_result. state_simpl.
      rewrite Ep, Ef. repeat split; auto; discriminate.
    + state_simpl. split; [cbn; tauto|]. split; [discriminate|].
      intros _ H. discriminate H.
Qed.

(** The facts of [node_step_guarantee] along a whole run. *)
Lemma invoke_from_guarantee (w : World) :
  forall fuel n state,
    entry_guarantee n state ->
    Forall (fun mx =>
              In (status (snd mx)) (statuses_after (fst mx))
              /\ (fst mx = generate_metadata ->
                  status (snd mx) = "metadata_generated" ->
                  complete_result (snd mx)))
           (invoke_from w fuel n state).
Proof.
  induction fuel as [|fuel IH]; intros n state Hg; [constructor|].
  cbn [invoke_from].
  destruct (node_step_guarantee w n state Hg) as [Hin [Hnext Hdone]].
  constructor; [cbn [fst snd]; split; assumption|].
  destruct (next_node n (node_function w n state)) as [n'|];
    [|constructor].
  apply IH. now apply Hnext.
Qed.

(** X2. In a run of the graph from any state, the status a node leaves
    is one of a few values fixed per node: "transcript_fetched" or
    "failed" after the fetch; "clips_identified", "analysis_failed" or
    the untouched "transcript_fetched" after the analysis;
    "clips_selected", "no_clips_passed_validation" or "selection_failed"
    after the selection; "video_downloaded" or "failed" after the
    download; "clips_generated", "clip_generation_failed", "failed" or
    the untouched "video_downloaded" after the generation;
    "metadata_generated" or "failed" after the metadata.  In particular
    the statuses "no_clips_identified" and "no_clips_to_generate" never
    occur in a run: the routers end the run before the guards that set
    them could be taken. *)
Theorem run_status_table :
  forall (w : World) (state : PodcastState) (n : Node) (x : PodcastState),
    In (n, x) (graph_trace w state) ->
    In (status x) (statuses_after n)
    /\ status x <> "no_clips_identified"
    /\ status x <> "no_clips_to_generate".
Proof.
  intros w state n x Hin.
  pose proof (invoke_from_guarantee w 6 fetch_transcript state I) as HF.
  rewrite Forall_forall in HF.
  destruct (HF (n, x) Hin) as [Ht _]. cbn [fst snd] in Ht.
  split; [exact Ht|].
  destruct n; cbn in Ht; split; intro E; rewrite E in Ht;
    repeat (destruct Ht as [Ht|Ht]; [discriminate Ht|]); exact Ht.
Qed.

Lemma run_status_table_witness :
  In (status (graph_invoke Sample.no_download
                (initial_state Sample.no_download "u" Sample.no_overrides)))
     (statuses_after download_video).
Proof.
  apply (run_status_table Sample.no_download
           (initial_state Sample.no_download "u" Sample.no_overrides)
           download_video).
  vm_compute. right. right. right. left. reflexivity.
Defined.

Lemma graph_trace_last (w : World) (state : PodcastState) :
  exists pre m x,
    graph_trace w state = pre ++ [(m, x)]
    /\ graph_invoke w state = x.
Proof.
  unfold graph_invoke.
  destruct (exists_last (l := graph_trace w state)) as [pre [[m x] E]].
  - unfold graph_trace. cbn [invoke_from]. discriminate.
  - exists pre, m, x. split; [exact E|].
    rewrite E, map_app. cbn [map snd]. apply last_last.
Qed.

(** X3. When [process_video] returns a state with status
    "metadata_generated", all six nodes were executed, in order, and the
    state holds a transcript, identified clips, selected clips, a video
    path and at least one successfully generated clip. *)
Theorem metadata_generated_means_complete :
  forall (w : World) (url : string) (cfg : CustomConfig),
    status (process_video w url cfg) = "metadata_generated" ->
    executed_nodes w url cfg = chain
    /\ complete_result (process_video w url cfg).
Proof.
  intros w url0 cfg Hst.
  destruct (process_video_returns w url0 cfg)
    as [[e [_ [_ Ep]]]|[_ [_ Ep]]]; cbv zeta in Ep; rewrite Ep in *;
    [discriminate Hst|].
  cbn [status set_completed_at] in Hst.
  destruct (graph_trace_last w (initial_state w url0 cfg))
    as [pre [m [x [E Ex]]]].
  rewrite Ex in *.
  pose proof (invoke_from_guarantee w 6 fetch_transcript
                (initial_state w url0 cfg) I) as HF.
  fold (graph_trace w (initial_state w url0 cfg)) in HF.
  rewrite E in HF. apply Forall_app in HF. destruct HF as [_ HF].
  inversion HF as [|? ? [Ht Hdone] _]; subst. cbn [fst snd] in *.
  assert (Hm : m = generate_metadata).
  { rewrite Hst in Ht.
    destruct m; cbn in Ht;
      repeat (destruct Ht as [Ht|Ht]; [try discriminate Ht|]);
      try contradiction; reflexivity. }
  subst m. split.
  - destruct (executed_nodes_chain_prefix w url0 cfg) as [k [Hk Hn]].
    unfold executed_nodes in *. rewrite E, map_app in *.
    cbn [map fst] in *.
    assert (Hl : last (map fst pre ++ [generate_metadata]) fetch_transcript
                 = generate_metadata) by apply last_last.
    rewrite Hn in Hl. rewrite Hn.
    destruct k as [|[|[|[|[|[|[|k]]]]]]]; try lia;
      cbn in Hl; try discriminate Hl; reflexivity.
  - specialize (Hdone eq_refl Hst). unfold complete_result in *.
    state_simpl. exact Hdone.
Qed.

Lemma metadata_generated_means_complete_witness :
  executed_nodes Demo.all_ok "u" Sample.no_overrides = chain.
Proof.
  refine (proj1 (metadata_generated_means_complete
                   Demo.all_ok "u" Sample.no_overrides _)).
  vm_compute. reflexivity.
Defined.

(* ----------------------------------------------------------------- *)
(** ** The logs only grow *)

Lemma continues_refl (s : PodcastState) : continues s s.
Proof.
  unfold continues. repeat split; try (exists []; now rewrite app_nil_r).
Qed.

Lemma continues_trans (a b c : PodcastState) :
  continues a b -> continues b c -> continues a c.
Proof.
  unfold continues.
  intros [[e1 He1] [[w1 Hw1] [Hu1 [Hc1 [Ha1 Ht1]]]]]
         [[e2 He2] [[w2 Hw2] [Hu2 [Hc2 [Ha2 Ht2]]]]].
  split; [exists (e1 ++ e2); now rewrite He2, He1, app_assoc|].
  split; [exists (w1 ++ w2); now rewrite Hw2, Hw1, app_assoc|].
  repeat split; try congruence.
  intro H. rewrite <- (Ht1 H). apply Ht2. now rewrite (Ht1 H).
Qed.

Lemma generation_loop_warnings (w : World) :
  forall clips i processed warns,
    exists added,
      snd (generation_loop w i clips processed warns) = warns ++ added.
Proof.
  induction clips as [|c clips IH]; intros i processed warns;
    cbn [generation_loop].
  - exists []. cbn. now rewrite app_nil_r.
  - destruct (render_clip w i c _) as [r|e].
    + apply IH.
    + destruct (IH (S i)
                  (processed ++
                     [{| success := false; output_path := None;
                         pr_errors :=
                           ["Failed to generate clip " +s+ str_of_nat i
                            +s+ ": " +s+ e];
                         pr_metadata := None;
                         processing_time := Some (failure_time w i);
                         clip_index := i; segment_data := c;
                         file_size_mb := None; thumbnail_path := None;
                         filename :=
                           "failed_clip_" +s+ str_of_nat i +s+ ".mp4" |}])
                  (warns ++
                     ["Failed to generate clip " +s+ str_of_nat i
                      +s+ ": " +s+ e])) as [added Ha].
      eexists. rewrite Ha, <- app_assoc. reflexivity.
Qed.

Lemma metadata_loop_warnings (w : World) (delay : F64.t) (n : nat) :
  forall clips i generated warns,
    exists added,
      snd (metadata_loop w delay n i clips generated warns)
      = warns ++ added.
Proof.
  induction clips as [|c clips IH]; intros i generated warns;
    cbn [metadata_loop].
  - exists []. cbn. now rewrite app_nil_r.
  - destruct (clip_metadata w i c) as [[m|]|e]; cbv beta iota zeta;
      try destruct (if (i <? n)%nat
                    then sleep (sleep_too_long w) delay else Ok tt)
        as [u|e'];
      match goal with
      | |- exists added,
             snd (metadata_loop _ _ _ _ _ ?g ?ws) = _ =>
          destruct (IH (S i) g ws) as [added Ha]; rewrite Ha
      end;
      rewrite <- ?app_assoc; eexists; reflexivity.
Qed.

Ltac log_grows :=
  solve [ exists []; now rewrite app_nil_r
        | eexists; reflexivity
        | eexists; rewrite <- app_assoc; reflexivity ].

(** Every node appends to [errors] and [warnings] and leaves [url],
    [config] and [audio_path] alone. *)
Lemma node_function_continues (w : World) (n : Node)
    (state : PodcastState) :
  continues state (node_function w n state).
Proof.
  unfold continues. destruct n; cbn [node_function].
  - unfold fetch_transcript_node.
    destruct (fetch_youtube_transcript w (url state)) as [[[t segs] src]|e];
      destruct (duration_of_length _) as [d|e'];
      state_simpl;
      try (destruct (created_at state) eqn:Ec); state_simpl;
      repeat split; try log_grows; try congruence.
  - unfold analyze_content_node.
    destruct (negb (truthy_opt_str (transcript state))
              || negb (truthy_list (transcript_segments state)));
      [|destruct (analyze w state)];
      state_simpl; repeat split; log_grows.
  - unfold select_clips_node.
    destruct (identified_clips state) as [|c l]; cbn [truthy_list negb];
      [|destruct (select_try (env w) (c :: l)) as [[[|s sel]|e] out];
        cbn [truthy_list negb]];
      state_simpl; repeat split; log_grows.
  - unfold download_video_node.
    destruct (truthy_opt_str (video_id state));
      match goal with
      | |- context [download w ?u ?v] =>
          destruct (download w u v) as [[lw|] [d|e]]
      end;
      cbn [append_opt]; state_simpl; repeat split; log_grows.
  - unfold generate_clips_node.
    match goal with
    | |- context [if ?b then set_errors _ _ else _] => destruct b
    end; [state_simpl; repeat split; log_grows|].
    destruct (negb (truthy_list (selected_clips state)));
      [state_simpl; repeat split; log_grows|].
    destruct (bind (open_video w state)
                (fun _ => VideoSegment_init_all (selected_clips state)))
      as [clips|e]; [|state_simpl; repeat split; log_grows].
    rewrite (surjective_pairing
               (generation_loop w 1 clips [] (warnings state))).
    destruct (generation_loop_warnings w clips 1 [] (warnings state))
      as [added Ha].
    destruct (truthy_list _); state_simpl; repeat split;
      try log_grows; exists added; exact Ha.
  - unfold generate_metadata_node.
    destruct (negb (truthy_list (processed_clips state)));
      [state_simpl; repeat split; log_grows|].
    destruct (negb (truthy_list (filter success (processed_clips state))));
      [state_simpl; repeat split; log_grows|].
    destruct (bind (from_env (env w)) _) as [processing|e];
      [|state_simpl; repeat split; log_grows].
    rewrite (surjective_pairing (metadata_loop _ _ _ _ _ _ _)).
    destruct (metadata_loop_warnings w (api_rate_limit_delay processing)
                (List.length (filter success (processed_clips state)))
                (filter success (processed_clips state)) 1 []
                (warnings state)) as [added Ha].
    state_simpl; repeat split; try log_grows. exists added; exact Ha.
Qed.

Lemma invoke_from_linked (w : World) :
  forall fuel n state,
    linked continues state (map snd (invoke_from w fuel n state)).
Proof.
  induction fuel as [|fuel IH]; intros n state; cbn [invoke_from map linked];
    [exact I|].
  split; [apply node_function_continues|].
  destruct (next_node n (node_function w n state)) as [n'|];
    [apply IH|exact I].
Qed.

Lemma linked_reach {A} (R : A -> A -> Prop)
    (Rtrans : forall a b c, R a b -> R b c -> R a c) :
  forall l s j b, linked R s l -> nth_error l j = Some b -> R s b.
Proof.
  induction l as [|x l IH]; intros s j b Hl Hj.
  - destruct j; discriminate Hj.
  - destruct Hl as [Hsx Hl]. destruct j as [|j]; cbn in Hj.
    + inversion Hj; subst. exact Hsx.
    + apply Rtrans with x; [exact Hsx|]. exact (IH x j b Hl Hj).
Qed.

Lemma linked_nth {A} (R : A -> A -> Prop)
    (Rrefl : forall a, R a a)
    (Rtrans : forall a b c, R a b -> R b c -> R a c) :
  forall l s i j a b,
    linked R s l -> (i <= j)%nat ->
    nth_error (s :: l) i = Some a -> nth_error (s :: l) j = Some b ->
    R a b.
Proof.
  induction l as [|x l IH]; intros s i j a b Hl Hij Hi Hj.
  - destruct i as [|i]; [|destruct i; discriminate Hi].
    destruct j as [|j]; [|destruct j; discriminate Hj].
    cbn in Hi, Hj. inversion Hi; inversion Hj; subst. apply Rrefl.
  - destruct i as [|i].
    + cbn in Hi. inversion Hi; subst a.
      destruct j as [|j]; cbn in Hj.
      * inversion Hj; subst. apply Rrefl.
      * exact (linked_reach R Rtrans (x :: l) s j b Hl Hj).
    + destruct j as [|j]; [lia|]. destruct Hl as [_ Hl].
      cbn [nth_error] in Hi, Hj.
      apply (IH x i j a b Hl); [lia|exact Hi|exact Hj].
Qed.

Lemma nth_error_length_last {A} :
  forall (l : list A) (d : A),
    nth_error (d :: l) (List.length l) = Some (last l d).
Proof.
  induction l as [|x l IH]; intro d; [reflexivity|].
  cbn [List.length nth_error]. rewrite (IH x).
  destruct l as [|y l]; [reflexivity|].
  f_equal. clear IH. revert y. induction l as [|z l IHl]; intro y.
  - reflexivity.
  - cbn [last] in *. apply (IHl z).
Qed.

(** X4. Along a run of [process_video] the logs are append-only: for any
    two states of the run, the later one has the [errors] and [warnings]
    of the earlier one as a prefix, and the same [url], [config],
    [audio_path] and creation stamp; the same holds between any state of
    the run and the state [process_video] returns. *)
Theorem run_logs_append_only :
  forall (w : World) (url : string) (cfg : CustomConfig)
         (i j : nat) (si sj : PodcastState),
    (i <= j)%nat ->
    nth_error (run_states w url cfg) i = Some si ->
    nth_error (run_states w url cfg) j = Some sj ->
    continues si sj /\ continues sj (process_video w url cfg).
Proof.
  intros w url0 cfg i j si sj Hij Hi Hj. unfold run_states in *.
  pose proof (invoke_from_linked w 6 fetch_transcript
                (initial_state w url0 cfg)) as Hl.
  fold (graph_trace w (initial_state w url0 cfg)) in Hl.
  split.
  - exact (linked_nth continues continues_refl continues_trans
             _ _ i j si sj Hl Hij Hi Hj).
  - apply continues_trans with (graph_invoke w (initial_state w url0 cfg)).
    + unfold graph_invoke.
      set (l := map snd (graph_trace w (initial_state w url0 cfg))) in *.
      clearbody l.
      pose proof (nth_error_length_last l (initial_state w url0 cfg))
        as Hlast.
      assert (Hjl : (j <= List.length l)%nat).
      { assert (Hlt : (j < List.length (initial_state w url0 cfg :: l))%nat)
          by (apply nth_error_Some; congruence).
        cbn [List.length] in Hlt. lia. }
      exact (linked_nth continues continues_refl continues_trans
               _ _ j (List.length l) sj _ Hl Hjl Hj Hlast).
    + destruct (process_video_returns w url0 cfg)
        as [[e [Hf [Et Ep]]]|[_ [_ Ep]]]; cbv zeta in *; rewrite Ep.
      * unfold graph_invoke. rewrite Et. cbn [map snd last].
        destruct (fetch_transcript_node_raise w
                    (initial_state w url0 cfg) e Hf) as [_ [He _]].
        destruct (node_function_continues w fetch_transcript
                    (initial_state w url0 cfg))
          as [_ [_ [Hu [Hc [Ha Hcr]]]]].
        cbn [node_function] in Hu, Hc, Ha, Hcr.
        unfold continues. state_simpl. rewrite He, Hu, Hc, Ha.
        rewrite Hcr by discriminate.
        split; [exists ["Workflow execution failed: "
                        +s+ "object of type 'NoneType' has no len()"];
                reflexivity|].
        split; [exists []; now rewrite app_nil_r|].
        repeat split.
      * unfold continues. state_simpl. repeat split; log_grows.
Qed.

Lemma run_logs_append_only_witness :
  continues (initial_state Demo.flaky_encoder "u" Sample.no_overrides)
    (process_video Demo.flaky_encoder "u" Sample.no_overrides).
Proof.
  refine (proj2 (run_logs_append_only Demo.flaky_encoder "u"
                   Sample.no_overrides 0 0 _ _ (le_n 0) eq_refl eq_refl)).
Defined.

(* ----------------------------------------------------------------- *)
(** ** More on [select_clips_node] *)

Lemma VideoSegment_init_all_raise :
  forall l c,
    In c l -> score_in_range c = false ->
    exists e, VideoSegment_init_all l = Raise e.
Proof.
  induction l as [|a l IH]; intros c Hin Hc; [contradiction|].
  cbn [VideoSegment_init_all]. unfold VideoSegment_init.
  destruct (score_in_range a) eqn:Ea; cbn [bind].
  - destruct Hin as [->|Hin]; [congruence|].
    destruct (IH c Hin Hc) as [e He]. rewrite He. cbn [bind].
    now exists e.
  - eexists; reflexivity.
Qed.

(** The state and status the node ends with when its [try] block
    returns a list. *)
Lemma select_clips_node_ok (env : Env) (p : ProcessingConfig)
    (state : PodcastState) :
  from_env env = Ok p ->
  VideoSegment_init_all (identified_clips state)
  = Ok (identified_clips state) ->
  identified_clips state <> [] ->
  let selected :=
    slice_to
      (sort_by_score_desc (filter (passes p) (identified_clips state)))
      (max_clips_per_video p) in
  fst (select_clips_node env state)
  = if negb (truthy_list selected) then
      set_status "no_clips_passed_validation"
        (set_selected_clips []
           (set_warnings
              (warnings state ++ ["No clips passed validation criteria"])
              state))
    else
      set_warnings (warnings state)
        (set_status "clips_selected" (set_selected_clips selected state)).
Proof.
  intros Hp Hv Hne selected. unfold select_clips_node.
  destruct (identified_clips state) as [|c l] eqn:El; [congruence|].
  cbn [truthy_list negb].
  rewrite (select_try_ok env p (c :: l) Hp Hv). cbv zeta.
  fold selected. destruct (negb (truthy_list selected)); reflexivity.
Qed.

(** X5. When the configuration loads and the stored clips are well
    formed, [select_clips_node] ends with status
    "no_clips_passed_validation" exactly when the slice of the ranked
    survivors is empty; it then stores no selected clip, appends the one
    warning "No clips passed validation criteria" and leaves [errors]
    alone.  This happens when every clip is out of bounds (its measured
    duration is a number below the minimum or above the maximum, or its
    score is too low), and also when [MAX_CLIPS_PER_VIDEO] is 0, whatever
    the clips. *)
Theorem select_clips_node_nothing_selected :
  forall (env : Env) (p : ProcessingConfig) (state : PodcastState),
    from_env env = Ok p ->
    VideoSegment_init_all (identified_clips state)
    = Ok (identified_clips state) ->
    identified_clips state <> [] ->
    let state' := fst (select_clips_node env state) in
    let selected :=
      slice_to
        (sort_by_score_desc (filter (passes p) (identified_clips state)))
        (max_clips_per_video p) in
    (status state' = "no_clips_passed_validation" <-> selected = [])
    /\ (selected = [] ->
        selected_clips state' = []
        /\ warnings state'
           = warnings state ++ ["No clips passed validation criteria"]
        /\ errors state' = errors state)
    /\ ((forall c, In c (identified_clips state) -> out_of_bounds p c) ->
        selected = [])
    /\ (max_clips_per_video p = 0%Z -> selected = []).
Proof.
  intros env p state Hp Hv Hne state' selected. subst state'.
  rewrite (select_clips_node_ok env p state Hp Hv Hne). fold selected.
  split; [|split; [|split]].
  - destruct selected as [|s sel]; cbn [truthy_list negb]; state_simpl;
      split; intro H; try reflexivity; discriminate H.
  - intro E. rewrite E. cbn [truthy_list negb]. state_simpl. repeat split.
  - intro Hall. subst selected.
    assert (E : filter (passes p) (identified_clips state) = []).
    { destruct (filter (passes p) (identified_clips state)) as [|c l] eqn:Ef;
        [reflexivity|].
      assert (Hin : In c (filter (passes p) (identified_clips state)))
        by (rewrite Ef; now left).
      apply filter_In in Hin. destruct Hin as [Hin Hpass].
      exfalso.
      exact (proj1 (passes_not_out_of_bounds p c) Hpass (Hall c Hin)). }
    rewrite E. apply slice_to_nil.
  - intro E. subst selected. rewrite E. apply slice_to_zero.
Qed.

Lemma select_clips_node_nothing_selected_witness :
  status (fst (select_clips_node (Sample.env_of 0 25 35)
                 (Sample.analysed [Sample.valid])))
  = "no_clips_passed_validation".
Proof.
  apply (proj1 (select_clips_node_nothing_selected
                  (Sample.env_of 0 25 35)
                  {| max_clips_per_video := 0; min_clip_duration := 25;
                     max_clip_duration := 35; target_clip_duration := 30;
                     min_engagement_score := 75 # 10;
                     max_video_duration := 10800 |}
                  (Sample.analysed [Sample.valid])
                  eq_refl eq_refl
                  (fun H => @nil_cons _ Sample.valid [] (eq_sym H)))).
  reflexivity.
Defined.

(** X6. [select_clips_node] fails as a whole when the configuration
    cannot be loaded or when a single stored clip has a score outside
    [[1, 10]], even if all other clips are valid: the status becomes
    "selection_failed" (not "failed"), one message starting with
    "Clip selection failed: " is appended to [errors], and
    [selected_clips], [warnings] and [identified_clips] stay as they
    were. *)
Theorem select_clips_node_raises :
  forall (env : Env) (state : PodcastState),
    identified_clips state <> [] ->
    (exists e, from_env env = Raise e)
    \/ (exists c, In c (identified_clips state)
                  /\ score_in_range c = false) ->
    let state' := fst (select_clips_node env state) in
    status state' = "selection_failed"
    /\ (exists e,
           errors state'
           = errors state ++ ["Clip selection failed: " +s+ e])
    /\ selected_clips state' = selected_clips state
    /\ warnings state' = warnings state
    /\ identified_clips state' = identified_clips state.
Proof.
  intros env state Hne Hbad state'. subst state'.
  unfold select_clips_node.
  destruct (identified_clips state) as [|c l] eqn:El; [congruence|].
  cbn [truthy_list negb].
  assert (Ht : exists e out, select_try env (c :: l) = (Raise e, out)).
  { unfold select_try. destruct (from_env env) as [p|e] eqn:Ep.
    - destruct Hbad as [[e He]|[b [Hin Hb]]]; [discriminate He|].
      destruct (VideoSegment_init_all_raise (c :: l) b Hin Hb) as [e He].
      rewrite He. now exists e, [PrintValidating (List.length (c :: l))].
    - now exists e, []. }
  destruct Ht as [e [out Ht]]. rewrite Ht. state_simpl.
  rewrite El. repeat split. now exists e.
Qed.

Lemma select_clips_node_raises_witness :
  status (fst (select_clips_node (Sample.env_of 3 25 35)
                 (Sample.analysed
                    [Sample.valid; Sample.clip 0 30 11 "score 11"])))
  = "selection_failed".
Proof.
  refine (proj1 (select_clips_node_raises
                   (Sample.env_of 3 25 35)
                   (Sample.analysed
                      [Sample.valid; Sample.clip 0 30 11 "score 11"])
                   (fun H => @nil_cons _ Sample.valid _ (eq_sym H))
                   (or_intror
                      (ex_intro _ (Sample.clip 0 30 11 "score 11")
                         (conj (or_intror (or_introl eq_refl)) eq_refl))))).
Defined.

(** X7. When [select_clips_node] ends with status "clips_selected", the
    stored [selected_clips] are not empty, are in descending score order
    and are all taken from [identified_clips]; none of them is out of
    bounds, and each of them whose measured duration is a number (not
    NaN) is within the configured bounds; for a configured maximum that
    is not negative they are at most that many (and the maximum is then
    at least 1). *)
Theorem select_clips_node_selected_bounded :
  forall (env : Env) (state : PodcastState),
    let state' := fst (select_clips_node env state) in
    status state' = "clips_selected" ->
    exists p,
      from_env env = Ok p
      /\ selected_clips state' <> []
      /\ StronglySorted score_ge (selected_clips state')
      /\ (forall clip, In clip (selected_clips state') ->
                       In clip (identified_clips state)
                       /\ ~ out_of_bounds p clip
                       /\ (F64.is_nan (duration clip) = false ->
                           within_bounds p clip))
      /\ (List.length (selected_clips state')
          <= List.length (identified_clips state))%nat
      /\ ((0 <= max_clips_per_video p)%Z ->
          (1 <= max_clips_per_video p)%Z
          /\ (Z.of_nat (List.length (selected_clips state'))
              <= max_clips_per_video p)%Z).
Proof.
  intros env state state' Hst.
  destruct (select_clips_node_selected env state Hst)
    as [p [Hp [Hsel [Hne [Hsorted Hin]]]]].
  fold state' in Hsel, Hne, Hsorted, Hin.
  exists p. split; [exact Hp|]. split; [exact Hne|].
  split; [exact Hsorted|]. split; [exact Hin|].
  assert (Hlen : (List.length
                    (sort_by_score_desc
                       (filter (passes p) (identified_clips state)))
                  <= List.length (identified_clips state))%nat).
  { rewrite <- (Permutation_length (sort_by_score_desc_perm _)).
    apply filter_length_le. }
  split.
  - rewrite Hsel.
    destruct (slice_to_prefix
                (sort_by_score_desc
                   (filter (passes p) (identified_clips state)))
                (max_clips_per_video p)) as [rest Er].
    rewrite Er in Hlen at 1. rewrite length_app in Hlen. lia.
  - intro Hmax.
    assert (Hl : List.length (selected_clips state')
                 = Nat.min (Z.to_nat (max_clips_per_video p))
                     (List.length
                        (sort_by_score_desc
                           (filter (passes p) (identified_clips state)))))
      by (rewrite Hsel; now apply slice_to_nonneg_length).
    assert (Hpos : (1 <= List.length (selected_clips state'))%nat).
    { destruct (selected_clips state'); [congruence|cbn; lia]. }
    lia.
Qed.

Lemma select_clips_node_selected_bounded_witness :
  exists p,
    from_env (Sample.env_of 3 25 35) = Ok p
    /\ selected_clips
         (fst (select_clips_node (Sample.env_of 3 25 35)
                 (Sample.analysed [Sample.too_long; Sample.valid])))
       <> [].
Proof.
  destruct (select_clips_node_selected_bounded
              (Sample.env_of 3 25 35)
              (Sample.analysed [Sample.too_long; Sample.valid])
              eq_refl) as [p [Hp [Hne _]]].
  exists p. split; [exact Hp|exact Hne].
Defined.

(** A number at or above an int is above every smaller int. *)
Lemma geb_Z_gtb_Z_smaller (x : F64.t) (z1 z2 : Z) :
  (z2 < z1)%Z -> F64.geb_Z x z1 = true -> F64.gtb_Z x z2 = true.
Proof.
  intros Hz. unfold F64.geb_Z, F64.gtb_Z.
  assert (Hc : forall a b1 b2 : Z,
             (b2 < b1)%Z ->
             match (a ?= b1)%Z with Gt | Eq => true | _ => false end = true ->
             (a ?= b2)%Z = Gt).
  { intros a b1 b2 Hb H. apply Z.compare_gt_iff.
    destruct (Z.compare_spec a b1); [lia|discriminate H|lia]. }
  destruct x as [s|s| |s m e]; cbn [F64.compare_Z].
  - intro H. now rewrite (Hc 0%Z z1 z2 Hz H).
  - destruct s; intro H; [discriminate H|reflexivity].
  - discriminate.
  - destruct e as [|q|q]; intro H.
    + now rewrite (Hc _ z1 z2 Hz H).
    + now rewrite (Hc _ z1 z2 Hz H).
    + assert (Hq : (z2 * 2 ^ Z.pos q < z1 * 2 ^ Z.pos q)%Z).
      { apply Z.mul_lt_mono_pos_r; [|exact Hz].
        apply Z.pow_pos_nonneg; lia. }
      now rewrite (Hc _ _ _ Hq H).
Qed.

(** A number at or below an int is below every larger int. *)
Lemma leb_Z_ltb_Z_larger (x : F64.t) (z1 z2 : Z) :
  (z1 < z2)%Z -> F64.leb_Z x z1 = true -> F64.ltb_Z x z2 = true.
Proof.
  intros Hz. unfold F64.leb_Z, F64.ltb_Z.
  assert (Hc : forall a b1 b2 : Z,
             (b1 < b2)%Z ->
             match (a ?= b1)%Z with Lt | Eq => true | _ => false end = true ->
             (a ?= b2)%Z = Lt).
  { intros a b1 b2 Hb H. apply Z.compare_lt_iff.
    destruct (Z.compare_spec a b1); [lia|lia|discriminate H]. }
  destruct x as [s|s| |s m e]; cbn [F64.compare_Z].
  - intro H. now rewrite (Hc 0%Z z1 z2 Hz H).
  - destruct s; intro H; [reflexivity|discriminate H].
  - discriminate.
  - destruct e as [|q|q]; intro H.
    + now rewrite (Hc _ z1 z2 Hz H).
    + now rewrite (Hc _ z1 z2 Hz H).
    + assert (Hq : (z1 * 2 ^ Z.pos q < z2 * 2 ^ Z.pos q)%Z).
      { apply Z.mul_lt_mono_pos_r; [|exact Hz].
        apply Z.pow_pos_nonneg; lia. }
      now rewrite (Hc _ _ _ Hq H).
Qed.

(** X8. [from_env] accepts a minimum clip duration above the maximum
    (the validator on [min_clip_duration] never sees
    [max_clip_duration]).  With such a configuration the only clips
    that can pass the validation loop are those whose measured duration
    is NaN, and [select_clips_node] ends with
    "no_clips_passed_validation" whenever no identified clip has such a
    duration. *)
Theorem inverted_duration_bounds_reject_everything :
  forall (max_clips min_d max_d : Z) (state : PodcastState),
    (max_d < min_d)%Z ->
    VideoSegment_init_all (identified_clips state)
    = Ok (identified_clips state) ->
    identified_clips state <> [] ->
    exists p,
      from_env (Sample.env_of max_clips min_d max_d) = Ok p
      /\ min_clip_duration p = min_d
      /\ max_clip_duration p = max_d
      /\ (forall clip, passes p clip = true ->
                       F64.is_nan (duration clip) = true)
      /\ ((forall clip, In clip (identified_clips state) ->
                        F64.is_nan (duration clip) = false) ->
          status
            (fst (select_clips_node (Sample.env_of max_clips min_d max_d)
                    state))
          = "no_clips_passed_validation").
Proof.
  intros mx mn mxd state Hinv Hv Hne.
  set (p := {| max_clips_per_video := mx; min_clip_duration := mn;
               max_clip_duration := mxd; target_clip_duration := 30;
               min_engagement_score := 75 # 10;
               max_video_duration := 10800;
               api_rate_limit_delay := F64.of_Z 5 |}).
  assert (Hp : from_env (Sample.env_of mx mn mxd) = Ok p) by reflexivity.
  assert (Hrej : forall clip, passes p clip = true ->
                              F64.is_nan (duration clip) = true).
  { intros clip E.
    destruct (F64.is_nan (duration clip)) eqn:En; [reflexivity|].
    assert (Hw : within_bounds p clip)
      by (apply passes_within_bounds; now split).
    destruct Hw as [H1 [H2 _]].
    cbn [min_clip_duration max_clip_duration p] in H1, H2.
    pose proof (geb_Z_gtb_Z_smaller _ mn mxd Hinv H1) as H3.
    unfold F64.gtb_Z, F64.leb_Z in H2, H3.
    destruct (F64.compare_Z (duration clip) mxd) as [[]|]; discriminate. }
  exists p. split; [exact Hp|]. split; [reflexivity|].
  split; [reflexivity|]. split; [exact Hrej|].
  intro Hnum.
  rewrite (select_clips_node_ok _ p state Hp Hv Hne).
  assert (E : filter (passes p) (identified_clips state) = []).
  { destruct (filter (passes p) (identified_clips state)) as [|c l] eqn:Ef;
      [reflexivity|].
    assert (Hin : In c (filter (passes p) (identified_clips state)))
      by (rewrite Ef; now left).
    apply filter_In in Hin. destruct Hin as [Hin Hpass].
    specialize (Hnum c Hin). rewrite (Hrej c Hpass) in Hnum.
    discriminate Hnum. }
  rewrite E. cbn [sort_by_score_desc fold_right].
  rewrite slice_to_nil. reflexivity.
Qed.

Lemma inverted_duration_bounds_reject_everything_witness :
  exists p,
    from_env (Sample.env_of 3 40 30) = Ok p
    /\ min_clip_duration p = 40%Z
    /\ status
         (fst (select_clips_node (Sample.env_of 3 40 30)
                 (Sample.analysed [Sample.valid])))
       = "no_clips_passed_validation".
Proof.
  destruct (inverted_duration_bounds_reject_everything
              3 40 30 (Sample.analysed [Sample.valid])
              eq_refl eq_refl
              (fun H => @nil_cons _ Sample.valid [] (eq_sym H)))
    as [p [Hp [Hmin [_ [_ Hst]]]]].
  exists p. split; [exact Hp|]. split; [exact Hmin|].
  apply Hst. intros clip [<-|[]]. reflexivity.
Defined.

(* ----------------------------------------------------------------- *)
(** ** More on [convert_to_portrait] *)

(** *** The range of [a / b] *)

(** The number of binary digits of a significand below [2 ^ k]. *)
Lemma digits2_pos_le (p : positive) :
  forall k, (Zpos p < 2 ^ k)%Z -> (0 <= k)%Z -> (Zpos (digits2_pos p) <= k)%Z.
Proof.
  induction p as [p IH|p IH|]; intros k H Hk; cbn [digits2_pos];
    try rewrite Pos2Z.inj_succ.
  - assert (k <> 0)%Z by (intros ->; cbn in H; lia).
    replace k with (Z.succ (k - 1)) in H by lia.
    rewrite Z.pow_succ_r in H by lia.
    specialize (IH (k - 1)%Z). lia.
  - assert (k <> 0)%Z by (intros ->; cbn in H; lia).
    replace k with (Z.succ (k - 1)) in H by lia.
    rewrite Z.pow_succ_r in H by lia.
    specialize (IH (k - 1)%Z). lia.
  - assert (k <> 0)%Z by (intros ->; cbn in H; lia). lia.
Qed.

Lemma Zdigits2_le (m k : Z) :
  (0 <= m < 2 ^ k)%Z -> (0 <= k)%Z -> (Zdigits2 m <= k)%Z.
Proof.
  intros [H0 H] Hk. destruct m as [|p|p]; cbn; [lia| |lia].
  now apply digits2_pos_le.
Qed.

Lemma shr_1_half (mrs : shr_record) :
  (0 <= shr_m mrs)%Z ->
  (0 <= shr_m (shr_1 mrs) /\ 2 * shr_m (shr_1 mrs) <= shr_m mrs)%Z.
Proof.
  destruct mrs as [m r s]. destruct m as [|p|p]; cbn; intros H.
  - lia.
  - destruct p; cbn; lia.
  - lia.
Qed.

Lemma iter_pos_shr_1_le (p : positive) :
  forall mrs, (0 <= shr_m mrs)%Z ->
    (0 <= shr_m (iter_pos shr_1 p mrs)
     /\ shr_m (iter_pos shr_1 p mrs) * 2 ^ Zpos p <= shr_m mrs)%Z.
Proof.
  induction p as [p IH|p IH|]; intros mrs H; cbn [iter_pos].
  - destruct (shr_1_half mrs H) as [H1 H1'].
    destruct (IH _ H1) as [H2 H2'].
    destruct (IH _ H2) as [H3 H3'].
    split; [exact H3|].
    replace (Zpos p~1) with (Zpos p + Zpos p + 1)%Z by lia.
    rewrite !Z.pow_add_r, Z.pow_1_r by lia.
    pose proof (Z.pow_pos_nonneg 2 (Zpos p) eq_refl (Pos2Z.is_nonneg p)).
    nia.
  - destruct (IH _ H) as [H2 H2'].
    destruct (IH _ H2) as [H3 H3'].
    split; [exact H3|].
    replace (Zpos p~0) with (Zpos p + Zpos p)%Z by lia.
    rewrite !Z.pow_add_r by lia.
    pose proof (Z.pow_pos_nonneg 2 (Zpos p) eq_refl (Pos2Z.is_nonneg p)).
    nia.
  - destruct (shr_1_half mrs H) as [H1 H1']. split; [exact H1|].
    change (2 ^ 1)%Z with 2%Z. lia.
Qed.

Lemma shr_fexp_bound (K m e : Z) (l : location) :
  (0 <= K)%Z -> (e <= K - 53)%Z -> (0 <= m < 2 ^ (K - e))%Z ->
  (0 <= shr_m (fst (shr_fexp F64.prec F64.emax m e l))
        < 2 ^ (K - snd (shr_fexp F64.prec F64.emax m e l))
   /\ snd (shr_fexp F64.prec F64.emax m e l) <= K - 53)%Z.
Proof.
  intros HK He Hm. unfold shr_fexp, shr.
  pose proof (Zdigits2_le m (K - e) Hm ltac:(lia)) as Hd.
  assert (Hf : (fexp F64.prec F64.emax (Zdigits2 m + e) <= K - 53)%Z).
  { unfold fexp, emin, F64.prec, F64.emax. lia. }
  assert (H0 : shr_m (shr_record_of_loc m l) = m)
    by (destruct l as [|[]]; reflexivity).
  destruct (fexp F64.prec F64.emax (Zdigits2 m + e) - e)%Z
    as [|p|p] eqn:En; cbn [fst snd]; rewrite ?H0;
    try (split; [exact Hm|exact He]).
  destruct (iter_pos_shr_1_le p (shr_record_of_loc m l)) as [H1 H2];
    [rewrite H0; lia|].
  rewrite H0 in H2.
  split; [|lia]. split; [exact H1|].
  assert (E : (K - e = (K - (e + Zpos p)) + Zpos p)%Z) by lia.
  rewrite E, Z.pow_add_r in Hm by lia.
  pose proof (Z.pow_pos_nonneg 2 (Zpos p) eq_refl (Pos2Z.is_nonneg p)).
  nia.
Qed.

Lemma round_nearest_even_le (m : Z) (l : location) :
  (0 <= m)%Z -> (0 <= round_nearest_even m l <= m + 1)%Z.
Proof.
  intros H. destruct l as [|[]]; cbn; try lia.
  destruct (Z.even m); lia.
Qed.

Lemma binary_round_aux_finite (s : bool) (m e : Z) (l : location) :
  (e <= 970)%Z -> (0 <= m < 2 ^ (1023 - e))%Z ->
  F64.is_finite (binary_round_aux F64.prec F64.emax s m e l) = true.
Proof.
  intros He Hm. unfold binary_round_aux.
  pose proof (shr_fexp_bound 1023 m e l ltac:(lia) ltac:(lia) Hm) as [H1 H1e].
  destruct (shr_fexp F64.prec F64.emax m e l) as [mrs' e'].
  cbn [fst snd] in H1, H1e.
  pose proof (round_nearest_even_le (shr_m mrs') (loc_of_shr_record mrs')
                ltac:(lia)) as H2.
  assert (H2' : (0 <= round_nearest_even (shr_m mrs') (loc_of_shr_record mrs')
                 < 2 ^ (1024 - e'))%Z).
  { replace (1024 - e')%Z with (Z.succ (1023 - e')) by lia.
    rewrite Z.pow_succ_r by lia. lia. }
  pose proof (shr_fexp_bound 1024 _ e' loc_Exact ltac:(lia) ltac:(lia) H2')
    as [H3 H3e].
  destruct (shr_fexp F64.prec F64.emax _ e' loc_Exact) as [mrs'' e''].
  cbn [fst snd] in H3, H3e.
  destruct (shr_m mrs'') as [|p|p]; [reflexivity| |lia].
  assert (E : (e'' <=? F64.emax - F64.prec)%Z = true)
    by (apply Z.leb_le; unfold F64.emax, F64.prec; lia).
  now rewrite E.
Qed.

Lemma SFdiv_core_binary_bound (n d : positive) :
  (Zpos n < 2 ^ 1023 * Zpos d)%Z ->
  let '(q, e, _) := SFdiv_core_binary F64.prec F64.emax (Zpos n) 0 (Zpos d) 0 in
  (e <= 0 /\ 0 <= q < 2 ^ (1023 - e))%Z.
Proof.
  intros H. unfold SFdiv_core_binary.
  set (e := Z.min _ (0 - 0)).
  assert (He : (e <= 0)%Z) by (subst e; lia).
  set (m' := match (0 - 0 - e)%Z with 0%Z => Zpos n
             | Zpos _ => Z.shiftl (Zpos n) (0 - 0 - e)
             | Zneg _ => 0%Z end).
  assert (Hm : m' = (Zpos n * 2 ^ (- e))%Z).
  { subst m'. replace (0 - 0 - e)%Z with (- e)%Z by lia.
    destruct (- e)%Z as [|p|p] eqn:E; [cbn; lia| |lia].
    rewrite Z.shiftl_mul_pow2 by lia. reflexivity. }
  clearbody m' e.
  pose proof (Z_div_mod m' (Zpos d) eq_refl) as Hd.
  destruct (Z.div_eucl m' (Zpos d)) as [q r]. destruct Hd as [Hd Hr].
  split; [exact He|].
  replace (1023 - e)%Z with (1023 + - e)%Z by lia.
  rewrite Z.pow_add_r by lia.
  pose proof (Z.pow_pos_nonneg 2 (- e) eq_refl ltac:(lia)).
  pose proof (Z.pow_pos_nonneg 2 1023 eq_refl ltac:(lia)).
  subst m'. split; nia.
Qed.

(** A quotient below 2^1023 in magnitude is within the floats: the
    division does not overflow. *)
Lemma int_truediv_in_range (a b : Z) :
  b <> 0%Z -> (Z.abs a < 2 ^ 1023 * Z.abs b)%Z ->
  exists r, F64.int_truediv a b = Ok r.
Proof.
  intros Hb H. unfold F64.int_truediv.
  destruct (Z.eqb_spec b 0) as [|_]; [contradiction|].
  pose proof (Qred_correct (Z.abs a # Z.to_pos (Z.abs b))) as Hq.
  destruct (Qred _) as [[|n|n] d]; try (eexists; reflexivity).
  unfold Qeq in Hq. cbn [Qnum Qden] in Hq.
  rewrite Z2Pos.id in Hq by lia.
  assert (Hn : (Zpos n < 2 ^ 1023 * Zpos d)%Z).
  { pose proof (Z.pow_pos_nonneg 2 1023 eq_refl ltac:(lia)). nia. }
  pose proof (SFdiv_core_binary_bound n d Hn) as Hb'.
  destruct (SFdiv_core_binary _ _ _ _ _ _) as [[q e] l].
  destruct Hb' as [He Hq'].
  pose proof (binary_round_aux_finite (xorb (a <? 0)%Z (b <? 0)%Z) q e l
                ltac:(lia) Hq') as Hf.
  destruct (binary_round_aux _ _ _ _ _ _); try discriminate;
    eexists; reflexivity.
Qed.

(** Equal ratios give the same float, so the tolerance test succeeds
    whenever the target ratio can be computed at all. *)
Lemma convert_to_portrait_same_ratio (cw ch tw th : positive) :
  (Zpos cw * Zpos th = Zpos tw * Zpos ch)%Z ->
  convert_to_portrait (Zpos cw, Zpos ch) (Zpos tw, Zpos th)
  = match F64.int_truediv (Zpos tw) (Zpos th) with
    | Ok _ => Ok (Resized (Zpos tw) (Zpos th))
    | Raise e => Raise e
    end.
Proof.
  intros Heq. unfold convert_to_portrait.
  rewrite (int_truediv_ratio cw ch tw th Heq).
  destruct (F64.int_truediv (Zpos tw) (Zpos th)) as [r|e] eqn:E;
    [|reflexivity].
  cbn [bind]. rewrite (sub_diag r (int_truediv_finite _ _ _ E)).
  reflexivity.
Qed.

(** X9. When the source has exactly the aspect ratio of the target, in
    particular when both sizes are equal, [convert_to_portrait] only
    resizes to the target size: nothing is cropped and nothing is
    composed.  The two ratios are then the same float, whatever the
    rounding.  This holds for every size whose ratio is below 2^1023,
    where the division cannot overflow. *)
Theorem convert_to_portrait_same_aspect :
  forall cw ch tw th : positive,
    (Zpos cw * Zpos th = Zpos tw * Zpos ch)%Z ->
    (Zpos tw < 2 ^ 1023 * Zpos th)%Z ->
    convert_to_portrait (Zpos cw, Zpos ch) (Zpos tw, Zpos th)
    = Ok (Resized (Zpos tw) (Zpos th)).
Proof.
  intros cw ch tw th Heq Hrange.
  rewrite (convert_to_portrait_same_ratio cw ch tw th Heq).
  destruct (int_truediv_in_range (Zpos tw) (Zpos th)) as [r ->];
    [discriminate|exact Hrange|reflexivity].
Qed.

Lemma convert_to_portrait_same_aspect_witness :
  convert_to_portrait (1080, 1920)%Z (1080, 1920)%Z
  = Ok (Resized 1080 1920)
  /\ convert_to_portrait (540, 960)%Z (1080, 1920)%Z
     = Ok (Resized 1080 1920).
Proof.
  split.
  - apply (convert_to_portrait_same_aspect 1080 1920 1080 1920).
    + reflexivity.
    + reflexivity.
  - apply (convert_to_portrait_same_aspect 540 960 1080 1920).
    + reflexivity.
    + reflexivity.
Defined.

(** Beyond that range the division of the target sizes raises, equal
    ratios or not. *)
Example convert_to_portrait_ratio_overflow :
  convert_to_portrait (2 ^ 1024, 1)%Z (2 ^ 1024, 1)%Z
  = Raise "integer division result too large for a float".
Proof. vm_compute. reflexivity. Qed.

(** X11. A zero height makes [convert_to_portrait] raise "division by
    zero" before any size is compared: the target height in the first
    division, the source height in the second, which is reached when
    the first does not overflow. *)
Theorem convert_to_portrait_zero_height :
  forall cw ch tw th : Z,
    th = 0%Z \/ (ch = 0%Z /\ (Z.abs tw < 2 ^ 1023 * Z.abs th)%Z) ->
    convert_to_portrait (cw, ch) (tw, th) = Raise "division by zero".
Proof.
  intros cw ch tw th [-> | [-> Hrange]]; unfold convert_to_portrait.
  - reflexivity.
  - destruct (Z.eq_dec th 0) as [-> | Hth]; [reflexivity|].
    destruct (int_truediv_in_range tw th Hth Hrange) as [r ->].
    reflexivity.
Qed.

Lemma convert_to_portrait_zero_height_witness :
  convert_to_portrait (1920, 1080)%Z (1080, 0)%Z = Raise "division by zero"
  /\ convert_to_portrait (1920, 0)%Z (1080, 1920)%Z
     = Raise "division by zero".
Proof.
  split.
  - apply convert_to_portrait_zero_height. left. reflexivity.
  - apply convert_to_portrait_zero_height. right. split; reflexivity.
Defined.

(* ----------------------------------------------------------------- *)
(** ** The generation and metadata loops *)

(** What one clip contributes to [processed_clips]. *)
Lemma generation_loop_spec (w : World) :
  forall clips i processed warns,
    exists new,
      fst (generation_loop w i clips processed warns) = processed ++ new
      /\ snd (generation_loop w i clips processed warns)
         = warns ++ flat_map pr_errors new
      /\ map segment_data new = clips
      /\ map clip_index new = seq i (List.length clips)
      /\ (forall pc, In pc new ->
            (success pc = true ->
             pr_errors pc = []
             /\ filename pc
                = sanitize_filename
                    ("clip_" +s+ two_digits (clip_index pc) +s+ "_"
                     +s+ segment_type (segment_data pc)) +s+ ".mp4"
             /\ exists r,
                 render_clip w (clip_index pc) (segment_data pc)
                   (filename pc) = Ok r
                 /\ output_path pc = Some (r_clip_path r))
            /\ (success pc = false ->
                output_path pc = None
                /\ filename pc
                   = "failed_clip_" +s+ str_of_nat (clip_index pc)
                     +s+ ".mp4"
                /\ exists e, pr_errors pc
                   = ["Failed to generate clip "
                      +s+ str_of_nat (clip_index pc) +s+ ": " +s+ e])).
Proof.
  induction clips as [|c clips IH]; intros i processed warns;
    cbn [generation_loop].
  - exists []. cbn. rewrite !app_nil_r. repeat split; contradiction.
  - destruct (render_clip w i c _) as [r|e] eqn:Er.
    + match goal with
      | |- context [generation_loop w (S i) clips (processed ++ [?pc]) ?ws] =>
          destruct (IH (S i) (processed ++ [pc]) ws)
            as [new [Hf [Hs [Hd [Hi Hall]]]]];
          exists (pc :: new)
      end.
      rewrite Hf, Hs, <- app_assoc.
      cbn [flat_map pr_errors app map segment_data clip_index
             List.length seq].
      rewrite Hd, Hi. do 4 (split; [reflexivity|]).
      intros pc0 [<-|Hin]; [|now apply Hall].
      cbn [success pr_errors filename output_path clip_index
             segment_data].
      split; intro Hsucc; [|discriminate Hsucc].
      split; [reflexivity|]. split; [reflexivity|].
      exists r. split; [exact Er|reflexivity].
    + match goal with
      | |- context [generation_loop w (S i) clips (processed ++ [?pc]) ?ws] =>
          destruct (IH (S i) (processed ++ [pc]) ws)
            as [new [Hf [Hs [Hd [Hi Hall]]]]];
          exists (pc :: new)
      end.
      rewrite Hf, Hs, <- !app_assoc.
      cbn [flat_map pr_errors app map segment_data clip_index
             List.length seq].
      rewrite Hd, Hi. do 4 (split; [reflexivity|]).
      intros pc0 [<-|Hin]; [|now apply Hall].
      cbn [success pr_errors filename output_path clip_index
             segment_data].
      split; intro Hsucc; [discriminate Hsucc|].
      split; [reflexivity|]. split; [reflexivity|]. now exists e.
Qed.

(** X12. When the video opens, [generate_clips_node] records exactly one
    result per selected clip, in the order of selection and numbered from
    1, whether or not the clip could be rendered: a clip that fails is
    recorded with [success = false] and the batch goes on.  The messages
    of the failed results, in order, are what is appended to [warnings];
    [errors] is untouched; the status is "clips_generated" if some clip
    succeeded and "clip_generation_failed" otherwise. *)
Theorem generate_clips_node_one_result_per_clip :
  forall (w : World) (state : PodcastState) (p : string),
    video_path state = Some p ->
    truthy_str p = true -> path_exists w p = true ->
    selected_clips state <> [] ->
    open_video w state = Ok tt ->
    VideoSegment_init_all (selected_clips state)
    = Ok (selected_clips state) ->
    let state' := generate_clips_node w state in
    map segment_data (processed_clips state') = selected_clips state
    /\ map clip_index (processed_clips state')
       = seq 1 (List.length (selected_clips state))
    /\ warnings state'
       = warnings state ++ flat_map pr_errors (processed_clips state')
    /\ errors state' = errors state
    /\ selected_clips state' = selected_clips state
    /\ (forall pc, In pc (processed_clips state') ->
          success pc = true ->
          exists r, render_clip w (clip_index pc) (segment_data pc)
                      (filename pc) = Ok r
                    /\ output_path pc = Some (r_clip_path r))
    /\ status state'
       = if existsb success (processed_clips state')
         then "clips_generated" else "clip_generation_failed".
Proof.
  intros w state p Hp Ht He Hsel Hopen Hinit state'. subst state'.
  unfold generate_clips_node. rewrite Hp, Ht, He. cbn [negb orb].
  destruct (selected_clips state) as [|c l] eqn:El; [congruence|].
  cbn [truthy_list negb]. rewrite Hopen. cbn [bind]. rewrite Hinit.
  rewrite (surjective_pairing
             (generation_loop w 1 (c :: l) [] (warnings state))).
  destruct (generation_loop_spec w (c :: l) 1 [] (warnings state))
    as [new [Hf [Hs [Hd [Hi Hall]]]]].
  rewrite Hf, Hs. cbn [app].
  assert (Hex : existsb success new
                = truthy_list (filter success new)).
  { clear. induction new as [|pc new IH]; [reflexivity|].
    cbn [filter existsb]. destruct (success pc); cbn [orb truthy_list];
      [reflexivity|exact IH]. }
  destruct (truthy_list (filter success new)) eqn:Etl; state_simpl;
    rewrite El, Hex;
    (split; [exact Hd|]); (split; [exact Hi|]);
    do 3 (split; [reflexivity|]);
    (split; [|reflexivity]);
    intros pc Hin Hs1;
    destruct (Hall pc Hin) as [Hok _];
    destruct (Hok Hs1) as [_ [_ Hr]]; exact Hr.
Qed.

Lemma generate_clips_node_one_result_per_clip_witness :
  let state :=
    set_video_path (Some "temp/u.mp4")
      (set_selected_clips [Sample.second; Sample.third; Sample.first]
         (Sample.analysed [Sample.first; Sample.second; Sample.third])) in
  map success (processed_clips (generate_clips_node Demo.flaky_encoder state))
  = [true; false; true]
  /\ map clip_index
       (processed_clips (generate_clips_node Demo.flaky_encoder state))
     = [1; 2; 3]%nat.
Proof.
  cbv zeta. split; [vm_compute; reflexivity|].
  refine (proj1 (proj2
    (generate_clips_node_one_result_per_clip Demo.flaky_encoder
       (set_video_path (Some "temp/u.mp4")
          (set_selected_clips [Sample.second; Sample.third; Sample.first]
             (Sample.analysed [Sample.first; Sample.second; Sample.third])))
       "temp/u.mp4" eq_refl eq_refl eq_refl _ eq_refl _)));
    [discriminate|vm_compute; reflexivity].
Defined.

(* ----------------------------------------------------------------- *)
(** ** File names of the generated clips *)

Lemma list_ascii_of_string_app (a b : string) :
  list_ascii_of_string (a +s+ b)
  = list_ascii_of_string a ++ list_ascii_of_string b.
Proof.
  induction a as [|c a IH]; cbn; [reflexivity|now rewrite IH].
Qed.

Lemma length_append (a b : string) :
  String.length (a +s+ b) = (String.length a + String.length b)%nat.
Proof.
  induction a as [|c a IH]; cbn; [reflexivity|now rewrite IH].
Qed.

Lemma digit_char_valid (k : nat) :
  (k < 10)%nat -> is_invalid_char (ascii_of_nat (48 + k)) = false.
Proof.
  intro H. do 10 (destruct k as [|k]; [reflexivity|]). lia.
Qed.

Lemma digits_chars :
  forall fuel n acc c,
    In c (list_ascii_of_string (digits fuel n acc)) ->
    In c (list_ascii_of_string acc) \/ is_invalid_char c = false.
Proof.
  induction fuel as [|fuel IH]; intros n acc c H; cbn [digits] in H.
  - now left.
  - assert (Hd : is_invalid_char (ascii_of_nat (48 + Nat.modulo n 10))
                 = false).
    { apply digit_char_valid. apply Nat.mod_upper_bound. lia. }
    destruct (Nat.div n 10) as [|q].
    + cbn [list_ascii_of_string] in H. destruct H as [<-|H]; auto.
    + apply IH in H. cbn [list_ascii_of_string] in H.
      destruct H as [[<-|H]|H]; auto.
Qed.

Lemma str_of_nat_chars (n : nat) (c : ascii) :
  In c (list_ascii_of_string (str_of_nat n)) -> is_invalid_char c = false.
Proof.
  intro H. unfold str_of_nat in H. apply digits_chars in H.
  destruct H as [H|H]; [contradiction|exact H].
Qed.

Lemma sanitize_filename_chars (s : string) (c : ascii) :
  In c (list_ascii_of_string (sanitize_filename s)) ->
  is_invalid_char c = false.
Proof.
  unfold sanitize_filename. rewrite list_ascii_of_string_of_list_ascii.
  intro H. rewrite sanitize_chars_formula in H. apply firstn_incl in H.
  apply in_map_iff in H. destruct H as [a [<- _]].
  apply underscored_valid.
Qed.

Lemma sanitize_filename_length (s : string) :
  (String.length (sanitize_filename s) <= 200)%nat.
Proof.
  unfold sanitize_filename.
  rewrite length_string_of_list_ascii, sanitize_chars_formula,
    length_firstn.
  lia.
Qed.

(** X13. Every result the generation loop records carries a file name
    free of the nine characters [sanitize_filename] replaces, whatever
    the segment type supplied by the model contains; the name of a
    rendered clip is the sanitised title followed by ".mp4", so it has at
    most 204 characters. *)
Theorem generated_filenames_are_safe :
  forall (w : World) (clips : list VideoSegment) (i : nat)
         (warns : list string) (pc : ProcessedClip),
    In pc (fst (generation_loop w i clips [] warns)) ->
    (forall c, In c invalid_chars ->
               ~ In c (list_ascii_of_string (filename pc)))
    /\ (success pc = true -> (String.length (filename pc) <= 204)%nat).
Proof.
  intros w clips i warns pc Hin.
  destruct (generation_loop_spec w clips i [] warns)
    as [new [Hf [_ [_ [_ Hall]]]]].
  rewrite Hf in Hin. cbn [app] in Hin.
  destruct (Hall pc Hin) as [Hok Hfail].
  destruct (success pc) eqn:Es.
  - destruct (Hok eq_refl) as [_ [Hname _]]. split.
    + intros c Hc Hin'. apply invalid_chars_spec in Hc.
      rewrite Hname, list_ascii_of_string_app in Hin'.
      apply in_app_or in Hin'. destruct Hin' as [H|H].
      * apply sanitize_filename_chars in H. congruence.
      * cbn in H.
        repeat (destruct H as [<-|H]; [discriminate Hc|]). exact H.
    + intros _. rewrite Hname, length_append.
      pose proof (sanitize_filename_length
                    ("clip_" +s+ two_digits (clip_index pc) +s+ "_"
                     +s+ segment_type (segment_data pc))).
      cbn [String.length]. lia.
  - destruct (Hfail eq_refl) as [_ [Hname _]].
    split; [|discriminate].
    intros c Hc Hin'. apply invalid_chars_spec in Hc.
    rewrite Hname in Hin'.
    rewrite !list_ascii_of_string_app in Hin'.
    apply in_app_or in Hin'. destruct Hin' as [H|H].
    + cbn in H. repeat (destruct H as [<-|H]; [discriminate Hc|]). exact H.
    + apply in_app_or in H. destruct H as [H|H].
      * apply str_of_nat_chars in H. congruence.
      * cbn in H.
        repeat (destruct H as [<-|H]; [discriminate Hc|]). exact H.
Qed.

Lemma generated_filenames_are_safe_witness :
  Forall (fun pc => ~ In "/"%char (list_ascii_of_string (filename pc)))
    (fst (generation_loop Demo.all_ok 1
            [Demo.odd_type; Sample.valid] [] [])).
Proof.
  apply Forall_forall. intros pc Hin.
  apply (proj1 (generated_filenames_are_safe Demo.all_ok
                  [Demo.odd_type; Sample.valid] 1 [] pc Hin)).
  cbn. tauto.
Defined.

(* ----------------------------------------------------------------- *)
(** ** The metadata, download and transcript nodes *)

(** The pause after clip [i] of [n]. *)
Lemma metadata_loop_step (w : World) (delay : F64.t) (n i : nat)
    (c : ProcessedClip) (rest : list ProcessedClip)
    (generated : list ClipMetadata) (warns : list string) :
  let paused :=
    if (i <? n)%nat then sleep (sleep_too_long w) delay else Ok tt in
  let late e :=
    ["Failed to generate metadata for clip " +s+ str_of_nat i
     +s+ ": " +s+ e] in
  metadata_loop w delay n i (c :: rest) generated warns
  = match clip_metadata w i c with
    | Ok (Some m) =>
        match paused with
        | Ok _ => metadata_loop w delay n (S i) rest (generated ++ [m]) warns
        | Raise e =>
            metadata_loop w delay n (S i) rest (generated ++ [m])
              (warns ++ late e)
        end
    | Ok None =>
        match paused with
        | Ok _ =>
            metadata_loop w delay n (S i) rest generated
              (warns ++ ["Failed to generate metadata for clip "
                         +s+ str_of_nat i])
        | Raise e =>
            metadata_loop w delay n (S i) rest generated
              ((warns ++ ["Failed to generate metadata for clip "
                          +s+ str_of_nat i]) ++ late e)
        end
    | Raise e => metadata_loop w delay n (S i) rest generated (warns ++ late e)
    end.
Proof.
  cbn [metadata_loop].
  destruct (clip_metadata w i c) as [[m|]|e]; reflexivity.
Qed.

(** The loop only appends, and appends at least one item per clip. *)
Lemma metadata_loop_spec (w : World) (delay : F64.t) (n : nat) :
  forall clips i generated warns,
    exists new_meta new_warn,
      fst (metadata_loop w delay n i clips generated warns)
      = generated ++ new_meta
      /\ snd (metadata_loop w delay n i clips generated warns)
         = warns ++ new_warn
      /\ (List.length clips
          <= List.length new_meta + List.length new_warn)%nat
      /\ (sleep (sleep_too_long w) delay = Ok tt ->
          (List.length new_meta + List.length new_warn
           = List.length clips)%nat).
Proof.
  induction clips as [|c clips IH]; intros i generated warns.
  - exists [], []. cbn. rewrite !app_nil_r. repeat split; lia.
  - rewrite metadata_loop_step. cbv zeta.
    destruct (clip_metadata w i c) as [[m|]|e0];
      [destruct (if (i <? n)%nat then _ else _) as [u|e] eqn:Es
      |destruct (if (i <? n)%nat then _ else _) as [u|e] eqn:Es|];
      match goal with
      | |- context [metadata_loop _ _ _ _ _ ?g ?ws] =>
          destruct (IH (S i) g ws) as [nm [nw [Hf [Hs [Hl Hok]]]]]
      end;
      rewrite Hf, Hs, <- ?app_assoc; cbn [app];
      eexists; eexists;
      (split; [reflexivity|]); (split; [reflexivity|]);
      cbn [List.length]; (split; [lia|]); intro Hsl;
      specialize (Hok Hsl); try lia;
      destruct (i <? n)%nat; rewrite ?Hsl in Es; discriminate Es.
Qed.

(** With a delay that [time.sleep] refuses, and a model that answers
    for every clip, each clip but the last leaves an entry and a
    warning. *)
Lemma metadata_loop_refused_delay (w : World) (delay : F64.t) (n : nat)
    (e : string) :
  sleep (sleep_too_long w) delay = Raise e ->
  (forall i c, exists m, clip_metadata w i c = Ok (Some m)) ->
  forall clips i generated warns,
    (i + List.length clips = S n)%nat ->
    exists new_meta new_warn,
      fst (metadata_loop w delay n i clips generated warns)
      = generated ++ new_meta
      /\ snd (metadata_loop w delay n i clips generated warns)
         = warns ++ new_warn
      /\ List.length new_meta = List.length clips
      /\ List.length new_warn = (List.length clips - 1)%nat.
Proof.
  intros Hsl Hall. induction clips as [|c clips IH];
    intros i generated warns Hi.
  - exists [], []. cbn. rewrite !app_nil_r. repeat split.
  - rewrite metadata_loop_step. cbv zeta.
    destruct (Hall i c) as [m Hm]. rewrite Hm.
    cbn [List.length] in Hi.
    destruct clips as [|c' clips'].
    + assert (Ei : (i <? n)%nat = false)
        by (apply Nat.ltb_ge; cbn [List.length] in Hi; lia).
      rewrite Ei. cbn [metadata_loop fst snd List.length].
      exists [m], []. rewrite app_nil_r. repeat split.
    + assert (Ei : (i <? n)%nat = true)
        by (apply Nat.ltb_lt; cbn [List.length] in Hi; lia).
      rewrite Ei, Hsl.
      match goal with
      | |- context [metadata_loop _ _ _ _ _ ?g ?ws] =>
          destruct (IH (S i) g ws) as [nm [nw [Hf [Hs [Hl1 Hl2]]]]];
            [cbn [List.length] in *; lia|]
      end.
      rewrite Hf, Hs, <- !app_assoc. cbn [app].
      eexists; eexists.
      split; [reflexivity|]. split; [reflexivity|].
      cbn [List.length] in *. lia.
Qed.

(** X14. [generate_metadata_node] only works on the successful clips.
    Without any, it stores an empty [metadata] list, adds one warning and
    leaves [status] as it was.  With some, and once the configuration is
    loaded and the model set up, the status is "metadata_generated" even
    if no entry could be produced, [errors] is untouched, and every
    successful clip leaves at least one entry or warning.  When
    [time.sleep] accepts the configured delay, each clip leaves exactly
    one of the two, never both.  When it refuses the delay (a negative
    number, NaN, a number too large), the pause raises inside the [try]
    of the clip, after its entry was stored: if the model answers for
    every clip, all [n] entries are stored and [n - 1] warnings are
    added.  A failed configuration or setup gives status "failed". *)
Theorem generate_metadata_node_accounts_for_each_clip :
  forall (w : World) (state : PodcastState),
    let state' := generate_metadata_node w state in
    let successful := filter success (processed_clips state) in
    (successful = [] ->
     metadata state' = [] /\ status state' = status state
     /\ errors state' = errors state
     /\ exists msg, warnings state' = warnings state ++ [msg])
    /\ (forall p, successful <> [] ->
        from_env (env w) = Ok p -> metadata_setup w = Ok tt ->
        status state' = "metadata_generated"
        /\ errors state' = errors state
        /\ processed_clips state' = processed_clips state
        /\ exists new_warn,
            warnings state' = warnings state ++ new_warn
            /\ (List.length successful
                <= List.length (metadata state') + List.length new_warn)%nat
            /\ (sleep (sleep_too_long w) (api_rate_limit_delay p) = Ok tt ->
                (List.length (metadata state') + List.length new_warn
                 = List.length successful)%nat)
            /\ (forall e,
                   sleep (sleep_too_long w) (api_rate_limit_delay p)
                   = Raise e ->
                   (forall i c, exists m,
                       clip_metadata w i c = Ok (Some m)) ->
                   List.length (metadata state') = List.length successful
                   /\ List.length new_warn
                      = (List.length successful - 1)%nat))
    /\ (forall e, successful <> [] ->
        from_env (env w) = Raise e
        \/ ((exists p, from_env (env w) = Ok p)
            /\ metadata_setup w = Raise e) ->
        status state' = "failed"
        /\ metadata state' = metadata state
        /\ warnings state' = warnings state
        /\ errors state'
           = errors state ++ ["Metadata generation failed: " +s+ e]).
Proof.
  intros w state state' successful. subst state' successful.
  unfold generate_metadata_node.
  destruct (processed_clips state) as [|pc pcs] eqn:Ep.
  - cbn [truthy_list negb filter]. state_simpl.
    split; [|split]; [|congruence|congruence].
    intros _. repeat split. eexists; reflexivity.
  - cbn [truthy_list negb].
    destruct (filter success (pc :: pcs)) as [|sc scs] eqn:Ef.
    + cbn [truthy_list negb]. state_simpl.
      split; [|split]; [|congruence|congruence].
      intros _. repeat split. eexists; reflexivity.
    + cbn [truthy_list negb]. split; [congruence|]. split.
      * intros p _ Hp Hs. rewrite Hp, Hs. cbn [bind].
        rewrite (surjective_pairing (metadata_loop _ _ _ _ _ _ _)).
        destruct (metadata_loop_spec w (api_rate_limit_delay p)
                    (List.length (sc :: scs)) (sc :: scs) 1 []
                    (warnings state))
          as [nm [nw [Hf [Hsn [Hl Hok]]]]].
        state_simpl. rewrite Ep. split; [reflexivity|].
        split; [reflexivity|]. split; [reflexivity|].
        exists nw. rewrite Hf. cbn [app].
        split; [exact Hsn|]. split; [exact Hl|]. split; [exact Hok|].
        intros e Hsl Hall.
        destruct (metadata_loop_refused_delay w (api_rate_limit_delay p)
                    (List.length (sc :: scs)) e Hsl Hall (sc :: scs) 1 []
                    (warnings state) eq_refl)
          as [nm' [nw' [Hf' [Hsn' [Hl1 Hl2]]]]].
        rewrite Hf in Hf'. cbn [app] in Hf'. subst nm'.
        rewrite Hsn in Hsn'. apply app_inv_head in Hsn'. subst nw'.
        split; assumption.
      * intros e _ [He|[[p Hp] He]].
        -- rewrite He. cbn [bind]. state_simpl. repeat split.
        -- rewrite Hp, He. cbn [bind]. state_simpl. repeat split.
Qed.

Lemma generate_metadata_node_accounts_for_each_clip_witness :
  status (generate_metadata_node Demo.all_ok
            (generate_clips_node Demo.all_ok
               (set_video_path (Some "temp/u.mp4")
                  (set_selected_clips [Sample.valid]
                     (Sample.analysed [Sample.valid])))))
  = "metadata_generated".
Proof.
  refine (proj1 (proj1 (proj2
    (generate_metadata_node_accounts_for_each_clip Demo.all_ok
       (generate_clips_node Demo.all_ok
          (set_video_path (Some "temp/u.mp4")
             (set_selected_clips [Sample.valid]
                (Sample.analysed [Sample.valid]))))))
    Sample.config_25_35 _ _ eq_refl));
    vm_compute; try reflexivity; discriminate.
Defined.

(** X15. [download_video_node] keeps a non-empty [video_id] and derives
    one from the URL otherwise.  When the download raises, the status
    becomes "failed", one error is appended and [video_path] is left
    alone, but a long-video warning issued before the failure stays in
    [warnings], because it was appended to the list the state holds.
    When it succeeds, the path, title and duration are stored and the
    status becomes "video_downloaded".  The clip lists are never
    touched. *)
Theorem download_video_node_outcomes :
  forall (w : World) (state : PodcastState),
    let vid :=
      match video_id state with
      | Some v => if truthy_str v then v
                  else extract_video_id_from_url w (url state)
      | None => extract_video_id_from_url w (url state)
      end in
    let state' := download_video_node w state in
    video_id state'
    = (if truthy_opt_str (video_id state) then video_id state else Some vid)
    /\ warnings state'
       = append_opt (warnings state) (fst (download w (url state) vid))
    /\ same_clips state state'
    /\ match snd (download w (url state) vid) with
       | Ok d =>
           status state' = "video_downloaded"
           /\ video_path state' = Some (dl_video_path d)
           /\ video_title state' = Some (dl_title d)
           /\ video_duration state' = Some (dl_duration d)
           /\ errors state' = errors state
       | Raise e =>
           status state' = "failed"
           /\ video_path state' = video_path state
           /\ errors state'
              = errors state ++ ["Video download failed: " +s+ e]
       end.
Proof.
  intros w state vid state'. subst vid state'.
  unfold download_video_node, same_clips.
  destruct (video_id state) as [v|] eqn:Ev; cbn [truthy_opt_str];
    [destruct (truthy_str v)|];
    match goal with
    | |- context [download w ?u ?x] =>
        destruct (download w u x) as [lw [d|e]]
    end;
    cbn [fst snd]; state_simpl; rewrite ?Ev; repeat split.
Qed.

(** What [fetch_transcript_node] stores when the fetch succeeds. *)
Lemma fetch_transcript_node_ok (w : World) (state : PodcastState)
    (t : string) (segs : list TranscriptSegment) (src : string) :
  fetch_youtube_transcript w (url state) = Ok (t, segs, src) ->
  let state' := fetch_transcript_node w state in
  let info := get_video_metadata w (url state) in
  status state' = "transcript_fetched"
  /\ transcript state' = Some t
  /\ transcript_segments state' = segs
  /\ transcript_source state' = Some src
  /\ video_id state' = Some (extract_video_id_from_url w (url state))
  /\ errors state' = errors state
  /\ same_clips state state'
  /\ match duration_of_length
             (match vi_length info with Some n => n | None => 0%Z end) with
     | Ok d =>
         video_title state'
         = Some (match vi_title info with
                 | Some title => title
                 | None => "Unknown Title"
                 end)
         /\ video_duration state' = Some d
         /\ warnings state' = warnings state
     | Raise e =>
         video_title state' = Some "Unknown Title"
         /\ video_duration state' = Some (F64.of_Z 0)
         /\ warnings state'
            = warnings state ++ ["Could not fetch video metadata: " +s+ e]
     end.
Proof.
  intros H state' info. subst state' info.
  unfold fetch_transcript_node, same_clips.
  rewrite H.
  destruct (duration_of_length _) as [d|e];
    state_simpl; destruct (created_at state); state_simpl; repeat split.
Qed.

(** X16. A failure to read the video's metadata leaves no trace in
    [fetch_transcript_node]: [get_video_metadata] catches the failure
    and returns an empty dictionary, so the node takes its defaults, the
    title "Unknown Title" and the duration 0.0, and appends neither a
    warning nor an error.  When the transcript itself is fetched, the
    status is "transcript_fetched" and the transcript, its segments and
    source are stored; the video id derived from the URL is stored in
    every case.  The warning "Could not fetch video metadata" is left
    for one case only: a length that is an int too large to convert to
    a float. *)
Theorem fetch_transcript_node_metadata_failure_leaves_no_trace :
  forall (w : World) (state : PodcastState)
         (t : string) (segs : list TranscriptSegment) (src : string),
    fetch_youtube_transcript w (url state) = Ok (t, segs, src) ->
    let state' := fetch_transcript_node w state in
    status state' = "transcript_fetched"
    /\ transcript state' = Some t
    /\ transcript_segments state' = segs
    /\ transcript_source state' = Some src
    /\ video_id state' = Some (extract_video_id_from_url w (url state))
    /\ errors state' = errors state
    /\ (get_video_metadata w (url state) = empty_info ->
        video_title state' = Some "Unknown Title"
        /\ video_duration state' = Some (F64.of_Z 0)
        /\ warnings state' = warnings state)
    /\ (warnings state' = warnings state
        \/ exists n e,
             vi_length (get_video_metadata w (url state)) = Some n
             /\ F64.float_of_int n = Raise e
             /\ video_title state' = Some "Unknown Title"
             /\ warnings state'
                = warnings state
                  ++ ["Could not fetch video metadata: " +s+ e]).
Proof.
  intros w state t segs src Ht state'.
  destruct (fetch_transcript_node_ok w state t segs src Ht)
    as [H1 [H2 [H3 [H4 [H5 [H6 [_ H8]]]]]]].
  fold state' in H1, H2, H3, H4, H5, H6, H8.
  do 6 (split; [assumption|]). split.
  - intro Hm. rewrite Hm in H8. exact H8.
  - destruct (vi_length (get_video_metadata w (url state))) as [n|];
      [|left; exact (proj2 (proj2 H8))].
    unfold duration_of_length in H8. destruct (n =? 0)%Z;
      [left; exact (proj2 (proj2 H8))|].
    destruct (F64.float_of_int n) as [d|e] eqn:E;
      [left; exact (proj2 (proj2 H8))|].
    right. exists n, e. split; [reflexivity|]. split; [exact E|].
    split; [exact (proj1 H8)|exact (proj2 (proj2 H8))].
Qed.

Lemma fetch_transcript_node_metadata_failure_leaves_no_trace_witness :
  warnings (fetch_transcript_node Demo.flaky_encoder
              (initial_state Demo.flaky_encoder "u" Sample.no_overrides))
  = [].
Proof.
  refine (proj2 (proj2 (proj1 (proj2 (proj2 (proj2 (proj2 (proj2 (proj2
    (fetch_transcript_node_metadata_failure_leaves_no_trace
       Demo.flaky_encoder
       (initial_state Demo.flaky_encoder "u" Sample.no_overrides)
       _ _ _ eq_refl))))))) eq_refl))).
Defined.

(* ----------------------------------------------------------------- *)
(** ** Runs that end early *)

Lemma next_node_after_fetch (s : PodcastState) :
  status s = "transcript_fetched" ->
  truthy_opt_str (transcript s) = true ->
  next_node fetch_transcript s = Some analyze_content.
Proof.
  intros Hs Ht. cbn [next_node].
  unfold _should_continue_after_transcript. now rewrite Hs, Ht.
Qed.

Lemma next_node_after_analysis (s : PodcastState) :
  String.eqb (status s) "failed" = false ->
  next_node analyze_content s
  = if truthy_list (identified_clips s) then Some select_clips else None.
Proof.
  intros Hs. cbn [next_node].
  unfold _should_continue_after_analysis. rewrite Hs.
  destruct (truthy_list (identified_clips s)); reflexivity.
Qed.

Lemma next_node_after_selection (s : PodcastState) :
  String.eqb (status s) "failed" = false ->
  next_node select_clips s
  = if truthy_list (selected_clips s) then Some download_video else None.
Proof.
  intros Hs. cbn [next_node].
  unfold _should_continue_after_selection. rewrite Hs.
  destruct (truthy_list (selected_clips s)); reflexivity.
Qed.

(** The start of a run whose transcript is fetched. *)
Lemma run_after_fetch (w : World) (url : string) (cfg : CustomConfig)
    (t : string) (segs : list TranscriptSegment) (src : string) :
  fetch_youtube_transcript w url = Ok (t, segs, src) ->
  truthy_str t = true ->
  let s1 := fetch_transcript_node w (initial_state w url cfg) in
  graph_trace w (initial_state w url cfg)
  = (fetch_transcript, s1) :: invoke_from w 5 analyze_content s1
  /\ status s1 = "transcript_fetched"
  /\ transcript s1 = Some t
  /\ transcript_segments s1 = segs
  /\ errors s1 = []
  /\ identified_clips s1 = [] /\ selected_clips s1 = []
  /\ processed_clips s1 = [].
Proof.
  intros Hf Ht s1.
  destruct (fetch_transcript_node_ok w (initial_state w url cfg)
              t segs src Hf) as [H1 [H2 [H3 [_ [_ [H6 [[H7 [H8 H9]] _]]]]]]].
  fold s1 in H1, H2, H3, H6, H7, H8, H9.
  split.
  - unfold graph_trace. cbn [invoke_from node_function]. fold s1.
    rewrite (next_node_after_fetch s1 H1); [reflexivity|].
    rewrite H2. exact Ht.
  - repeat split; assumption.
Qed.

(** X17. A run in which the analysis raises does not end with status
    "failed": [process_video] returns status "analysis_failed", with the
    one error "Content analysis failed: ...", the transcript stored, no
    clips of any kind, and only the first two nodes executed. *)
Theorem analysis_failure_ends_run :
  forall (w : World) (url : string) (cfg : CustomConfig)
         (t : string) (segs : list TranscriptSegment) (src e : string),
    fetch_youtube_transcript w url = Ok (t, segs, src) ->
    truthy_str t = true ->
    segs <> [] ->
    analyze w (fetch_transcript_node w (initial_state w url cfg))
    = Raise e ->
    let final := process_video w url cfg in
    status final = "analysis_failed"
    /\ errors final = ["Content analysis failed: " +s+ e]
    /\ transcript final = Some t
    /\ identified_clips final = []
    /\ selected_clips final = []
    /\ processed_clips final = []
    /\ executed_nodes w url cfg = [fetch_transcript; analyze_content].
Proof.
  intros w url0 cfg t segs src e Hf Ht Hsegs Ha final.
  destruct (run_after_fetch w url0 cfg t segs src Hf Ht)
    as [Htrace [H1 [H2 [H3 [H4 [H5 [H6 H7]]]]]]].
  remember (fetch_transcript_node w (initial_state w url0 cfg)) as s1
    eqn:Es1.
  assert (E2 : analyze_content_node w s1
               = set_status "analysis_failed"
                   (set_errors
                      (errors s1 ++ ["Content analysis failed: " +s+ e])
                      s1)).
  { unfold analyze_content_node. rewrite H2, H3, Ha.
    cbn [truthy_opt_str]. rewrite Ht.
    destruct segs; [congruence|]. reflexivity. }
  assert (Et : graph_trace w (initial_state w url0 cfg)
               = [(fetch_transcript, s1);
                  (analyze_content, analyze_content_node w s1)]).
  { rewrite Htrace. cbn [invoke_from node_function].
    rewrite next_node_after_analysis by (rewrite E2; reflexivity).
    rewrite E2. state_simpl. rewrite H5. reflexivity. }
  subst final.
  destruct (process_video_returns w url0 cfg)
    as [[e' [Hf' _]]|[_ [_ Ep]]]; cbv zeta in *; [congruence|].
  rewrite Ep. unfold graph_invoke, executed_nodes.
  rewrite Et. cbn [map fst snd last]. rewrite E2. state_simpl.
  rewrite H4, H2, H5, H6, H7. repeat split.
Qed.

Lemma analysis_failure_ends_run_witness :
  status (process_video Demo.no_api_key "u" Sample.no_overrides)
  = "analysis_failed".
Proof.
  refine (proj1 (analysis_failure_ends_run Demo.no_api_key "u"
                   Sample.no_overrides "some words" Demo.one_segment
                   "youtube_manual" "Google API key not configured"
                   eq_refl eq_refl _ eq_refl)).
  discriminate.
Defined.

Lemma all_rejected_filter (p : ProcessingConfig) :
  forall l, (forall c, In c l -> out_of_bounds p c) ->
            filter (passes p) l = [].
Proof.
  induction l as [|c l IH]; intro H; [reflexivity|].
  cbn [filter]. destruct (passes p c) eqn:E.
  - exfalso.
    exact (proj1 (passes_not_out_of_bounds p c) E (H c (or_introl eq_refl))).
  - apply IH. intros x Hx. apply H. now right.
Qed.

(** X18. A run in which the analysis identifies clips and all of them
    are out of bounds (a measured duration that is a number below the
    minimum or above the maximum, or a score that is too low) ends after
    the selection: [process_video] returns
    status "no_clips_passed_validation", empty [selected_clips] and
    [processed_clips], the identified clips still stored, a non-empty
    [warnings] list ending with "No clips passed validation criteria",
    and an empty [errors] list. *)
Theorem all_candidates_rejected_ends_run :
  forall (w : World) (url : string) (cfg : CustomConfig)
         (t : string) (segs : list TranscriptSegment) (src : string)
         (clips : list VideoSegment) (p : ProcessingConfig),
    fetch_youtube_transcript w url = Ok (t, segs, src) ->
    truthy_str t = true ->
    segs <> [] ->
    analyze w (fetch_transcript_node w (initial_state w url cfg))
    = Ok clips ->
    clips <> [] ->
    VideoSegment_init_all clips = Ok clips ->
    from_env (env w) = Ok p ->
    (forall c, In c clips -> out_of_bounds p c) ->
    let final := process_video w url cfg in
    status final = "no_clips_passed_validation"
    /\ selected_clips final = []
    /\ processed_clips final = []
    /\ identified_clips final = clips
    /\ errors final = []
    /\ (exists earlier,
           warnings final
           = earlier ++ ["No clips passed validation criteria"])
    /\ executed_nodes w url cfg
       = [fetch_transcript; analyze_content; select_clips].
Proof.
  intros w url0 cfg t segs src clips p Hf Ht Hsegs Ha Hne Hinit Hp Hrej
         final.
  destruct (run_after_fetch w url0 cfg t segs src Hf Ht)
    as [Htrace [H1 [H2 [H3 [H4 [H5 [H6 H7]]]]]]].
  remember (fetch_transcript_node w (initial_state w url0 cfg)) as s1
    eqn:Es1.
  assert (E2 : analyze_content_node w s1
               = set_status "clips_identified"
                   (set_identified_clips clips s1)).
  { unfold analyze_content_node. rewrite H2, H3, Ha.
    cbn [truthy_opt_str]. rewrite Ht.
    destruct segs; [congruence|]. reflexivity. }
  remember (analyze_content_node w s1) as s2 eqn:Es2.
  assert (Hid : identified_clips s2 = clips) by (rewrite E2; reflexivity).
  assert (E3 : fst (select_clips_node (env w) s2)
               = set_status "no_clips_passed_validation"
                   (set_selected_clips []
                      (set_warnings
                         (warnings s2
                          ++ ["No clips passed validation criteria"])
                         s2))).
  { rewrite (select_clips_node_ok (env w) p s2 Hp);
      rewrite ?Hid; try assumption.
    rewrite (all_rejected_filter p clips Hrej).
    cbn [sort_by_score_desc fold_right]. rewrite slice_to_nil.
    reflexivity. }
  assert (Et : graph_trace w (initial_state w url0 cfg)
               = [(fetch_transcript, s1); (analyze_content, s2);
                  (select_clips, fst (select_clips_node (env w) s2))]).
  { rewrite Htrace. cbn [invoke_from node_function]. rewrite <- Es2.
    rewrite next_node_after_analysis by (rewrite E2; reflexivity).
    rewrite Hid. destruct clips as [|c0 cl]; [congruence|].
    cbn [truthy_list node_function].
    rewrite next_node_after_selection by (rewrite E3; reflexivity).
    rewrite E3. state_simpl. reflexivity. }
  subst final.
  destruct (process_video_returns w url0 cfg)
    as [[e' [Hf' _]]|[_ [_ Ep]]]; cbv zeta in *; [congruence|].
  rewrite Ep. unfold graph_invoke, executed_nodes.
  rewrite Et. cbn [map fst snd last]. rewrite E3. state_simpl.
  rewrite Hid. rewrite E2. state_simpl. rewrite H4, H7.
  repeat split. eexists; reflexivity.
Qed.

Lemma all_candidates_rejected_ends_run_witness :
  status (process_video Demo.only_bad_clips "u" Sample.no_overrides)
  = "no_clips_passed_validation".
Proof.
  refine (proj1 (all_candidates_rejected_ends_run Demo.only_bad_clips "u"
                   Sample.no_overrides "some words" Demo.one_segment
                   "youtube_manual"
                   [Sample.too_long; Sample.too_short]
                   Sample.config_25_35
                   eq_refl eq_refl _ eq_refl _ eq_refl eq_refl _)).
  - discriminate.
  - discriminate.
  - intros c [<-|[<-|[]]];
      [right; left; vm_compute; reflexivity
      |left; vm_compute; reflexivity].
Defined.

(* ----------------------------------------------------------------- *)
(** ** More on [sanitize_filename] *)

Section MoreCharacters.

Context {char : Type} {A : Alphabet char}.

Lemma lstrip_starts_clean : forall l : list char, starts_clean (lstrip l).
Proof.
  induction l as [|c l IH]; cbn [lstrip]; [exact I|].
  destruct (is_strip_char c) eqn:E; [exact IH|exact E].
Qed.

Lemma lstrip_clean : forall l : list char, starts_clean l -> lstrip l = l.
Proof.
  destruct l as [|c l]; cbn; [reflexivity|]. now intros ->.
Qed.

Lemma lstrip_suffix : forall l : list char, exists t, l = t ++ lstrip l.
Proof.
  induction l as [|c l [t Ht]]; cbn [lstrip]; [now exists []|].
  destruct (is_strip_char c).
  - exists (c :: t). cbn. now rewrite <- Ht.
  - now exists [].
Qed.

Lemma rstrip_prefix : forall l : list char, exists t, l = rstrip l ++ t.
Proof.
  intro l. unfold rstrip. destruct (lstrip_suffix (rev l)) as [t Ht].
  exists (rev t). rewrite <- rev_app_distr, <- Ht. now rewrite rev_involutive.
Qed.

Lemma rstrip_ends_clean : forall l : list char, ends_clean (rstrip l).
Proof.
  intro l. unfold ends_clean, rstrip. rewrite rev_involutive.
  apply lstrip_starts_clean.
Qed.

Lemma rstrip_clean : forall l : list char, ends_clean l -> rstrip l = l.
Proof.
  intros l H. unfold rstrip. rewrite (lstrip_clean _ H).
  apply rev_involutive.
Qed.

Lemma rstrip_keeps_start : forall l : list char, starts_clean l -> starts_clean (rstrip l).
Proof.
  intros l H. destruct (rstrip_prefix l) as [t Ht].
  destruct (rstrip l) as [|c r]; [exact I|].
  rewrite Ht in H. exact H.
Qed.

Lemma strip_clean_both : forall l : list char,
  starts_clean (strip l) /\ ends_clean (strip l).
Proof.
  intro l. unfold strip. split.
  - apply rstrip_keeps_start, lstrip_starts_clean.
  - apply rstrip_ends_clean.
Qed.

Lemma strip_of_clean : forall l : list char,
  starts_clean l -> ends_clean l -> strip l = l.
Proof.
  intros l Hs He. unfold strip. rewrite (lstrip_clean l Hs).
  now apply rstrip_clean.
Qed.

Lemma strip_length : forall l : list char, (List.length (strip l) <= List.length l)%nat.
Proof.
  intro l. unfold strip.
  destruct (rstrip_prefix (lstrip l)) as [t Ht].
  destruct (lstrip_suffix l) as [u Hu].
  rewrite Hu at 2. rewrite Ht at 2. rewrite !length_app. lia.
Qed.

Lemma re_sub_invalid_of_valid : forall l : list char,
  (forall c, In c l -> is_invalid_char c = false) -> re_sub_invalid l = l.
Proof.
  induction l as [|c l IH]; intro H; [reflexivity|].
  cbn [re_sub_invalid map]. rewrite (H c (or_introl eq_refl)).
  f_equal. apply IH. intros x Hx. apply H. now right.
Qed.

End MoreCharacters.

Lemma length_list_ascii_of_string (s : string) :
  List.length (list_ascii_of_string s) = String.length s.
Proof.
  induction s as [|c s IH]; cbn; [reflexivity|now rewrite IH].
Qed.

(** X19. On a name of at most 200 characters [sanitize_filename] is
    idempotent: the result is never longer than the input, neither begins
    nor ends with a space or a dot, and sanitising it again changes
    nothing. *)
Theorem sanitize_filename_idempotent :
  forall filename : string,
    (String.length filename <= 200)%nat ->
    let r := sanitize_filename filename in
    sanitize_filename r = r
    /\ (String.length r <= String.length filename)%nat
    /\ starts_clean (list_ascii_of_string r)
    /\ ends_clean (list_ascii_of_string r).
Proof.
  intros filename Hlen r.
  set (l := strip (re_sub_invalid (list_ascii_of_string filename))).
  assert (Hl : (List.length l <= String.length filename)%nat).
  { subst l. etransitivity; [apply strip_length|].
    unfold re_sub_invalid.
    now rewrite length_map, length_list_ascii_of_string. }
  assert (Er : r = string_of_list_ascii l).
  { subst r. unfold sanitize_filename, sanitize_chars. fold l.
    destruct (200 <? List.length l)%nat eqn:E; [|reflexivity].
    apply Nat.ltb_lt in E. lia. }
  assert (Hvalid : forall c, In c l -> is_invalid_char c = false).
  { intros c Hc. subst l. now apply strip_incl, re_sub_invalid_clean in Hc. }
  destruct (strip_clean_both
              (re_sub_invalid (list_ascii_of_string filename)))
    as [Hs He]. fold l in Hs, He.
  rewrite Er. rewrite list_ascii_of_string_of_list_ascii.
  split; [|split; [|split]]; try assumption.
  - unfold sanitize_filename, sanitize_chars.
    rewrite list_ascii_of_string_of_list_ascii.
    rewrite (re_sub_invalid_of_valid l Hvalid).
    rewrite (strip_of_clean l Hs He).
    destruct (200 <? List.length l)%nat eqn:E; [|reflexivity].
    apply Nat.ltb_lt in E. lia.
  - now rewrite length_string_of_list_ascii.
Qed.

Lemma sanitize_filename_idempotent_witness :
  sanitize_filename (sanitize_filename " ..a<b>c. ")
  = sanitize_filename " ..a<b>c. ".
Proof.
  apply (proj1 (sanitize_filename_idempotent " ..a<b>c. " ltac:(cbn; lia))).
Defined.

(* ----------------------------------------------------------------- *)
(** ** [format_duration] *)

Lemma two_digits_two_chars (n : nat) :
  (n < 100)%nat -> two_digits n = two_chars n.
Proof.
  intro H.
  assert (Hall : forallb (fun k => String.eqb (two_digits k) (two_chars k))
                   (seq 0 100) = true) by (vm_compute; reflexivity).
  rewrite forallb_forall in Hall.
  apply String.eqb_eq. apply Hall. apply in_seq. lia.
Qed.

Lemma read_two_two_chars (n : nat) :
  (n < 100)%nat ->
  read_two (ascii_of_nat (48 + n / 10)) (ascii_of_nat (48 + n mod 10))
  = Z.of_nat n.
Proof.
  intro H. unfold read_two.
  assert (H1 : (n / 10 < 10)%nat) by (apply Nat.Div0.div_lt_upper_bound; lia).
  assert (H2 : (n mod 10 < 10)%nat) by (apply Nat.mod_upper_bound; lia).
  rewrite !nat_ascii_embedding by lia.
  pose proof (Nat.div_mod_eq n 10). lia.
Qed.

Lemma format_02d_small (z : Z) :
  (0 <= z < 100)%Z -> format_02d z = two_chars (Z.to_nat z).
Proof.
  intro H. unfold format_02d.
  destruct (0 <=? z)%Z eqn:E; [|apply Z.leb_gt in E; lia].
  apply two_digits_two_chars. lia.
Qed.

(** X20. For a duration of less than an hour, negative ones included,
    [format_duration] prints exactly five characters, minutes and
    seconds, and prints a negative or large-in-the-hour value as the
    value modulo 3600: -1 second reads as 59:59. *)
Theorem format_duration_below_one_hour :
  forall seconds : Z,
    (seconds < 3600)%Z ->
    String.length (format_duration seconds) = 5%nat
    /\ format_duration seconds = format_duration (seconds mod 3600)
    /\ format_duration seconds
       = two_chars (Z.to_nat ((seconds mod 3600) / 60)) +s+ ":"
         +s+ two_chars (Z.to_nat (seconds mod 60)).
Proof.
  intros s Hs.
  assert (Hm : (0 <= (s mod 3600) / 60 < 60)%Z).
  { pose proof (Z.mod_pos_bound s 3600 ltac:(lia)).
    split; [apply Z.div_pos; lia|apply Z.div_lt_upper_bound; lia]. }
  assert (Hsec : (0 <= s mod 60 < 60)%Z) by (apply Z.mod_pos_bound; lia).
  assert (Hh : (s / 3600 <= 0)%Z).
  { assert (s / 3600 < 1)%Z by (apply Z.div_lt_upper_bound; lia). lia. }
  assert (E : format_duration s
              = two_chars (Z.to_nat ((s mod 3600) / 60)) +s+ ":"
                +s+ two_chars (Z.to_nat (s mod 60))).
  { unfold format_duration.
    destruct (0 <? s / 3600)%Z eqn:E0; [apply Z.ltb_lt in E0; lia|].
    now rewrite !format_02d_small by lia. }
  split; [rewrite E; reflexivity|]. split; [|exact E].
  rewrite E. unfold format_duration.
  pose proof (Z.mod_pos_bound s 3600 ltac:(lia)) as Hb.
  assert (E1 : ((s mod 3600) / 3600 = 0)%Z) by (apply Z.div_small; lia).
  rewrite E1. cbn [Z.ltb Z.compare].
  rewrite Z.mod_mod by lia.
  assert (E2 : ((s mod 3600) mod 60 = s mod 60)%Z).
  { apply Z.mod_mod_divide. exists 60%Z. reflexivity. }
  rewrite E2. now rewrite !format_02d_small by lia.
Qed.

Lemma format_duration_below_one_hour_witness :
  format_duration (-1) = format_duration 3599
  /\ format_duration (-1) = "59:59".
Proof.
  split; [|reflexivity].
  rewrite (proj1 (proj2 (format_duration_below_one_hour (-1) eq_refl))).
  reflexivity.
Defined.

(** X21. For a duration from 0 up to 100 hours the printed text can be
    read back: [MM:SS] below one hour, [HH:MM:SS] from one hour on, and
    the fields give the number of seconds again, so two different
    durations never print alike. *)
Theorem format_duration_reads_back :
  forall seconds : Z,
    (0 <= seconds < 360000)%Z ->
    parse_duration (format_duration seconds) = Some seconds.
Proof.
  intros s Hs.
  assert (Hm : (0 <= (s mod 3600) / 60 < 60)%Z).
  { pose proof (Z.mod_pos_bound s 3600 ltac:(lia)).
    split; [apply Z.div_pos; lia|apply Z.div_lt_upper_bound; lia]. }
  assert (Hsec : (0 <= s mod 60 < 60)%Z) by (apply Z.mod_pos_bound; lia).
  assert (Hh : (0 <= s / 3600 < 100)%Z).
  { split; [apply Z.div_pos; lia|apply Z.div_lt_upper_bound; lia]. }
  assert (E2 : ((s mod 3600) mod 60 = s mod 60)%Z).
  { apply Z.mod_mod_divide. exists 60%Z. reflexivity. }
  assert (Hdecomp : (s = 3600 * (s / 3600) + 60 * ((s mod 3600) / 60)
                         + s mod 60)%Z).
  { pose proof (Z.div_mod s 3600 ltac:(lia)).
    pose proof (Z.div_mod (s mod 3600) 60 ltac:(lia)). lia. }
  unfold format_duration.
  rewrite !format_02d_small by lia.
  destruct (0 <? s / 3600)%Z eqn:E0.
  - unfold parse_duration, two_chars. cbn [String.append list_ascii_of_string].
    cbn [Ascii.eqb Bool.eqb andb].
    rewrite !read_two_two_chars by lia. rewrite !Z2Nat.id by lia.
    f_equal. lia.
  - apply Z.ltb_ge in E0. assert (E3 : (s / 3600 = 0)%Z) by lia.
    unfold parse_duration, two_chars. cbn [String.append list_ascii_of_string].
    cbn [Ascii.eqb Bool.eqb andb].
    rewrite !read_two_two_chars by lia. rewrite !Z2Nat.id by lia.
    f_equal. lia.
Qed.

Lemma format_duration_reads_back_witness :
  parse_duration (format_duration 3725) = Some 3725%Z
  /\ format_duration 3725 = "01:02:05".
Proof.
  split; [|reflexivity].
  apply format_duration_reads_back. lia.
Defined.
(* ----------------------------------------------------------------- *)
(** ** The transcript of a time range *)

Lemma segment_overlaps_stored (t : TranscriptSegment) (a b : F64.t) :
  segment_overlaps (TranscriptSegment_dict t) a b
  = Ok (F64.leb_Z a 0 && F64.geb_Z b 0).
Proof.
  unfold segment_overlaps. cbn [TranscriptSegment_dict dict_get String.eqb
    Ascii.eqb Bool.eqb py_add bind py_ge_float py_le_float Z.add].
  destruct (F64.leb_Z a 0); reflexivity.
Qed.

Lemma stored_text (t : TranscriptSegment) :
  dict_get (TranscriptSegment_dict t) "text" (PyStr "") = PyStr (ts_text t).
Proof. reflexivity. Qed.

Lemma all_strings_map (l : list string) :
  all_strings (map PyStr l) = Ok l.
Proof.
  induction l as [|s l IH]; cbn [map all_strings]; [reflexivity|].
  rewrite IH. reflexivity.
Qed.

Lemma stored_segments_range (l : list TranscriptSegment) (a b : F64.t) :
  get_segment_range (map TranscriptSegment_dict l) a b
  = Ok (if F64.leb_Z a 0 && F64.geb_Z b 0
        then map TranscriptSegment_dict l else [])
  /\ relevant_text (map TranscriptSegment_dict l) a b
     = Ok (if F64.leb_Z a 0 && F64.geb_Z b 0
           then map PyStr (map ts_text l) else []).
Proof.
  induction l as [|t l [IH1 IH2]];
    cbn [map get_segment_range relevant_text].
  - destruct (F64.leb_Z a 0 && F64.geb_Z b 0); split; reflexivity.
  - rewrite segment_overlaps_stored, IH1, IH2, stored_text. cbn [bind].
    destruct (F64.leb_Z a 0 && F64.geb_Z b 0); split; reflexivity.
Qed.

(** X22. On the segment dictionaries the transcript node stores (keys
    [start_time], [end_time], [text], [confidence]) the two range
    functions of the analysis find neither a [start] nor a [duration]
    key, so every segment counts as the instant 0: for a clip that does
    not start at or before 0 (it starts after 0, or its start is NaN) or
    does not end at or after 0, [get_segment_range] returns no segment
    and [extract_segment_text] the empty string, and for any other clip
    they return all segments and the whole transcript.  The times of the
    segments never matter. *)
Theorem range_functions_ignore_stored_times :
  forall (l : list TranscriptSegment) (start_time end_time : F64.t),
    let stored := map TranscriptSegment_dict l in
    (F64.leb_Z start_time 0 = false \/ F64.geb_Z end_time 0 = false ->
     get_segment_range stored start_time end_time = Ok []
     /\ extract_segment_text stored start_time end_time = Ok "")
    /\ (F64.leb_Z start_time 0 = true -> F64.geb_Z end_time 0 = true ->
        get_segment_range stored start_time end_time = Ok stored
        /\ extract_segment_text stored start_time end_time
           = Ok (py_strip (py_join " " (map ts_text l)))).
Proof.
  intros l a b stored. subst stored.
  destruct (stored_segments_range l a b) as [Hr Ht].
  unfold extract_segment_text. rewrite Hr, Ht. split.
  - intro H.
    assert (E : F64.leb_Z a 0 && F64.geb_Z b 0 = false)
      by (apply andb_false_iff; exact H).
    rewrite E. cbn [bind all_strings]. split; reflexivity.
  - intros Ha Hb. rewrite Ha, Hb. cbn [andb bind].
    rewrite all_strings_map. cbn [bind]. split; reflexivity.
Qed.

Lemma range_functions_ignore_stored_times_witness :
  extract_segment_text
    (map TranscriptSegment_dict
       [{| ts_start_time := F64.of_Z 100; ts_end_time := F64.of_Z 130;
           ts_text := "the words spoken in the clip";
           ts_confidence := Some (F64.of_ratio 95 100) |}])
    (F64.of_Z 100) (F64.of_Z 130)
  = Ok "".
Proof.
  apply (proj1 (range_functions_ignore_stored_times
                  [{| ts_start_time := F64.of_Z 100;
                      ts_end_time := F64.of_Z 130;
                      ts_text := "the words spoken in the clip";
                      ts_confidence := Some (F64.of_ratio 95 100) |}]
                  (F64.of_Z 100) (F64.of_Z 130))).
  left. reflexivity.
Defined.

Lemma raw_segments_range (l : list (F64.t * F64.t * string))
    (a b : F64.t) :
  get_segment_range (map raw_of l) a b
  = Ok (map raw_of (filter (overlaps_range a b) l))
  /\ relevant_text (map raw_of l) a b
     = Ok (map PyStr (map text_of (filter (overlaps_range a b) l))).
Proof.
  induction l as [|[[s d] t] l [IH1 IH2]];
    cbn [map get_segment_range relevant_text filter]; [split; reflexivity|].
  rewrite IH1, IH2.
  assert (E : segment_overlaps (raw_of (s, d, t)) a b
              = Ok (overlaps_range a b (s, d, t))).
  { unfold segment_overlaps, overlaps_range.
    cbn [raw_of raw_segment dict_get String.eqb Ascii.eqb Bool.eqb py_add
         bind py_ge_float py_le_float].
    destruct (F64.geb (F64.add s d) a); reflexivity. }
  rewrite E. cbn [bind].
  assert (Et : dict_get (raw_of (s, d, t)) "text" (PyStr "") = PyStr t)
    by reflexivity.
  rewrite Et.
  destruct (overlaps_range a b (s, d, t)); split; reflexivity.
Qed.

(** The end of a segment is a rounded sum: a segment from 0.1 lasting
    0.2 ends at 0.30000000000000004, above the float 0.3, and so still
    meets a range that starts there. *)
Example segment_end_is_rounded :
  let a := F64.add (F64.of_ratio 1 10) (F64.of_ratio 2 10) in
  F64.compare a (F64.of_ratio 3 10) = Some Gt
  /\ get_segment_range
       [raw_segment (F64.of_ratio 1 10) (F64.of_ratio 2 10) "words"]
       a (F64.of_Z 1)
     = Ok [raw_segment (F64.of_ratio 1 10) (F64.of_ratio 2 10) "words"].
Proof. split; vm_compute; reflexivity. Qed.

(** X23. On segments that do carry [start], [duration] and [text] as
    floats, [get_segment_range] returns, in order, exactly the segments
    whose closed interval meets the closed range
    [[start_time, end_time]] (touching ends count), the end of a segment
    being the float sum of its start and its duration; and
    [extract_segment_text] returns the texts of those same segments
    joined by single spaces and stripped. *)
Theorem range_functions_on_raw_segments :
  forall (l : list (F64.t * F64.t * string)) (start_time end_time : F64.t),
    get_segment_range (map raw_of l) start_time end_time
    = Ok (map raw_of (filter (overlaps_range start_time end_time) l))
    /\ extract_segment_text (map raw_of l) start_time end_time
       = Ok (py_strip
               (py_join " "
                  (map text_of
                     (filter (overlaps_range start_time end_time) l))))
    /\ (forall s d t,
           In (s, d, t) (filter (overlaps_range start_time end_time) l)
           <-> In (s, d, t) l
               /\ F64.geb (F64.add s d) start_time = true
               /\ F64.leb s end_time = true).
Proof.
  intros l a b. destruct (raw_segments_range l a b) as [Hr Ht].
  split; [exact Hr|]. split.
  - unfold extract_segment_text. rewrite Ht. cbn [bind].
    rewrite all_strings_map. reflexivity.
  - intros s d t. rewrite filter_In. unfold overlaps_range.
    rewrite andb_true_iff. tauto.
Qed.

(** X24. One segment whose [start] or [duration] is not a number makes
    both range functions raise, wherever it stands in the list and
    whatever the range. *)
Theorem range_functions_raise_on_bad_segment :
  forall (before after : list PyDict) (bad : PyDict) (a b : F64.t),
    (forall d, In d before -> exists hit, segment_overlaps d a b = Ok hit) ->
    is_number (dict_get bad "start" (PyInt 0)) = false
    \/ is_number (dict_get bad "duration" (PyInt 0)) = false ->
    get_segment_range (before ++ bad :: after) a b = Raise "TypeError"
    /\ extract_segment_text (before ++ bad :: after) a b
       = Raise "TypeError".
Proof.
  intros before after bad a b Hbefore Hbad.
  assert (Eb : segment_overlaps bad a b = Raise "TypeError").
  { unfold segment_overlaps.
    destruct (dict_get bad "start" (PyInt 0)) as [|z1|f1|s1];
      destruct (dict_get bad "duration" (PyInt 0)) as [|z2|f2|s2];
      cbn [is_number] in Hbad; try reflexivity;
      destruct Hbad as [H|H]; discriminate H. }
  assert (E : get_segment_range (before ++ bad :: after) a b
              = Raise "TypeError"
              /\ relevant_text (before ++ bad :: after) a b
                 = Raise "TypeError").
  { induction before as [|d before IH];
      cbn [app get_segment_range relevant_text].
    - rewrite Eb. split; reflexivity.
    - destruct (Hbefore d (or_introl eq_refl)) as [hit Hd].
      rewrite Hd. cbn [bind].
      destruct IH as [IH1 IH2];
        [intros x Hx; apply Hbefore; now right|].
      rewrite IH1, IH2. split; reflexivity. }
  destruct E as [E1 E2]. split; [exact E1|].
  unfold extract_segment_text. now rewrite E2.
Qed.

Lemma range_functions_raise_on_bad_segment_witness :
  get_segment_range
    ([raw_segment (F64.of_Z 0) (F64.of_Z 5) "a"]
     ++ [("start", PyStr "0:05"); ("duration", PyInt 5)] :: [])
    (F64.of_Z 0) (F64.of_Z 10)
  = Raise "TypeError".
Proof.
  apply (range_functions_raise_on_bad_segment
           [raw_segment (F64.of_Z 0) (F64.of_Z 5) "a"] []
           [("start", PyStr "0:05"); ("duration", PyInt 5)]
           (F64.of_Z 0) (F64.of_Z 10)).
  - intros d [<-|[]]. exists true. vm_compute. reflexivity.
  - left. reflexivity.
Defined.

(* ----------------------------------------------------------------- *)
(** ** The web backend's request and environment *)

Lemma VideoRequest_init_ok (u : string) (n d : Z) (r : VideoRequest) :
  VideoRequest_init u n d = Ok r ->
  r = {| youtube_url := u; num_clips := n; clip_duration := d |}
  /\ (1 <= n <= 10)%Z /\ (15 <= d <= 120)%Z.
Proof.
  unfold VideoRequest_init, validate_num_clips, validate_clip_duration.
  destruct ((n <? 1) || (10 <? n))%Z eqn:En; cbn [bind]; [discriminate|].
  destruct ((d <? 15) || (120 <? d))%Z eqn:Ed; cbn [bind]; [discriminate|].
  intro H. inversion H. split; [reflexivity|].
  apply orb_false_iff in En, Ed.
  destruct En as [En1 En2], Ed as [Ed1 Ed2].
  apply Z.ltb_ge in En1, En2, Ed1, Ed2. lia.
Qed.

Lemma from_env_background (n d : Z) (base : Env) :
  env_rest base = Ok tt ->
  from_env (background_environment n d base)
  = Ok {| max_clips_per_video := n;
          min_clip_duration := Z.max 25 (d - 15);
          max_clip_duration := d + 15;
          target_clip_duration := 30;
          min_engagement_score := 75 # 10;
          max_video_duration := 10800;
          api_rate_limit_delay := F64.of_Z 5 |}.
Proof.
  intro H. unfold from_env, background_environment, setenv_int,
    setenv_float.
  cbn [int_getenv float_getenv env_rest String.eqb Ascii.eqb Bool.eqb bind].
  rewrite H. reflexivity.
Qed.

(** X25. For every request the backend's validators accept (1 to 10
    clips, 15 to 120 seconds), the environment that
    [process_video_background] sets makes [from_env] load the requested
    number of clips and the duration bounds [max(25, d-15)] and [d+15],
    with the minimum below the maximum.  The requested duration itself is
    not loaded: [TARGET_CLIP_DURATION] is set but never read, so the
    target stays 30 seconds, which lies inside the bounds only for
    requests of at most 45 seconds; and a request below 25 seconds asks
    for clips that the minimum of 25 rejects. *)
Theorem background_environment_config :
  forall (u : string) (n d : Z) (r : VideoRequest) (base : Env),
    VideoRequest_init u n d = Ok r ->
    env_rest base = Ok tt ->
    exists p,
      from_env (background_environment (num_clips r) (clip_duration r) base)
      = Ok p
      /\ max_clips_per_video p = n /\ (1 <= n <= 10)%Z
      /\ min_clip_duration p = Z.max 25 (d - 15)
      /\ max_clip_duration p = (d + 15)%Z
      /\ (min_clip_duration p < max_clip_duration p)%Z
      /\ target_clip_duration p = 30%Z
      /\ ((min_clip_duration p <= target_clip_duration p
           <= max_clip_duration p)%Z <-> (d <= 45)%Z)
      /\ ((min_clip_duration p <= d <= max_clip_duration p)%Z
          <-> (25 <= d)%Z).
Proof.
  intros u n d r base Hr Hrest.
  destruct (VideoRequest_init_ok u n d r Hr) as [-> [Hn Hd]].
  cbn [num_clips clip_duration].
  eexists. split; [exact (from_env_background n d base Hrest)|].
  cbn [max_clips_per_video min_clip_duration max_clip_duration
         target_clip_duration].
  repeat split; try lia.
Qed.

Lemma background_environment_config_witness :
  exists p,
    from_env (background_environment 3 60 (Sample.env_of 0 0 0)) = Ok p
    /\ min_clip_duration p = 45%Z /\ target_clip_duration p = 30%Z.
Proof.
  destruct (background_environment_config "https://youtu.be/abc" 3 60
              {| youtube_url := "https://youtu.be/abc"; num_clips := 3;
                 clip_duration := 60 |}
              (Sample.env_of 0 0 0) eq_refl eq_refl)
    as [p [Hp [_ [_ [Hmin [_ [_ [Ht _]]]]]]]].
  exists p. split; [exact Hp|]. split; [exact Hmin|exact Ht].
Defined.

(** X26. Under the environment of an accepted backend request,
    [select_clips_node] never stores more clips than were requested, and
    every clip whose measured duration is the 30-second target is
    rejected as too short as soon as more than 45 seconds were
    requested. *)
Theorem background_request_bounds_selection :
  forall (u : string) (n d : Z) (r : VideoRequest) (base : Env)
         (state : PodcastState),
    VideoRequest_init u n d = Ok r ->
    env_rest base = Ok tt ->
    let e := background_environment (num_clips r) (clip_duration r) base in
    let state' := fst (select_clips_node e state) in
    (status state' = "clips_selected" ->
     (1 <= Z.of_nat (List.length (selected_clips state')) <= n)%Z)
    /\ ((45 < d)%Z ->
        forall p clip,
          from_env e = Ok p ->
          F64.compare_Z (duration clip) 30 = Some Eq ->
          passes p clip = false
          /\ (status state' = "clips_selected" ->
              ~ In clip (selected_clips state'))).
Proof.
  intros u n d r base state Hr Hrest e state'.
  destruct (VideoRequest_init_ok u n d r Hr) as [-> [Hn Hd]].
  cbn [num_clips clip_duration] in e.
  pose proof (from_env_background n d base Hrest) as Hp. fold e in Hp.
  split.
  - intro Hst.
    destruct (select_clips_node_selected e state Hst)
      as [p [Hp' [Hsel [Hne _]]]].
    fold state' in Hsel, Hne.
    rewrite Hp in Hp'. inversion Hp'. subst p. clear Hp'.
    cbn [max_clips_per_video] in Hsel.
    assert (Hl : List.length (selected_clips state')
                 = Nat.min (Z.to_nat n)
                     (List.length
                        (sort_by_score_desc
                           (filter
                              (passes
                                 {| max_clips_per_video := n;
                                    min_clip_duration := Z.max 25 (d - 15);
                                    max_clip_duration := d + 15;
                                    target_clip_duration := 30;
                                    min_engagement_score := 75 # 10;
                                    max_video_duration := 10800;
                                    api_rate_limit_delay := F64.of_Z 5 |})
                              (identified_clips state)))))
      by (rewrite Hsel; apply slice_to_nonneg_length; lia).
    assert (Hpos : (1 <= List.length (selected_clips state'))%nat).
    { destruct (selected_clips state'); [congruence|cbn; lia]. }
    lia.
  - intros Hd45 p clip Hp' Hdur.
    rewrite Hp in Hp'. inversion Hp'. subst p. clear Hp'.
    assert (Hrej : passes
                     {| max_clips_per_video := n;
                        min_clip_duration := Z.max 25 (d - 15);
                        max_clip_duration := d + 15;
                        target_clip_duration := 30;
                        min_engagement_score := 75 # 10;
                        max_video_duration := 10800;
                        api_rate_limit_delay := F64.of_Z 5 |} clip
                   = false).
    { assert (Hshort : F64.ltb_Z (duration clip) (Z.max 25 (d - 15))
                       = true).
      { apply (leb_Z_ltb_Z_larger _ 30); [lia|].
        unfold F64.leb_Z. now rewrite Hdur. }
      unfold passes. cbn [min_clip_duration]. fold (duration clip).
      now rewrite Hshort. }
    split; [exact Hrej|]. intro Est.
    destruct (select_clips_node_selected e state Est)
      as [p [Hp' [_ [_ [_ Hin]]]]].
    fold state' in Hin. rewrite Hp in Hp'. inversion Hp'. subst p.
    intro Hc. destruct (Hin clip Hc) as [_ [Hw _]].
    apply passes_not_out_of_bounds in Hw. congruence.
Qed.

Lemma background_request_bounds_selection_witness :
  (Z.of_nat
     (List.length
        (selected_clips
           (fst (select_clips_node
                   (background_environment 1 30 (Sample.env_of 0 0 0))
                   (Sample.analysed
                      [Sample.first; Sample.second; Sample.third])))))
   <= 1)%Z.
Proof.
  refine (proj2 (proj1 (background_request_bounds_selection
                   "https://youtu.be/abc" 1 30
                   {| youtube_url := "https://youtu.be/abc"; num_clips := 1;
                      clip_duration := 30 |}
                   (Sample.env_of 0 0 0)
                   (Sample.analysed
                      [Sample.first; Sample.second; Sample.third])
                   eq_refl eq_refl) _)).
  vm_compute. reflexivity.
Defined.

(* ----------------------------------------------------------------- *)
(** ** What the command line reports *)

Lemma invoke_from_last_halts (w : World) :
  forall fuel n state pre m x,
    (remaining n <= fuel)%nat ->
    invoke_from w fuel n state = pre ++ [(m, x)] ->
    next_node m x = None /\ exists s, x = node_function w m s.
Proof.
  induction fuel as [|fuel IH]; intros n state pre m x Hfuel E.
  - destruct pre; discriminate E.
  - cbn [invoke_from] in E.
    destruct (next_node n (node_function w n state)) as [n'|] eqn:En.
    + pose proof (next_node_remaining n n' _ En) as Hr.
      destruct pre as [|y pre]; cbn [app] in E.
      * injection E as _ _ E2. exfalso.
        destruct fuel as [|fuel]; [destruct n'; cbn in Hr; lia|].
        cbn [invoke_from] in E2. discriminate E2.
      * injection E as _ E2.
        apply (IH n' (node_function w n state) pre m x); [lia|exact E2].
    + destruct pre as [|y pre]; cbn [app] in E.
      * injection E as E1 E2. subst m x. split; [exact En|now exists state].
      * injection E as _ E2. destruct pre; discriminate E2.
Qed.

(** X27. The command line never reports a run as a success: its test is
    [status == "clips_selected"], but a run whose selection succeeded
    always goes on to the download, so [process_video] never returns
    that status, nor "no_clips_found" or "no_clips_selected", which no
    node sets.  Whatever happened, also after a complete run, the command
    prints "Processing failed" with the final status and the errors. *)
Theorem cli_always_reports_failure :
  forall (w : World) (url : string) (cfg : CustomConfig),
    let result := process_video w url cfg in
    status result <> "clips_selected"
    /\ status result <> "no_clips_found"
    /\ status result <> "no_clips_selected"
    /\ cli_report result = ReportFailed (status result) (errors result).
Proof.
  intros w url0 cfg result. subst result.
  destruct (process_video_returns w url0 cfg)
    as [[e [_ [_ Ep]]]|[_ [_ Ep]]]; cbv zeta in Ep; rewrite Ep; clear Ep.
  { (* the summary raised: the status is "failed" *)
    unfold cli_report. state_simpl.
    split; [discriminate|]. split; [discriminate|].
    split; [discriminate|]. reflexivity. }
  set (result := set_completed_at (Some (now w))
                   (graph_invoke w (initial_state w url0 cfg))).
  destruct (graph_trace_last w (initial_state w url0 cfg))
    as [pre [m [x [E Ex]]]].
  assert (Hst : status result = status x).
  { subst result. state_simpl. now rewrite Ex. }
  pose proof (invoke_from_guarantee w 6 fetch_transcript
                (initial_state w url0 cfg) I) as HF.
  fold (graph_trace w (initial_state w url0 cfg)) in HF.
  rewrite E in HF. apply Forall_app in HF. destruct HF as [_ HF].
  apply Forall_inv in HF. destruct HF as [Ht _]. cbn [fst snd] in Ht.
  destruct (invoke_from_last_halts w 6 fetch_transcript
              (initial_state w url0 cfg) pre m x (le_n 6) E)
    as [Hhalt [s Hs]].
  assert (H1 : status x <> "clips_selected").
  { intro Hc. rewrite Hc in Ht.
    assert (Hm : m = select_clips).
    { destruct m; cbn in Ht;
        repeat (destruct Ht as [Ht|Ht]; [try discriminate Ht|]);
        try contradiction; reflexivity. }
    subst m. cbn [node_function] in Hs.
    rewrite Hs in Hc.
    destruct (select_clips_node_selected (env w) s Hc)
      as [p [_ [_ [Hne _]]]].
    rewrite <- Hs in Hne, Hc.
    rewrite next_node_after_selection in Hhalt
      by (rewrite Hc; reflexivity).
    destruct (selected_clips x); [congruence|discriminate Hhalt]. }
  assert (H2 : status x <> "no_clips_found"
               /\ status x <> "no_clips_selected").
  { split; intro Hc; rewrite Hc in Ht;
      destruct m; cbn in Ht;
      repeat (destruct Ht as [Ht|Ht]; [discriminate Ht|]); exact Ht. }
  destruct H2 as [H2 H3]. rewrite Hst.
  split; [exact H1|]. split; [exact H2|]. split; [exact H3|].
  unfold cli_report. rewrite Hst.
  apply String.eqb_neq in H1, H2, H3. now rewrite H1, H2, H3.
Qed.

(* ----------------------------------------------------------------- *)
(** ** [fetch_youtube_transcript] *)

Lemma lstrip_space_length (l : list ascii) :
  (List.length (lstrip_space l) <= List.length l)%nat.
Proof.
  induction l as [|c l IH]; cbn [lstrip_space]; [lia|].
  destruct (py_isspace c); cbn [List.length]; lia.
Qed.

Lemma py_strip_length (s : string) :
  (String.length (py_strip s) <= String.length s)%nat.
Proof.
  unfold py_strip. rewrite length_string_of_list_ascii, length_rev.
  etransitivity; [apply lstrip_space_length|].
  rewrite length_rev.
  etransitivity; [apply lstrip_space_length|].
  now rewrite length_list_ascii_of_string.
Qed.

Lemma fetch_body_ok (listing : result Transcript.Offer) (full : string)
      (segs : list TranscriptSegment) (src : string) :
  Transcript.fetch_body listing = Ok (full, segs, src) ->
  exists items,
    listing = Ok (Some (src, Ok items))
    /\ items <> []
    /\ segs = map (fun item =>
                     {| ts_start_time := Transcript.item_start item;
                        ts_end_time :=
                          F64.add (Transcript.item_start item)
                            (Transcript.item_duration item);
                        ts_text := py_strip (Transcript.item_text item);
                        ts_confidence := Some (F64.of_ratio 95 100) |})
                  items
    /\ full = py_join " "
                (map (fun item => py_strip (Transcript.item_text item)) items)
    /\ (50 <= String.length (py_strip full))%nat.
Proof.
  unfold Transcript.fetch_body. intro E.
  destruct listing as [[[source [items|e1]]|]|e0]; cbn [bind] in E;
    try discriminate E.
  destruct (truthy_list items) eqn:Et; cbn [negb] in E; [|discriminate E].
  destruct (String.length _ <? 50)%nat eqn:El; [discriminate E|].
  apply Nat.ltb_ge in El.
  injection E as E1 E2 E3. exists items. subst src.
  split; [reflexivity|]. split; [now destruct items|].
  split; [now symmetry|]. split; [now symmetry|].
  now rewrite <- E1.
Qed.

(** X28. When [fetch_youtube_transcript] returns, the transcript it
    returns has at least 50 characters and there is at least one
    segment, one per item of the service in the same order, each ending
    at the float sum of its start and its duration and carrying the
    confidence 0.95;
    the text is the stripped item texts joined by single spaces.  So
    after a successful fetch the guard of [analyze_content_node] ("No
    transcript available for analysis") is never taken.  When it raises,
    the message always starts with "No transcript found for video "
    followed by the video id. *)
Theorem fetch_youtube_transcript_result :
  forall (url : string) (listing : result Transcript.Offer),
    match Transcript.fetch_youtube_transcript url listing with
    | Ok (full, segs, src) =>
        (50 <= String.length full)%nat
        /\ segs <> []
        /\ (exists items,
               listing = Ok (Some (src, Ok items))
               /\ map ts_start_time segs = map Transcript.item_start items
               /\ map ts_end_time segs
                  = map (fun i => F64.add (Transcript.item_start i)
                                    (Transcript.item_duration i)) items
               /\ map ts_text segs
                  = map (fun i => py_strip (Transcript.item_text i)) items
               /\ full = py_join " " (map ts_text segs))
        /\ Forall (fun s => ts_confidence s = Some (F64.of_ratio 95 100))
             segs
        /\ (forall (w : World) (state : PodcastState),
               transcript state = Some full ->
               transcript_segments state = segs ->
               analyze_content_node w state
               = match analyze w state with
                 | Ok clips =>
                     set_status "clips_identified"
                       (set_identified_clips clips state)
                 | Raise e =>
                     set_status "analysis_failed"
                       (set_errors
                          (errors state
                           ++ ["Content analysis failed: " +s+ e]) state)
                 end)
    | Raise e =>
        exists cause,
          e = "No transcript found for video "
              +s+ Url.extract_video_id_from_url url +s+ ": " +s+ cause
    end.
Proof.
  intros url listing. unfold Transcript.fetch_youtube_transcript.
  destruct (Transcript.fetch_body listing) as [[[full segs] src]|e] eqn:E;
    [|now exists e].
  destruct (fetch_body_ok _ _ _ _ E)
    as [items [Hl [Hne [Hsegs [Hfull Hlen]]]]].
  assert (Htexts : map ts_text segs
                   = map (fun i => py_strip (Transcript.item_text i)) items)
    by (rewrite Hsegs, map_map; reflexivity).
  assert (Hsne : segs <> []).
  { rewrite Hsegs. destruct items; [congruence|discriminate]. }
  assert (Hlen' : (50 <= String.length full)%nat).
  { etransitivity; [exact Hlen|apply py_strip_length]. }
  split; [exact Hlen'|]. split; [exact Hsne|].
  split.
  { exists items. split; [exact Hl|].
    rewrite Htexts, Hsegs, !map_map. cbn [ts_start_time ts_end_time].
    repeat split. exact Hfull. }
  split.
  { rewrite Hsegs. apply Forall_forall. intros s Hs.
    apply in_map_iff in Hs. destruct Hs as [it [<- _]]. reflexivity. }
  intros w state Htr Hss. unfold analyze_content_node.
  rewrite Htr, Hss. cbn [truthy_opt_str].
  assert (Ht : truthy_str full = true).
  { destruct full; [cbn in Hlen'; lia|reflexivity]. }
  rewrite Ht. destruct segs; [congruence|]. reflexivity.
Qed.

Lemma fetch_youtube_transcript_result_witness :
  Transcript.fetch_youtube_transcript Fetched.url Fetched.listing
  = Ok (Fetched.full, Fetched.segments, "youtube_manual")
  /\ (50 <= String.length Fetched.full)%nat
  /\ status (analyze_content_node Demo.all_ok Fetched.state)
     = "clips_identified".
Proof.
  pose proof (fetch_youtube_transcript_result Fetched.url Fetched.listing)
    as H.
  assert (E : Transcript.fetch_youtube_transcript Fetched.url Fetched.listing
              = Ok (Fetched.full, Fetched.segments, "youtube_manual"))
    by (vm_compute; reflexivity).
  rewrite E in H. destruct H as [H1 [_ [_ [_ H5]]]].
  split; [exact E|]. split; [exact H1|].
  rewrite (H5 Demo.all_ok Fetched.state eq_refl eq_refl).
  reflexivity.
Defined.

(* ----------------------------------------------------------------- *)
(** ** The id of a video *)

Lemma take_id_chars (l : list ascii) :
  forallb Url.id_char (Url.take_id l) = true.
Proof.
  induction l as [|c l IH]; cbn [Url.take_id]; [reflexivity|].
  destruct (Url.id_char c) eqn:E; [|reflexivity].
  cbn [forallb]. now rewrite E, IH.
Qed.

Lemma group_after_chars (rest g : list ascii) :
  Url.group_after rest = Some g ->
  g <> [] /\ forallb Url.id_char g = true.
Proof.
  unfold Url.group_after. pose proof (take_id_chars rest) as H.
  destruct (Url.take_id rest) as [|c t]; [discriminate|].
  intro E. inversion E; subst. split; [discriminate|exact H].
Qed.

Lemma match_here_chars (alts : list (list ascii)) (l g : list ascii) :
  Url.match_here alts l = Some g ->
  g <> [] /\ forallb Url.id_char g = true.
Proof.
  induction alts as [|p alts IH]; cbn [Url.match_here]; [discriminate|].
  destruct (Url.strip_prefix p l) as [rest|]; [|exact IH].
  destruct (Url.group_after rest) as [g'|] eqn:E; [|exact IH].
  intro H. inversion H; subst. now apply group_after_chars in E.
Qed.

Lemma last_v_chars (l g : list ascii) :
  Url.last_v l = Some g -> g <> [] /\ forallb Url.id_char g = true.
Proof.
  induction l as [|c l IH]; cbn [Url.last_v]; [discriminate|].
  destruct (Ascii.eqb c (ascii_of_nat 10)); [discriminate|].
  destruct (Url.last_v l) as [g'|].
  - intro H. inversion H; subst. now apply IH.
  - destruct (Url.strip_prefix _ (c :: l)) as [after|]; [|discriminate].
    apply group_after_chars.
Qed.

Lemma search_chars (here : list ascii -> option (list ascii)) :
  (forall l g, here l = Some g ->
               g <> [] /\ forallb Url.id_char g = true) ->
  forall l g, Url.search here l = Some g ->
              g <> [] /\ forallb Url.id_char g = true.
Proof.
  intros Hhere. induction l as [|c l IH]; intros g; cbn [Url.search].
  - destruct (here []) eqn:E; [|discriminate].
    intro H. inversion H; subst. now apply (Hhere []).
  - destruct (here (c :: l)) eqn:E.
    + intro H. inversion H; subst. now apply (Hhere (c :: l)).
    + apply IH.
Qed.

Lemma strip_prefix_app (p r : list ascii) :
  Url.strip_prefix p (p ++ r) = Some r.
Proof.
  induction p as [|a p IH]; cbn [Url.strip_prefix app]; [reflexivity|].
  now rewrite Ascii.eqb_refl.
Qed.

Lemma take_id_exact (id tail : list ascii) :
  forallb Url.id_char id = true ->
  (tail = [] \/ exists c t, tail = c :: t /\ Url.id_char c = false) ->
  Url.take_id (id ++ tail) = id.
Proof.
  intros Hid Htail. induction id as [|a id IH]; cbn [app].
  - destruct Htail as [->|[c [t [-> Hc]]]]; cbn [Url.take_id];
      [reflexivity|now rewrite Hc].
  - cbn [forallb] in Hid. apply andb_true_iff in Hid.
    destruct Hid as [Ha Hid]. cbn [Url.take_id]. rewrite Ha.
    f_equal. now apply IH.
Qed.

Lemma match_here_literal (lit id tail : list ascii) :
  In lit Url.literals ->
  id <> [] ->
  forallb Url.id_char id = true ->
  (tail = [] \/ exists c t, tail = c :: t /\ Url.id_char c = false) ->
  Url.match_here Url.literals (lit ++ id ++ tail) = Some id.
Proof.
  intros Hlit Hne Hid Htail.
  assert (Hg : Url.group_after (id ++ tail) = Some id).
  { unfold Url.group_after. rewrite (take_id_exact id tail Hid Htail).
    destruct id; [congruence|reflexivity]. }
  destruct Hlit as [<-|[<-|[<-|[]]]].
  - cbn [Url.literals Url.match_here].
    rewrite strip_prefix_app. now rewrite Hg.
  - cbn. fold (id ++ tail). now rewrite Hg.
  - cbn. fold (id ++ tail). now rewrite Hg.
Qed.

Lemma search_skips_prefix (pfx rest : list ascii) (g : list ascii) :
  ~ In "y"%char pfx ->
  Url.match_here Url.literals rest = Some g ->
  Url.search (Url.match_here Url.literals) (pfx ++ rest) = Some g.
Proof.
  intros Hy Hm. induction pfx as [|c pfx IH]; cbn [app].
  - destruct rest; cbn [Url.search]; now rewrite Hm.
  - assert (Hc : c <> "y"%char) by (intro E; apply Hy; now left).
    assert (E : Url.match_here Url.literals (c :: pfx ++ rest) = None).
    { apply Ascii.eqb_neq in Hc. rewrite Ascii.eqb_sym in Hc.
      unfold Url.literals.
      cbn [Url.match_here list_ascii_of_string Url.strip_prefix].
      now rewrite Hc. }
    cbn [Url.search]. rewrite E. apply IH. intro H. apply Hy. now right.
Qed.

(** X30. [extract_video_id_from_url] returns either the URL itself (when
    neither pattern matches) or a non-empty id free of the characters
    ampersand, newline, question mark and hash.  It reads back the id of
    every URL built in one of the three standard forms: for a scheme and
    host prefix without the letter y, one of the literals
    "youtube.com/watch?v=", "youtu.be/", "youtube.com/embed/", an id of
    allowed characters, and a rest that is empty or starts with one of
    the four delimiters, the result is exactly the id. *)
Theorem extract_video_id_reads_back :
  (forall url : string,
      Url.extract_video_id_from_url url = url
      \/ (Url.extract_video_id_from_url url <> ""
          /\ forallb Url.id_char
               (list_ascii_of_string (Url.extract_video_id_from_url url))
             = true))
  /\ (forall (pfx lit id tail : list ascii),
         ~ In "y"%char pfx ->
         In lit Url.literals ->
         id <> [] ->
         forallb Url.id_char id = true ->
         (tail = [] \/ exists c t, tail = c :: t /\ Url.id_char c = false) ->
         Url.extract_video_id_from_url
           (string_of_list_ascii (pfx ++ lit ++ id ++ tail))
         = string_of_list_ascii id).
Proof.
  split.
  - intro url. unfold Url.extract_video_id_from_url.
    destruct (Url.search (Url.match_here Url.literals)
                (list_ascii_of_string url)) as [g|] eqn:E1.
    + right.
      destruct (search_chars _ (match_here_chars Url.literals) _ _ E1)
        as [Hne Hc].
      rewrite list_ascii_of_string_of_list_ascii.
      split; [|exact Hc]. destruct g; [congruence|discriminate].
    + destruct (Url.search Url.match_here2 (list_ascii_of_string url))
        as [g|] eqn:E2; [|now left].
      right.
      assert (Hh : forall l g0, Url.match_here2 l = Some g0 ->
                     g0 <> [] /\ forallb Url.id_char g0 = true).
      { intros l g0. unfold Url.match_here2.
        destruct (Url.strip_prefix _ l); [apply last_v_chars|discriminate]. }
      destruct (search_chars _ Hh _ _ E2) as [Hne Hc].
      rewrite list_ascii_of_string_of_list_ascii.
      split; [|exact Hc]. destruct g; [congruence|discriminate].
  - intros pfx lit id tail Hy Hlit Hne Hid Htail.
    unfold Url.extract_video_id_from_url.
    rewrite list_ascii_of_string_of_list_ascii.
    now rewrite (search_skips_prefix pfx (lit ++ id ++ tail) id Hy
                   (match_here_literal lit id tail Hlit Hne Hid Htail)).
Qed.

Lemma extract_video_id_reads_back_witness :
  Url.extract_video_id_from_url "https://www.youtube.com/watch?v=abc&t=1"
  = "abc".
Proof.
  apply (proj2 extract_video_id_reads_back
           (list_ascii_of_string "https://www.")
           (list_ascii_of_string "youtube.com/watch?v=")
           (list_ascii_of_string "abc")
           (list_ascii_of_string "&t=1")).
  - cbn. intuition discriminate.
  - left. reflexivity.
  - discriminate.
  - reflexivity.
  - right. exists "&"%char, (list_ascii_of_string "t=1"). now split.
Defined.

(* ----------------------------------------------------------------- *)
(** ** The guards of [generate_clips_node] *)

(** X29. Without a usable video file (no path, an empty path, or a path
    that does not exist) [generate_clips_node] appends the one error
    "No video file available for clip generation" and returns the state
    otherwise unchanged: [status] is not set to "failed" and
    [processed_clips] is not written; with no successful clip from
    before, the router then ends the run. *)
Theorem generate_clips_node_without_video :
  forall (w : World) (state : PodcastState),
    video_path state = None \/ video_path state = Some ""
    \/ (exists p, video_path state = Some p /\ path_exists w p = false) ->
    let state' := generate_clips_node w state in
    state'
    = set_errors
        (errors state ++ ["No video file available for clip generation"])
        state
    /\ status state' = status state
    /\ processed_clips state' = processed_clips state
    /\ warnings state' = warnings state
    /\ (filter success (processed_clips state) = [] ->
        next_node generate_clips state' = None).
Proof.
  intros w state H state'.
  assert (E : state'
              = set_errors
                  (errors state
                   ++ ["No video file available for clip generation"])
                  state).
  { subst state'. unfold generate_clips_node.
    destruct H as [H|[H|[p [H Hp]]]]; rewrite H;
      cbn [truthy_str negb orb]; try reflexivity.
    rewrite Hp. cbn [negb]. now rewrite orb_true_r. }
  rewrite E. state_simpl. repeat split.
  intro Hf. cbn [next_node]. unfold _should_continue_after_generation.
  state_simpl. rewrite Hf. cbn [truthy_list negb].
  destruct (String.eqb (status state) "failed"); reflexivity.
Qed.

Lemma generate_clips_node_without_video_witness :
  status (generate_clips_node Demo.all_ok (Sample.analysed [Sample.valid]))
  = "clips_identified".
Proof.
  apply (proj1 (proj2 (generate_clips_node_without_video Demo.all_ok
                         (Sample.analysed [Sample.valid])
                         (or_introl eq_refl)))).
Defined.
